(** * Trading-bot execution engine: strategies, ledger and executor

    A shallow embedding of the trading-bot module [services/tradingBot]
    (the strategy classes, the sizing helpers, the bot store and
    [startStrategyExecutor]; its text is in [src/services/exportService.ts])
    and of [src/services/tradingMode.ts] (the balance ledger).

    Numbers.  The engine (the bot store, [startBot], [stopBot], the
    executor and the stores around them) is modelled over exact rationals
    ([Q]): what is proved of it is control flow, capture of state objects
    and frame properties.  Where the source divides by a quantity that may
    be zero, the quotient is an extended number ([xnum]) that also has the
    two infinities and NaN, so that comparisons on it behave as in
    JavaScript.

    The functions whose answer is decided by the arithmetic itself (the two
    sizing helpers, MA-Cross, Grid, the balance ledger and the risk check)
    are modelled a second time in [Rounded], over IEEE 754 binary64 numbers
    ([F64], on the Standard Library's [SpecFloat]): every operation rounds to
    the nearest double, NaN, the infinities and the signed zeros are there,
    and a balance object has the properties every JavaScript object inherits.
    The statements about the numbers these functions return are made on
    [Rounded]. *)

From Stdlib Require Import QArith Qround Qminmax ZArith Lia Lqa Ascii String SpecFloat.
From stdpp Require Import gmap strings list.

Local Open Scope Q_scope.

(** ** JavaScript numbers *)

Module JS.

(** Result of a division whose divisor may vanish. *)
Inductive xnum : Type :=
| Fin (q : Q)
| PInf
| NInf
| NaN.

Definition Qltb (x y : Q) : bool := negb (Qle_bool y x).

(** [a / b] on finite operands (the sign of a zero divisor is taken
    positive). *)
Definition div (a b : Q) : xnum :=
  if Qeq_bool b 0 then
    if Qeq_bool a 0 then NaN
    else if Qltb 0 a then PInf else NInf
  else Fin (a / b).

(** [a / g] for a finite [a] and an extended divisor. *)
Definition divx (a : Q) (g : xnum) : xnum :=
  match g with
  | Fin b => div a b
  | PInf | NInf => Fin 0
  | NaN => NaN
  end.

(** [Math.floor]. *)
Definition floor (x : xnum) : xnum :=
  match x with
  | Fin q => Fin (inject_Z (Qfloor q))
  | other => other
  end.

(** [x * c] for a finite non-zero [c > 0]. *)
Definition scale (x : xnum) (c : Q) : xnum :=
  match x with
  | Fin q => Fin (q * c)
  | other => other
  end.

(** [x < y], [x > y], [x <= y], [x >= y]: false as soon as one side is
    NaN. *)
Definition lt (x y : xnum) : bool :=
  match x, y with
  | NaN, _ | _, NaN => false
  | Fin a, Fin b => Qltb a b
  | NInf, NInf => false
  | NInf, _ => true
  | _, PInf => match x with PInf => false | _ => true end
  | _, _ => false
  end.

Definition gt (x y : xnum) : bool := lt y x.

Definition le (x y : xnum) : bool :=
  match x, y with
  | NaN, _ | _, NaN => false
  | Fin a, Fin b => Qle_bool a b
  | NInf, _ => true
  | _, PInf => true
  | _, _ => false
  end.

Definition ge (x y : xnum) : bool := le y x.

(** [x % 2 === 0]: the remainder of an infinity or of NaN is NaN; the
    remainder of a finite number keeps the sign of the dividend
    ([-0 === 0]), and is zero for the even integers only. *)
Definition mod2_is_zero (x : xnum) : bool :=
  match x with
  | Fin q => Qeq_bool q (inject_Z (Qfloor q)) && Z.eqb (Z.rem (Qfloor q) 2) 0%Z
  | _ => false
  end.

(** [Math.round]: the nearest integer, halves towards +infinity. *)
Definition round (x : Q) : Z := Qfloor (x + (1 # 2)).

(** Truthiness of a number that may be absent ([undefined], [null] or
    NaN are [None]). *)
Definition truthy (x : option Q) : bool :=
  match x with
  | Some q => negb (Qeq_bool q 0)
  | None => false
  end.

End JS.

(** ** Sizing and win-rate helpers *)

(** [calculateTradeAmount].  The body is wrapped in a [try] whose handler is
    never entered: arithmetic does not throw.  The two quotients are exact;
    every call site passes a non-zero [currentPrice]. *)
Definition calculateTradeAmount (maxPositionSize currentPrice availableBalance : Q) : Q :=
  let maxAmount := (availableBalance / currentPrice)%Q in
  if JS.Qltb maxPositionSize currentPrice then
    Qmin 1 maxAmount
  else
    let amount := inject_Z (Qfloor (maxPositionSize / currentPrice)) in
    Qmin amount maxAmount.

(** [calculateWinRate]. *)
Definition calculateWinRate (currentWinRate : Q) (totalTrades : nat) (isWin : bool) : Q :=
  let totalWins :=
    ((currentWinRate * inject_Z (Z.of_nat totalTrades) + (if isWin then 100 else 0))
     / (inject_Z (Z.of_nat totalTrades) + 1))%Q in
  (inject_Z (JS.round (totalWins * 100)) / 100)%Q.

(** The two helpers as the specification words them. *)
Module HelperSpec.

(** "if maxPositionSize < price, buy at most 1 unit bounded by
    availableBalance/price; otherwise buy floor(maxPositionSize/price)
    bounded by availableBalance/price". *)
Definition tradeSize (maxPositionSize price availableBalance : Q) : Q :=
  match Qlt_le_dec maxPositionSize price with
  | left _ => Qmin 1 (availableBalance / price)
  | right _ => Qmin (inject_Z (Qfloor (maxPositionSize / price))) (availableBalance / price)
  end.

(** [r] is [x] rounded to two decimals: a whole number of hundredths, at
    distance at most half a hundredth, the tie going upwards. *)
Definition is_round2 (x r : Q) : Prop :=
  exists k : Z, (r == inject_Z k / 100)%Q /\ (x - (1 # 200) < r)%Q /\ (r <= x + (1 # 200))%Q.

Definition newRate (oldRate : Q) (oldTotalTrades : nat) (isWin : bool) : Q :=
  ((oldRate * inject_Z (Z.of_nat oldTotalTrades) + (if isWin then 100 else 0))
   / (inject_Z (Z.of_nat oldTotalTrades) + 1))%Q.

End HelperSpec.

(** ** Market snapshots and signals *)

Record Kline := {
  k_time : Z;
  k_open : Q;
  k_high : Q;
  k_low : Q;
  k_close : Q;
  k_volume : Q
}.

(** The object handed to [analyze].  A field that is missing, or a price
    that is NaN, is [None]; [md_klines] is [None] when the field is not an
    array. *)
Record MarketData := {
  md_price : option Q;
  md_klines : option (list Kline);
  md_volume : option Q;
  md_timestamp : Z
}.

(** What a tick can throw. *)
Inductive Exn :=
| InvalidMarketData      (* thrown by validateData *)
| NoCurrentPrice         (* thrown by the single-symbol branch of the tick *)
| TypeError.             (* a property read on undefined *)

Inductive Result (A : Type) :=
| Ok (a : A)
| Throw (e : Exn).
Arguments Ok {A} a.
Arguments Throw {A} e.

Inductive Action := buy | sell.

Inductive RecAction := strong_buy | rec_buy | hold | rec_sell | strong_sell.

Record Recommendation := {
  rec_symbol : string;
  rec_action : RecAction;
  rec_confidence : Q;
  rec_price : Q
}.

(** A single-symbol strategy answers ['buy'] or ['sell']; the multi-coin
    strategy answers an object with a [buy] and a [sell] array.  [null] is
    [None] at the use sites. *)
Inductive Signal :=
| SigAction (a : Action)
| SigMulti (buys sells : list Recommendation).

(** ** Strategies *)

(** [BaseStrategy.validateData]. *)
Definition validateData (marketData : option MarketData) : Result unit :=
  match marketData with
  | None => Throw InvalidMarketData
  | Some md =>
      if negb (JS.truthy (md_price md)) || negb (bool_decide (is_Some (md_klines md)))
      then Throw InvalidMarketData
      else Ok tt
  end.

(** Field reads on a snapshot that passed [validateData]. *)
Definition price_of (marketData : option MarketData) : Q :=
  match marketData with
  | Some md => default 0 (md_price md)
  | None => 0
  end.

Definition klines_of (marketData : option MarketData) : list Kline :=
  match marketData with
  | Some md => default [] (md_klines md)
  | None => []
  end.

Definition js_length {A : Type} (l : list A) : Z := Z.of_nat (length l).

(** [Array.prototype.slice(start)] for an integer [start]: a negative start
    counts from the end, and the bounds are clamped. *)
Definition slice_from {A : Type} (start : Z) (l : list A) : list A :=
  let len := js_length l in
  let k := if (start <? 0)%Z then Z.max (len + start) 0 else Z.min start len in
  drop (Z.to_nat k) l.

(** [Array.prototype.slice(0, stop)] for an integer [stop]. *)
Definition slice_to {A : Type} (stop : Z) (l : list A) : list A :=
  let len := js_length l in
  let k := if (stop <? 0)%Z then Z.max (len + stop) 0 else Z.min stop len in
  take (Z.to_nat k) l.

(** [reduce((sum, price) => sum + price, 0)]. *)
Definition sum_prices (prices : list Q) : Q := fold_left Qplus prices 0.

(** [MACrossStrategy.calculateMA]. *)
Definition calculateMA (prices : list Q) (period : Z) : JS.xnum :=
  let slice := slice_from (- period) prices in
  JS.div (sum_prices slice) (inject_Z period).

(** The loop of [RSIStrategy.calculateRSI], entered with [prices[i-1]]. *)
Fixpoint rsi_loop (previous : Q) (rest : list Q) (gains losses : Q) : Q * Q :=
  match rest with
  | [] => (gains, losses)
  | p :: rest' =>
      let difference := p - previous in
      if Qle_bool 0 difference
      then rsi_loop p rest' (gains + difference) losses
      else rsi_loop p rest' gains (losses - difference)
  end.

Definition rsi_sums (prices : list Q) : Q * Q :=
  match prices with
  | [] => (0, 0)
  | p0 :: rest => rsi_loop p0 rest 0 0
  end.

(** [RSIStrategy.calculateRSI]: the loop runs over the whole array it is
    given. *)
Definition calculateRSI (prices : list Q) : Q :=
  let '(gains, losses) := rsi_sums prices in
  if Qeq_bool losses 0 then 100
  else
    let relativeStrength := gains / losses in
    100 - 100 / (1 + relativeStrength).

(** The fields of the six strategy classes.  [grid_size] is computed once, by
    the constructor; the multi-coin instance carries its working state. *)
Inductive Strategy :=
| MACrossStrategy (fastPeriod slowPeriod signalPeriod : Z)
| RSIStrategy (period : Z) (overbought oversold : Q)
| GridStrategy (upperPrice lowerPrice gridLines : Q) (gridSize : JS.xnum)
| MLTrendStrategy (windowSize predictionHorizon : Z) (confidenceThreshold : Q) (features : list string)
| DeepLearningStrategy (epochs batchSize : Z) (layers : list Z) (learningRate : Q)
| MultiCoinStrategy (confidenceThreshold : Q) (maxPositions updateInterval lastUpdate : Z)
                    (activeSymbols : gset string).

(** [new GridStrategy(parameters)]. *)
Definition newGridStrategy (upperPrice lowerPrice gridLines : Q) : Strategy :=
  GridStrategy upperPrice lowerPrice gridLines (JS.div (upperPrice - lowerPrice) gridLines).

(** [x || dflt] on numbers. *)
Definition or_default (x dflt : Q) : Q := if Qeq_bool x 0 then dflt else x.
Definition or_defaultZ (x dflt : Z) : Z := if (x =? 0)%Z then dflt else x.

(** [new MultiCoinStrategy(parameters)]. *)
Definition newMultiCoinStrategy (confidenceThreshold : Q) (maxPositions updateInterval : Z) : Strategy :=
  MultiCoinStrategy (or_default confidenceThreshold (3 # 10))
                    (or_defaultZ maxPositions 5)
                    (or_defaultZ updateInterval (15 * 60 * 1000))
                    0 ∅.

(** What the environment supplies to one call of [analyze]: the clock, the
    values drawn by [Math.random()], and the reply of
    [getMarketRecommendations] ([None] when the call fails or the reply has
    no content), already cut into one entry per coin. *)
Record AnalyzeEnv := {
  ae_now : Z;
  ae_random1 : Q;
  ae_random2 : Q;
  ae_analysis : option (list Recommendation)
}.

(** [MultiCoinStrategy.parseRecommendations]: an entry is pushed only when
    its symbol, action, confidence and price are all truthy (a normalised
    action is never empty). *)
Definition parseRecommendations (content : list Recommendation) : list Recommendation :=
  filter (fun r => rec_symbol r ≠ EmptyString
                   ∧ Qeq_bool (rec_confidence r) 0 = false
                   ∧ Qeq_bool (rec_price r) 0 = false) content.

(** Insertion into a list sorted by decreasing confidence, before the
    entries of equal confidence. *)
Fixpoint insert_by_confidence (r : Recommendation) (l : list Recommendation) : list Recommendation :=
  match l with
  | [] => [r]
  | x :: l' =>
      if Qle_bool (rec_confidence x) (rec_confidence r)
      then r :: x :: l'
      else x :: insert_by_confidence r l'
  end.

(** [recommendations.sort((a, b) => b.confidence - a.confidence)]: the sort
    is stable, entries of equal confidence keep their order. *)
Definition sort_by_confidence (l : list Recommendation) : list Recommendation :=
  fold_right insert_by_confidence [] l.

Definition is_buy_action (a : RecAction) : bool :=
  match a with strong_buy | rec_buy => true | _ => false end.

Definition is_sell_action (a : RecAction) : bool :=
  match a with rec_sell | strong_sell => true | _ => false end.

(** [strategy.analyze(marketData)]: the answer ([None] for [null]) or the
    exception, and the strategy instance after the call. *)
Definition analyze (env : AnalyzeEnv) (strategy : Strategy) (marketData : option MarketData)
  : Result (option Signal) * Strategy :=
  match strategy with
  | MACrossStrategy fastPeriod slowPeriod _ =>
      match validateData marketData with
      | Throw e => (Throw e, strategy)
      | Ok _ =>
          let klines := klines_of marketData in
          if (js_length klines <? slowPeriod)%Z then (Ok None, strategy)
          else
            let prices := map k_close klines in
            let fastMA := calculateMA prices fastPeriod in
            let slowMA := calculateMA prices slowPeriod in
            if JS.gt fastMA slowMA then (Ok (Some (SigAction buy)), strategy)
            else if JS.lt fastMA slowMA then (Ok (Some (SigAction sell)), strategy)
            else (Ok None, strategy)
      end
  | RSIStrategy period overbought oversold =>
      match validateData marketData with
      | Throw e => (Throw e, strategy)
      | Ok _ =>
          let klines := klines_of marketData in
          if (js_length klines <? period + 1)%Z then (Ok None, strategy)
          else
            let prices := map k_close klines in
            let rsi := calculateRSI prices in
            if Qle_bool rsi oversold then (Ok (Some (SigAction buy)), strategy)
            else if Qle_bool overbought rsi then (Ok (Some (SigAction sell)), strategy)
            else (Ok None, strategy)
      end
  | GridStrategy _ lowerPrice _ gridSize =>
      match validateData marketData with
      | Throw e => (Throw e, strategy)
      | Ok _ =>
          let currentPrice := price_of marketData in
          let gridPosition := JS.floor (JS.divx (currentPrice - lowerPrice) gridSize) in
          if JS.mod2_is_zero gridPosition then (Ok (Some (SigAction buy)), strategy)
          else (Ok (Some (SigAction sell)), strategy)
      end
  | MLTrendStrategy _ _ confidenceThreshold _ =>
      match validateData marketData with
      | Throw e => (Throw e, strategy)
      | Ok _ =>
          let prediction := ae_random1 env in
          let confidence := ae_random2 env in
          if JS.Qltb confidenceThreshold confidence then
            (Ok (Some (SigAction (if JS.Qltb (1 # 2) prediction then buy else sell))), strategy)
          else (Ok None, strategy)
      end
  | DeepLearningStrategy _ _ _ _ =>
      match validateData marketData with
      | Throw e => (Throw e, strategy)
      | Ok _ =>
          let prediction := ae_random1 env in
          (Ok (Some (SigAction (if JS.Qltb (1 # 2) prediction then buy else sell))), strategy)
      end
  | MultiCoinStrategy confidenceThreshold maxPositions updateInterval lastUpdate activeSymbols =>
      (* the whole body is inside try/catch: a failure answers null *)
      if (ae_now env - lastUpdate <? updateInterval)%Z then (Ok None, strategy)
      else
        match ae_analysis env with
        | None => (Ok None, strategy)
        | Some content =>
            let recommendations := parseRecommendations content in
            let sortedRecommendations := sort_by_confidence recommendations in
            let highConfidenceBuys :=
              filter (fun r => Qle_bool confidenceThreshold (rec_confidence r) = true
                               ∧ is_buy_action (rec_action r) = true
                               ∧ rec_symbol r ∉ activeSymbols) sortedRecommendations in
            let shouldSell :=
              filter (fun r => rec_symbol r ∈ activeSymbols
                               ∧ (is_sell_action (rec_action r) = true
                                  ∨ JS.Qltb (rec_confidence r) confidenceThreshold = true))
                     sortedRecommendations in
            (Ok (Some (SigMulti
                         (slice_to (maxPositions - Z.of_nat (size activeSymbols)) highConfidenceBuys)
                         shouldSell)),
             MultiCoinStrategy confidenceThreshold maxPositions updateInterval (ae_now env) activeSymbols)
        end
  end.

(** [MultiCoinStrategy.updateActiveSymbols]; the executor calls it only on
    the instance whose answer had a [buy] and a [sell] array, which is a
    multi-coin instance. *)
Definition updateActiveSymbols (symbol : string) (isActive : bool) (strategy : Strategy) : Strategy :=
  match strategy with
  | MultiCoinStrategy c m u l activeSymbols =>
      MultiCoinStrategy c m u l
        (if isActive then {[symbol]} ∪ activeSymbols else activeSymbols ∖ {[symbol]})
  | other => other
  end.

(** [strategy.maxPositions], read by the executor ([undefined] on the other
    classes, against which every comparison is false). *)
Definition strategy_maxPositions (strategy : Strategy) : option Z :=
  match strategy with
  | MultiCoinStrategy _ m _ _ _ => Some m
  | _ => None
  end.

(** The strategy rules as the specification words them. *)
Module StrategySpec.

(** The last [n] closes. *)
Definition last_closes (n : nat) (closes : list Q) : list Q :=
  drop (length closes - n) closes.

Fixpoint total (l : list Q) : Q :=
  match l with
  | [] => 0
  | x :: l' => x + total l'
  end.

(** Simple moving average of the last [n] closes. *)
Definition sma (n : nat) (closes : list Q) : Q :=
  total (last_closes n closes) / inject_Z (Z.of_nat n).

(** Sum of the rises and sum of the falls over consecutive pairs. *)
Fixpoint gains (closes : list Q) : Q :=
  match closes with
  | a :: (b :: _) as rest => Qmax 0 (b - a) + gains rest
  | _ => 0
  end.

Fixpoint losses (closes : list Q) : Q :=
  match closes with
  | a :: (b :: _) as rest => Qmax 0 (a - b) + losses rest
  | _ => 0
  end.

(** RSI = 100 - 100 / (1 + RS), RS = gains / losses, and 100 when there is
    no loss. *)
Definition rsi (closes : list Q) : Q :=
  if Qeq_bool (losses closes) 0 then 100
  else 100 - 100 / (1 + gains closes / losses closes).

(** "classic Wilder-style RSI over period+1 closes". *)
Definition rsi_over_period (period : nat) (closes : list Q) : Q :=
  rsi (last_closes (period + 1) closes).

Definition rsi_signal (period : nat) (overbought oversold : Q) (closes : list Q) : option Action :=
  let r := rsi_over_period period closes in
  if Qle_bool r oversold then Some buy
  else if Qle_bool overbought r then Some sell
  else None.

Fixpoint strictly_increasing (l : list Q) : Prop :=
  match l with
  | a :: (b :: _) as rest => a < b /\ strictly_increasing rest
  | _ => True
  end.

End StrategySpec.

(** ** The balance ledger ([useTradingMode]) *)

Inductive TradingMode := demo | live.

#[global] Instance TradingMode_eq_dec : EqDecision TradingMode.
Proof. solve_decision. Defined.

(** The part of the store the engine reads and writes: the mode and one
    currency-to-balance object per mode. *)
Record TradingModeStore := {
  tm_mode : TradingMode;
  tm_balance_demo : gmap string Q;
  tm_balance_live : gmap string Q
}.

Definition DEFAULT_DEMO_BALANCE : Q := 100000.

Definition initialTradingMode : TradingModeStore := {|
  tm_mode := demo;
  tm_balance_demo := {[ "USDT"%string := DEFAULT_DEMO_BALANCE ]};
  tm_balance_live := <[ "USDT"%string := 0 ]> (<[ "BTC"%string := 0 ]> {[ "ETH"%string := 0 ]})
|}.

(** [state.balance[mode]]. *)
Definition balance_of (mode : TradingMode) (st : TradingModeStore) : gmap string Q :=
  match mode with
  | demo => tm_balance_demo st
  | live => tm_balance_live st
  end.

Definition set_balance_of (mode : TradingMode) (b : gmap string Q) (st : TradingModeStore)
  : TradingModeStore :=
  match mode with
  | demo => {| tm_mode := tm_mode st; tm_balance_demo := b; tm_balance_live := tm_balance_live st |}
  | live => {| tm_mode := tm_mode st; tm_balance_demo := tm_balance_demo st; tm_balance_live := b |}
  end.

(** [updateBalance(currency, amount)]. *)
Definition updateBalance (currency : string) (amount : Q) (st : TradingModeStore) : TradingModeStore :=
  let mode := tm_mode st in
  let old := default 0 (balance_of mode st !! currency) in
  set_balance_of mode (<[ currency := Qmax 0 (old + amount) ]> (balance_of mode st)) st.

(** [getBalance(currency)]. *)
Definition getBalance (currency : string) (st : TradingModeStore) : Q :=
  default 0 (balance_of (tm_mode st) st !! currency).

(** [setMode(mode)]: a switch to live needs an active account and the
    user's confirmation ([allowed]); the two balance objects are kept. *)
Definition setMode (mode : TradingMode) (allowed : bool) (st : TradingModeStore) : TradingModeStore :=
  match mode with
  | live =>
      if allowed
      then {| tm_mode := live; tm_balance_demo := tm_balance_demo st; tm_balance_live := tm_balance_live st |}
      else st
  | demo => {| tm_mode := demo; tm_balance_demo := tm_balance_demo st; tm_balance_live := tm_balance_live st |}
  end.

(** A caller of the ledger. *)
Inductive LedgerCall :=
| CallUpdateBalance (currency : string) (amount : Q)
| CallSetMode (mode : TradingMode) (allowed : bool).

Definition ledger_call (c : LedgerCall) (st : TradingModeStore) : TradingModeStore :=
  match c with
  | CallUpdateBalance currency amount => updateBalance currency amount st
  | CallSetMode mode allowed => setMode mode allowed st
  end.

(** ** Bots ([useTradingBotStore]) *)

Inductive BotStrategy := ma_cross | rsi | grid | ml_trend | deep_learning | multi_coin.

#[global] Instance BotStrategy_eq_dec : EqDecision BotStrategy.
Proof. solve_decision. Defined.

Inductive BotStatus := running | stopped | error | training.

#[global] Instance BotStatus_eq_dec : EqDecision BotStatus.
Proof. solve_decision. Defined.

Inductive RiskLevel := risk_low | risk_medium | risk_high.

(** [config.parameters], one shape per strategy. *)
Inductive Parameters :=
| MACrossParameters (fastPeriod slowPeriod signalPeriod : Z)
| RSIParameters (period : Z) (overbought oversold : Q)
| GridParameters (upperPrice lowerPrice gridLines : Q)
| MLTrendParameters (windowSize predictionHorizon : Z) (confidenceThreshold : Q) (features : list string)
| DeepLearningParameters (epochs batchSize : Z) (layers : list Z) (learningRate : Q)
| MultiCoinParameters (confidenceThreshold : Q) (maxPositions updateInterval : Z).

Record BotConfig := {
  cfg_symbol : string;
  cfg_interval : string;
  cfg_riskLevel : RiskLevel;
  cfg_maxPositionSize : Q;
  cfg_stopLoss : Q;
  cfg_takeProfit : Q;
  cfg_parameters : Parameters
}.

Record Trade := {
  trade_time : Z;
  trade_type : Action;
  trade_price : Q;
  trade_amount : Q;
  trade_pnl : Q;
  trade_strategy : BotStrategy
}.

Record Performance := {
  perf_startTime : option Z;
  perf_totalTrades : nat;
  perf_winRate : Q;
  perf_profitLoss : Q;
  perf_lastUpdate : Z;
  perf_trades : list Trade
}.

(** A bot object.  [bot_cleanup] is the closure returned by
    [startStrategyExecutor], named by the index of its executor. *)
Record TradingBot := {
  bot_id : string;
  bot_name : string;
  bot_strategy : BotStrategy;
  bot_status : BotStatus;
  bot_config : BotConfig;
  bot_performance : Performance;
  bot_cleanup : option nat
}.

(** The argument of [updateBotPerformance]: a [Partial] of the
    performance. *)
Record PerformanceUpdate := {
  up_totalTrades : option nat;
  up_profitLoss : option Q;
  up_winRate : option Q;
  up_trades : option (list Trade)
}.

(** [{...bot.performance, ...performance, lastUpdate: Date.now()}]. *)
Definition merge_performance (old : Performance) (u : PerformanceUpdate) (now : Z) : Performance := {|
  perf_startTime := perf_startTime old;
  perf_totalTrades := default (perf_totalTrades old) (up_totalTrades u);
  perf_winRate := default (perf_winRate old) (up_winRate u);
  perf_profitLoss := default (perf_profitLoss old) (up_profitLoss u);
  perf_lastUpdate := now;
  perf_trades := default (perf_trades old) (up_trades u)
|}.

Definition with_status (s : BotStatus) (b : TradingBot) : TradingBot := {|
  bot_id := bot_id b; bot_name := bot_name b; bot_strategy := bot_strategy b;
  bot_status := s; bot_config := bot_config b; bot_performance := bot_performance b;
  bot_cleanup := bot_cleanup b
|}.

Definition with_performance (p : Performance) (b : TradingBot) : TradingBot := {|
  bot_id := bot_id b; bot_name := bot_name b; bot_strategy := bot_strategy b;
  bot_status := bot_status b; bot_config := bot_config b; bot_performance := p;
  bot_cleanup := bot_cleanup b
|}.

(** The assignment [bot.cleanup = cleanup]. *)
Definition with_cleanup (c : option nat) (b : TradingBot) : TradingBot := {|
  bot_id := bot_id b; bot_name := bot_name b; bot_strategy := bot_strategy b;
  bot_status := bot_status b; bot_config := bot_config b; bot_performance := bot_performance b;
  bot_cleanup := c
|}.

(** [createStrategy(strategyType, parameters)], for parameters of the shape
    the strategy reads; with another shape the constructor reads undefined
    fields, which is outside the model ([None]). *)
Definition createStrategy (strategyType : BotStrategy) (parameters : Parameters) : option Strategy :=
  match strategyType, parameters with
  | ma_cross, MACrossParameters f s g => Some (MACrossStrategy f s g)
  | rsi, RSIParameters p ob os => Some (RSIStrategy p ob os)
  | grid, GridParameters u l n => Some (newGridStrategy u l n)
  | ml_trend, MLTrendParameters w h c fs => Some (MLTrendStrategy w h c fs)
  | deep_learning, DeepLearningParameters e b ls r => Some (DeepLearningStrategy e b ls r)
  | multi_coin, MultiCoinParameters c m u => Some (newMultiCoinStrategy c m u)
  | _, _ => None
  end.

(** ** The engine state *)

(** The state object of [useWebSocketStore]: what the engine reads of it. *)
Record WsState := {
  ws_isConnected : bool;
  ws_price : option Q;
  ws_klines : option (list Kline);
  ws_volume : option Q
}.

Record Position := {
  pos_entryPrice : Q;
  pos_amount : Q;
  pos_timestamp : Z
}.

(** The closure created by one call of [startStrategyExecutor]: the objects
    it captured and its local variables.  [ex_bot] is the address of the
    [bot] argument; [ex_ws] and [ex_mode] are the state objects that
    [useWebSocketStore.getState()] and [useTradingMode.getState()] returned
    at that call (a later [set] builds a new state object and leaves these
    untouched); [ex_positions] is the [Map], in insertion order;
    [ex_interval] tells whether the interval timer is still armed. *)
Record Executor := {
  ex_bot : nat;
  ex_strategy : Strategy;
  ex_ws : WsState;
  ex_mode : TradingMode;
  ex_positions : list (string * Position);
  ex_lastTradeTime : Z;
  ex_lastError : Z;
  ex_consecutiveErrors : nat;
  ex_interval : bool
}.

Inductive ErrorSeverity := low | medium | high | critical.

#[global] Instance ErrorSeverity_eq_dec : EqDecision ErrorSeverity.
Proof. solve_decision. Defined.

(** The messages the engine passes to [errorHandler.handleError]. *)
Inductive Message :=
| MsgBotNotFound
| MsgConnecting
| MsgFetchingMarketData
| MsgWaitingForMarketData (attempt : nat)
| MsgRiskAssessment
| MsgInitStrategy
| MsgStartingExecutor
| MsgBotStarted
| MsgStartFailed
| MsgBotStopped
| MsgStopFailed
| MsgStoppedAfterErrors
| MsgStrategyExecutionError.

Record ErrorLog := {
  log_message : Message;
  log_severity : ErrorSeverity
}.

(** Bot objects live in [heap], at the address that is their index; an
    object literal [{...b, ...}] is a new address.  [bots] is the array of
    the bot store, by address.  [reports] lists the calls of [handleError],
    the latest first (the error store shows its first 100 entries). *)
Record System := {
  heap : list TradingBot;
  bots : list nat;
  activeBot : option string;
  tradingMode : TradingModeStore;
  webSocket : WsState;
  executors : list Executor;
  reports : list ErrorLog
}.

Definition initialWebSocket : WsState := {|
  ws_isConnected := false;
  ws_price := Some 0;
  ws_klines := Some [];
  ws_volume := Some 0
|}.

Definition initialSystem : System := {|
  heap := [];
  bots := [];
  activeBot := None;
  tradingMode := initialTradingMode;
  webSocket := initialWebSocket;
  executors := [];
  reports := []
|}.

Definition set_store (h : list TradingBot) (bs : list nat) (st : System) : System := {|
  heap := h; bots := bs; activeBot := activeBot st; tradingMode := tradingMode st;
  webSocket := webSocket st; executors := executors st; reports := reports st
|}.

Definition set_tradingMode (tm : TradingModeStore) (st : System) : System := {|
  heap := heap st; bots := bots st; activeBot := activeBot st; tradingMode := tm;
  webSocket := webSocket st; executors := executors st; reports := reports st
|}.

Definition set_webSocket (w : WsState) (st : System) : System := {|
  heap := heap st; bots := bots st; activeBot := activeBot st; tradingMode := tradingMode st;
  webSocket := w; executors := executors st; reports := reports st
|}.

Definition set_executors (exs : list Executor) (st : System) : System := {|
  heap := heap st; bots := bots st; activeBot := activeBot st; tradingMode := tradingMode st;
  webSocket := webSocket st; executors := exs; reports := reports st
|}.

(** Write the local variables of closure [e] back. *)
Definition set_executor (e : nat) (ex : Executor) (st : System) : System :=
  set_executors (<[ e := ex ]> (executors st)) st.

(** [errorHandler.handleError(message, severity)]. *)
Definition handleError (message : Message) (severity : ErrorSeverity) (st : System) : System := {|
  heap := heap st; bots := bots st; activeBot := activeBot st; tradingMode := tradingMode st;
  webSocket := webSocket st; executors := executors st;
  reports := {| log_message := message; log_severity := severity |} :: reports st
|}.

(** [tradingMode.updateBalance] and [tradingMode.getBalance]: the functions
    of the captured state object read the current state through [get()]. *)
Definition sys_updateBalance (currency : string) (amount : Q) (st : System) : System :=
  set_tradingMode (updateBalance currency amount (tradingMode st)) st.

Definition sys_getBalance (currency : string) (st : System) : Q :=
  getBalance currency (tradingMode st).

(** [state.bots.map(b => b.id === id ? {...} : b)]: [f] builds the new
    object of a matching bot, which gets a fresh address; the others keep
    theirs. *)
Fixpoint map_bots (id : string) (f : TradingBot -> TradingBot)
    (h : list TradingBot) (bs : list nat) : list TradingBot * list nat :=
  match bs with
  | [] => (h, [])
  | a :: bs' =>
      match h !! a with
      | Some b =>
          if decide (bot_id b = id) then
            let '(h', r) := map_bots id f (h ++ [f b]) bs' in (h', length h :: r)
          else
            let '(h', r) := map_bots id f h bs' in (h', a :: r)
      | None =>
          let '(h', r) := map_bots id f h bs' in (h', a :: r)
      end
  end.

(** [set((state) => ({ bots: state.bots.map(...) }))]. *)
Definition set_bots (id : string) (f : TradingBot -> TradingBot) (st : System) : System :=
  let '(h, bs) := map_bots id f (heap st) (bots st) in set_store h bs st.

(** [getBotById(id)]: the address of the first bot of the array with this
    id. *)
Definition getBotById (id : string) (st : System) : option nat :=
  List.find (fun a => match heap st !! a with
                      | Some b => bool_decide (bot_id b = id)
                      | None => false
                      end) (bots st).

(** [updateBotPerformance(id, performance)]. *)
Definition updateBotPerformance (id : string) (u : PerformanceUpdate) (now : Z) (st : System) : System :=
  set_bots id (fun b => with_performance (merge_performance (bot_performance b) u now) b) st.

(** What [createBot] receives. *)
Record BotData := {
  data_name : string;
  data_strategy : BotStrategy;
  data_config : BotConfig
}.

(** [createBot(botData)]; the id is [Date.now().toString()]. *)
Definition createBot (id : string) (now : Z) (botData : BotData) (st : System) : System :=
  let newBot := {|
    bot_id := id;
    bot_name := data_name botData;
    bot_strategy := data_strategy botData;
    bot_status := stopped;
    bot_config := data_config botData;
    bot_performance := {|
      perf_startTime := None; perf_totalTrades := 0; perf_winRate := 0;
      perf_profitLoss := 0; perf_lastUpdate := now; perf_trades := []
    |};
    bot_cleanup := None
  |} in
  {| heap := heap st ++ [newBot];
     bots := bots st ++ [length (heap st)];
     activeBot := match activeBot st with Some a => Some a | None => Some id end;
     tradingMode := tradingMode st; webSocket := webSocket st;
     executors := executors st; reports := reports st |}.

(** ** The [Map] of open positions *)

Definition map_get (k : string) (m : list (string * Position)) : option Position :=
  snd <$> List.find (fun p => bool_decide (fst p = k)) m.

Fixpoint map_set (k : string) (v : Position) (m : list (string * Position))
  : list (string * Position) :=
  match m with
  | [] => [(k, v)]
  | (k', v') :: m' =>
      if decide (k' = k) then (k, v) :: m' else (k', v') :: map_set k v m'
  end.

Definition map_delete (k : string) (m : list (string * Position)) : list (string * Position) :=
  filter (fun p => fst p ≠ k) m.

Definition map_size (m : list (string * Position)) : Z := js_length m.

Definition map_keys (m : list (string * Position)) : list string := map fst m.

(** [symbol.split('/')[0]]. *)
Fixpoint base_currency (symbol : string) : string :=
  match symbol with
  | EmptyString => EmptyString
  | String c rest =>
      if Ascii.eqb c "/"%char then EmptyString else String c (base_currency rest)
  end.

Definition with_positions (m : list (string * Position)) (ex : Executor) : Executor := {|
  ex_bot := ex_bot ex; ex_strategy := ex_strategy ex; ex_ws := ex_ws ex; ex_mode := ex_mode ex;
  ex_positions := m; ex_lastTradeTime := ex_lastTradeTime ex; ex_lastError := ex_lastError ex;
  ex_consecutiveErrors := ex_consecutiveErrors ex; ex_interval := ex_interval ex
|}.

Definition with_strategy (s : Strategy) (ex : Executor) : Executor := {|
  ex_bot := ex_bot ex; ex_strategy := s; ex_ws := ex_ws ex; ex_mode := ex_mode ex;
  ex_positions := ex_positions ex; ex_lastTradeTime := ex_lastTradeTime ex;
  ex_lastError := ex_lastError ex; ex_consecutiveErrors := ex_consecutiveErrors ex;
  ex_interval := ex_interval ex
|}.

Definition with_lastTradeTime (t : Z) (ex : Executor) : Executor := {|
  ex_bot := ex_bot ex; ex_strategy := ex_strategy ex; ex_ws := ex_ws ex; ex_mode := ex_mode ex;
  ex_positions := ex_positions ex; ex_lastTradeTime := t; ex_lastError := ex_lastError ex;
  ex_consecutiveErrors := ex_consecutiveErrors ex; ex_interval := ex_interval ex
|}.

Definition with_errors (n : nat) (t : Z) (ex : Executor) : Executor := {|
  ex_bot := ex_bot ex; ex_strategy := ex_strategy ex; ex_ws := ex_ws ex; ex_mode := ex_mode ex;
  ex_positions := ex_positions ex; ex_lastTradeTime := ex_lastTradeTime ex; ex_lastError := t;
  ex_consecutiveErrors := n; ex_interval := ex_interval ex
|}.

(** [clearInterval(interval)]. *)
Definition clearInterval (ex : Executor) : Executor := {|
  ex_bot := ex_bot ex; ex_strategy := ex_strategy ex; ex_ws := ex_ws ex; ex_mode := ex_mode ex;
  ex_positions := ex_positions ex; ex_lastTradeTime := ex_lastTradeTime ex;
  ex_lastError := ex_lastError ex; ex_consecutiveErrors := ex_consecutiveErrors ex;
  ex_interval := false
|}.

(** ** The strategy executor ([startStrategyExecutor]) *)

(** What the environment supplies to one tick: the clock (one reading per
    tick), the four values [Math.random()] may be asked for, and the reply
    of the recommendation service. *)
Record TickEnv := {
  te_now : Z;
  te_random1 : Q;
  te_random2 : Q;
  te_random3 : Q;
  te_random4 : Q;
  te_analysis : option (list Recommendation)
}.

Definition first_call (env : TickEnv) : AnalyzeEnv := {|
  ae_now := te_now env; ae_random1 := te_random1 env; ae_random2 := te_random2 env;
  ae_analysis := te_analysis env
|}.

Definition second_call (env : TickEnv) : AnalyzeEnv := {|
  ae_now := te_now env; ae_random1 := te_random3 env; ae_random2 := te_random4 env;
  ae_analysis := te_analysis env
|}.

(** A number that is truthy, or nothing. *)
Definition truthy_price (p : option Q) : option Q :=
  match p with
  | Some q => if Qeq_bool q 0 then None else Some q
  | None => None
  end.

(** The [marketData] object a tick builds. *)
Definition snapshot_of (ws : WsState) (now : Z) : MarketData := {|
  md_price := ws_price ws;
  md_klines := Some (default [] (ws_klines ws));
  md_volume := ws_volume ws;
  md_timestamp := now
|}.

(** The argument of [updateBotPerformance] at a sale.  [bot] is the object
    the closure captured: its [performance] is the one it had when the
    executor started. *)
Definition sell_update (bot : TradingBot) (now : Z) (price amount pnl : Q) : PerformanceUpdate :=
  let p := bot_performance bot in {|
    up_totalTrades := Some (perf_totalTrades p + 1)%nat;
    up_profitLoss := Some (perf_profitLoss p + pnl);
    up_winRate := Some (calculateWinRate (perf_winRate p) (perf_totalTrades p) (JS.Qltb 0 pnl));
    up_trades := Some (take 100 ({| trade_time := now; trade_type := sell; trade_price := price;
                                    trade_amount := amount; trade_pnl := pnl;
                                    trade_strategy := bot_strategy bot |} :: perf_trades p))
  |}.

(** The argument of [updateBotPerformance] at a purchase. *)
Definition buy_update (bot : TradingBot) (now : Z) (price amount : Q) : PerformanceUpdate :=
  let p := bot_performance bot in {|
    up_totalTrades := Some (perf_totalTrades p + 1)%nat;
    up_profitLoss := None;
    up_winRate := None;
    up_trades := Some (take 100 ({| trade_time := now; trade_type := buy; trade_price := price;
                                    trade_amount := amount; trade_pnl := 0;
                                    trade_strategy := bot_strategy bot |} :: perf_trades p))
  |}.

(** [if (tradingMode.mode === 'live') { updateBalance('USDT', proceeds);
    updateBalance(base, -amount) }], the block of the four selling sites.
    [mode] is read from the captured state object. *)
Definition credit_sale (mode : TradingMode) (symbol : string) (price amount : Q) (st : System) : System :=
  if decide (mode = live) then
    let proceeds := price * amount in
    sys_updateBalance (base_currency symbol) (- amount) (sys_updateBalance "USDT" proceeds st)
  else st.

(** Close [position] of [symbol] at [price]: credit, performance update,
    [positions.delete(symbol)]. *)
Definition close_position (bot : TradingBot) (now : Z) (symbol : string) (price : Q)
    (position : Position) (acc : Executor * System) : Executor * System :=
  let '(ex, st) := acc in
  let pnl := (price - pos_entryPrice position) * pos_amount position in
  let st1 := credit_sale (ex_mode ex) symbol price (pos_amount position) st in
  let st2 := updateBotPerformance (bot_id bot)
               (sell_update bot now price (pos_amount position) pnl) now st1 in
  (with_positions (map_delete symbol (ex_positions ex)) ex, st2).

(** One iteration of the loop over [signal.sell]. *)
Definition multi_sell (bot : TradingBot) (now : Z) (acc : Executor * System)
    (sellRec : Recommendation) : Executor * System :=
  match map_get (rec_symbol sellRec) (ex_positions (fst acc)) with
  | Some position =>
      let '(ex, st) := close_position bot now (rec_symbol sellRec) (rec_price sellRec) position acc in
      (with_strategy (updateActiveSymbols (rec_symbol sellRec) false (ex_strategy ex)) ex, st)
  | None => acc
  end.

(** The purchase block shared by the two buying sites: size the trade from
    the current USDT balance; when the size is at least 1, the mode is live
    and the cost is covered, debit, record the trade and set the position
    ([activate] adds the [updateActiveSymbols] call of the multi-coin
    site). *)
Definition try_buy (bot : TradingBot) (now : Z) (symbol : string) (price : Q) (activate : bool)
    (acc : Executor * System) : Executor * System :=
  let '(ex, st) := acc in
  let availableBalance := sys_getBalance "USDT" st in
  let tradeAmount := calculateTradeAmount (cfg_maxPositionSize (bot_config bot)) price availableBalance in
  if Qle_bool 1 tradeAmount then
    let position := {| pos_entryPrice := price; pos_amount := tradeAmount; pos_timestamp := now |} in
    if decide (ex_mode ex = live) then
      let cost := price * tradeAmount in
      if Qle_bool cost availableBalance then
        let st1 := sys_updateBalance (base_currency symbol) tradeAmount
                     (sys_updateBalance "USDT" (- cost) st) in
        let st2 := updateBotPerformance (bot_id bot) (buy_update bot now price tradeAmount) now st1 in
        let ex1 := with_positions (map_set symbol position (ex_positions ex)) ex in
        (if activate then with_strategy (updateActiveSymbols symbol true (ex_strategy ex1)) ex1 else ex1,
         st2)
      else acc
    else acc
  else acc.

(** [positions.size >= strategy.maxPositions]. *)
Definition positions_full (ex : Executor) : bool :=
  match strategy_maxPositions (ex_strategy ex) with
  | Some m => (m <=? map_size (ex_positions ex))%Z
  | None => false
  end.

(** The loop over [signal.buy], with its [break]. *)
Fixpoint multi_buys (bot : TradingBot) (now : Z) (buys : list Recommendation)
    (acc : Executor * System) : Executor * System :=
  match buys with
  | [] => acc
  | buyRec :: rest =>
      if positions_full (fst acc) then acc
      else multi_buys bot now rest (try_buy bot now (rec_symbol buyRec) (rec_price buyRec) true acc)
  end.

(** How the [try] block of a tick ends: by a [return], by reaching its end,
    or by an exception. *)
Inductive TickOutcome :=
| Returned
| Completed
| Threw (e : Exn).

(** The stop-loss / take-profit test on the percentage
    [(currentPnl / (entryPrice * amount)) * 100]. *)
Definition must_close (bot : TradingBot) (currentPrice : Q) (position : Position) : bool :=
  let currentPnl := (currentPrice - pos_entryPrice position) * pos_amount position in
  let pnlPercentage :=
    JS.scale (JS.div currentPnl (pos_entryPrice position * pos_amount position)) 100 in
  JS.le pnlPercentage (JS.Fin (- cfg_stopLoss (bot_config bot)))
  || JS.ge pnlPercentage (JS.Fin (cfg_takeProfit (bot_config bot))).

(** The single-symbol branch, first part: act on the answer of the
    strategy when the last trade is more than a minute old. *)
Definition handle_signal (bot : TradingBot) (now : Z) (currentPrice : Q)
    (signal : option Signal) (acc : Executor * System) : Result (Executor * System) :=
  let symbol := cfg_symbol (bot_config bot) in
  match signal with
  | Some sig =>
      if (60000 <? now - ex_lastTradeTime (fst acc))%Z then
        match sig with
        | SigAction buy =>
            if (map_size (ex_positions (fst acc)) =? 0)%Z
            then Ok (try_buy bot now symbol currentPrice false acc)
            else Ok acc
        | SigAction sell =>
            if (map_size (ex_positions (fst acc)) =? 0)%Z then Ok acc
            else
              match map_get symbol (ex_positions (fst acc)) with
              | Some position => Ok (close_position bot now symbol currentPrice position acc)
              | None => Throw TypeError
              end
        | SigMulti _ _ => Ok acc
        end
      else Ok acc
  | None => Ok acc
  end.

(** The single-symbol branch, second part: the stop-loss / take-profit
    check on the open position. *)
Definition check_stops (bot : TradingBot) (now : Z) (currentPrice : Q)
    (acc : Executor * System) : TickOutcome * Executor * System :=
  let symbol := cfg_symbol (bot_config bot) in
  if (map_size (ex_positions (fst acc)) =? 0)%Z then (Completed, fst acc, snd acc)
  else
    match map_get symbol (ex_positions (fst acc)) with
    | None => (Threw TypeError, fst acc, snd acc)
    | Some position =>
        if must_close bot currentPrice position then
          let '(ex2, st2) := close_position bot now symbol currentPrice position acc in
          (Completed, with_lastTradeTime now ex2, st2)
        else (Completed, fst acc, snd acc)
    end.

(** The single-symbol branch of a tick. *)
Definition single_branch (env : TickEnv) (bot : TradingBot) (ex : Executor) (st : System)
  : TickOutcome * Executor * System :=
  let now := te_now env in
  match truthy_price (ws_price (ex_ws ex)) with
  | None => (Threw NoCurrentPrice, ex, st)
  | Some currentPrice =>
      let marketData := snapshot_of (ex_ws ex) now in
      let '(r, strategy') := analyze (second_call env) (ex_strategy ex) (Some marketData) in
      let ex0 := with_strategy strategy' ex in
      match r with
      | Throw x => (Threw x, ex0, st)
      | Ok signal =>
          match handle_signal bot now currentPrice signal (ex0, st) with
          | Throw x => (Threw x, ex0, st)
          | Ok acc => check_stops bot now currentPrice acc
          end
      end
  end.

(** The [try] block of the interval callback.  [bot] is the captured
    object. *)
Definition tick_body (env : TickEnv) (bot : TradingBot) (ex : Executor) (st : System)
  : TickOutcome * Executor * System :=
  let now := te_now env in
  if negb (ws_isConnected (ex_ws ex)) || negb (bool_decide (bot_status bot = running))
  then (Returned, ex, st)
  else
    let marketData := snapshot_of (ex_ws ex) now in
    let '(r, strategy') := analyze (first_call env) (ex_strategy ex) (Some marketData) in
    let ex0 := with_strategy strategy' ex in
    match r with
    | Throw x => (Threw x, ex0, st)
    | Ok None => (Returned, ex0, st)
    | Ok (Some (SigMulti buys sells)) =>
        if decide (bot_strategy bot = multi_coin) then
          let sold := fold_left (multi_sell bot now) sells (ex0, st) in
          let '(ex2, st2) := multi_buys bot now buys sold in
          (Completed, with_lastTradeTime now ex2, st2)
        else single_branch env bot ex0 st
    | Ok (Some (SigAction _)) => single_branch env bot ex0 st
    end.

(** One iteration of the loop of the cleanup closure. *)
Definition cleanup_position (bot : TradingBot) (ex : Executor) (now : Z) (st : System)
    (entry : string * Position) : System :=
  let '(symbol, position) := entry in
  match truthy_price (ws_price (ex_ws ex)) with
  | Some currentPrice =>
      let pnl := (currentPrice - pos_entryPrice position) * pos_amount position in
      let st1 := credit_sale (ex_mode ex) symbol currentPrice (pos_amount position) st in
      updateBotPerformance (bot_id bot)
        (sell_update bot now currentPrice (pos_amount position) pnl) now st1
  | None => st
  end.

(** The cleanup closure returned by [startStrategyExecutor], for executor
    [e]. *)
Definition run_cleanup (e : nat) (now : Z) (st : System) : System :=
  match executors st !! e with
  | None => st
  | Some ex =>
      let st1 :=
        match heap st !! ex_bot ex with
        | Some bot => fold_left (cleanup_position bot ex now) (ex_positions ex) st
        | None => st
        end in
      set_executor e (with_positions [] (clearInterval ex)) st1
  end.

(** [stopBot(id)].  Nothing in the [try] block throws in the model, so its
    handler (a high-severity report) is not entered; the unsubscribe message
    leaves the state of the model unchanged. *)
Definition stopBot (id : string) (now : Z) (st : System) : System :=
  match getBotById id st with
  | None => st
  | Some a =>
      match heap st !! a with
      | None => st
      | Some bot =>
          if decide (bot_status bot = running) then
            let st1 :=
              match bot_cleanup bot with
              | Some e => run_cleanup e now st
              | None => st
              end in
            let st2 := set_bots id (with_status stopped) st1 in
            handleError MsgBotStopped low st2
          else st
      end
  end.

(** The interval callback of executor [e]: the [try] block and its
    handler.  A cleared timer does not fire.  A tick is one step: what
    happens while it awaits the strategy is not interleaved with it. *)
Definition run_tick (e : nat) (env : TickEnv) (st : System) : System :=
  match executors st !! e with
  | None => st
  | Some ex =>
      if negb (ex_interval ex) then st
      else
        match heap st !! ex_bot ex with
        | None => st
        | Some bot =>
            match tick_body env bot ex st with
            | (Returned, ex', st') => set_executor e ex' st'
            | (Completed, ex', st') => set_executor e (with_errors 0 0 ex') st'
            | (Threw _, ex', st') =>
                let n := S (ex_consecutiveErrors ex') in
                let ex1 := with_errors n (te_now env) ex' in
                if (5 <=? n)%nat then
                  let st1 := set_executor e (clearInterval ex1) st' in
                  let st2 := stopBot (bot_id bot) (te_now env) st1 in
                  handleError MsgStoppedAfterErrors high st2
                else
                  handleError MsgStrategyExecutionError medium (set_executor e ex1 st')
            end
        end
  end.

(** ** Starting a bot *)

(** What the environment supplies to [startBot]: the clock, the answer to
    [window.confirm] and the verdict of [riskManagement.checkOrderRisk]. *)
Record StartEnv := {
  se_now : Z;
  se_confirmed : bool;
  se_riskAllowed : bool
}.

(** [startStrategyExecutor(bot, strategy)]: a new closure over the [bot]
    object at address [a] and over the current state objects of the two
    other stores; the result is the cleanup closure, named by its index. *)
Definition startStrategyExecutor (a : nat) (strategy : Strategy) (now : Z) (st : System)
  : nat * System :=
  let ex := {|
    ex_bot := a;
    ex_strategy := strategy;
    ex_ws := webSocket st;
    ex_mode := tm_mode (tradingMode st);
    ex_positions := [];
    ex_lastTradeTime := now;
    ex_lastError := 0;
    ex_consecutiveErrors := 0;
    ex_interval := true
  |} in
  (length (executors st), set_executors (executors st ++ [ex]) st).

(** The [catch] block of [startBot]. *)
Definition start_failed (id : string) (st : System) : System :=
  set_bots id (with_status error) (handleError MsgStartFailed high st).

Fixpoint waiting_reports (retries : nat) (attempt : nat) (st : System) : System :=
  match retries with
  | O => st
  | S k => waiting_reports k (S attempt) (handleError (MsgWaitingForMarketData (S attempt)) low st)
  end.

Definition with_startTime (t : Z) (p : Performance) : Performance := {|
  perf_startTime := Some t; perf_totalTrades := perf_totalTrades p; perf_winRate := perf_winRate p;
  perf_profitLoss := perf_profitLoss p; perf_lastUpdate := perf_lastUpdate p;
  perf_trades := perf_trades p
|}.

(** [startBot(id)].  [ws] is the state object read at the top of the
    function: the two waiting loops test that same object, so a store that
    is not connected, or has no price, when [startBot] is called makes the
    start fail.  The waits are taken as one step. *)
Definition startBot (id : string) (env : StartEnv) (st : System) : System :=
  match getBotById id st with
  | None => handleError MsgBotNotFound high st
  | Some a =>
      match heap st !! a with
      | None => st
      | Some bot =>
          if bool_decide (tm_mode (tradingMode st) = live) && negb (se_confirmed env) then st
          else
            let ws := webSocket st in
            if negb (ws_isConnected ws) then
              start_failed id (handleError MsgConnecting low st)
            else
              let st1 := handleError MsgFetchingMarketData low st in
              if negb (JS.truthy (ws_price ws)) then
                start_failed id (waiting_reports 10 0 st1)
              else
                let st2 := handleError MsgRiskAssessment low st1 in
                if negb (se_riskAllowed env) then start_failed id st2
                else
                  let st3 := handleError MsgInitStrategy low st2 in
                  match createStrategy (bot_strategy bot) (cfg_parameters (bot_config bot)) with
                  | None => start_failed id st3
                  | Some strategy =>
                      let st4 :=
                        set_bots id
                          (fun b => with_performance
                                      (with_startTime (se_now env) (bot_performance b))
                                      (with_status running b)) st3 in
                      let st5 := handleError MsgStartingExecutor low st4 in
                      let '(cleanup, st6) := startStrategyExecutor a strategy (se_now env) st5 in
                      (* bot.cleanup = cleanup: a write to the object at [a] *)
                      let st7 :=
                        set_store (alter (with_cleanup (Some cleanup)) a (heap st6)) (bots st6) st6 in
                      handleError MsgBotStarted low st7
                  end
      end
  end.

(** ** Runs of the engine *)

(** The calls and events that drive the engine. *)
Inductive Event :=
| EvCreateBot (id : string) (now : Z) (botData : BotData)
| EvStartBot (id : string) (env : StartEnv)
| EvStopBot (id : string) (now : Z)
| EvTick (e : nat) (env : TickEnv)
| EvLedger (c : LedgerCall)
| EvMarket (w : WsState).

Definition step (st : System) (ev : Event) : System :=
  match ev with
  | EvCreateBot id now botData => createBot id now botData st
  | EvStartBot id env => startBot id env st
  | EvStopBot id now => stopBot id now st
  | EvTick e env => run_tick e env st
  | EvLedger c => set_tradingMode (ledger_call c (tradingMode st)) st
  | EvMarket w => set_webSocket w st
  end.

Definition run (evs : list Event) (st : System) : System := fold_left step evs st.

Definition reachable (st : System) : Prop := exists evs : list Event, run evs initialSystem = st.

(** No bot of the store array carries a cleanup closure. *)
Definition store_clean (st : System) : bool :=
  forallb (fun a => match heap st !! a with
                    | Some b => bool_decide (bot_cleanup b = None)
                    | None => false
                    end) (bots st).

(** The status of the bot the store returns for [id]. *)
Definition status_of (id : string) (st : System) : option BotStatus :=
  match getBotById id st with
  | Some a => bot_status <$> heap st !! a
  | None => None
  end.

(** The performance records of the store array, in order. *)
Definition store_performances (st : System) : list (option Performance) :=
  map (fun a => bot_performance <$> heap st !! a) (bots st).

(** The positions an executor holds. *)
Definition positions_of (e : nat) (st : System) : list (string * Position) :=
  match executors st !! e with
  | Some ex => ex_positions ex
  | None => []
  end.

Definition timer_armed (e : nat) (st : System) : bool :=
  match executors st !! e with
  | Some ex => ex_interval ex
  | None => false
  end.

(** ** Sample inputs *)

(** A candle that closes at [c]. *)
Definition kline_of_close (c : Q) : Kline := {|
  k_time := 0; k_open := c; k_high := c; k_low := c; k_close := c; k_volume := 0
|}.

(** A snapshot with the given price and closes. *)
Definition snapshot_with (price : Q) (closes : list Q) : option MarketData :=
  Some {| md_price := Some price; md_klines := Some (map kline_of_close closes);
          md_volume := Some 0; md_timestamp := 0 |}.

Definition quiet_call : AnalyzeEnv := {|
  ae_now := 0; ae_random1 := 0; ae_random2 := 0; ae_analysis := None
|}.

(** Closes that rise once, then fall by half as much. *)
Definition rise_then_fall : list Q := [2; 4; 3].

Definition is_multi_coin (strategy : Strategy) : bool :=
  match strategy with
  | MultiCoinStrategy _ _ _ _ _ => true
  | _ => false
  end.

(** ** Views of the bot store, for the proofs *)

(** Every address of the array is allocated. *)
Definition valid_store (h : list TradingBot) (bs : list nat) : Prop :=
  Forall (fun a => (a < length h)%nat) bs.

(** The bot objects of the array, in order. *)
Definition view (h : list TradingBot) (bs : list nat) : list (option TradingBot) :=
  map (fun a => h !! a) bs.

Definition store_view (st : System) : list (option TradingBot) := view (heap st) (bots st).

(** The first bot of a view with the given id. *)
Definition find_bot (id : string) (v : list (option TradingBot)) : option TradingBot :=
  mjoin (List.find (fun ob => match ob with
                              | Some b => bool_decide (bot_id b = id)
                              | None => false
                              end) v).

(** What [b => b.id === id ? f(b) : b] does to a bot. *)
Definition on_id (id : string) (f : TradingBot -> TradingBot) (b : TradingBot) : TradingBot :=
  if decide (bot_id b = id) then f b else b.

Definition clean_view (v : list (option TradingBot)) : bool :=
  forallb (fun ob => match ob with
                     | Some b => bool_decide (bot_cleanup b = None)
                     | None => false
                     end) v.

Definition valid (st : System) : Prop := valid_store (heap st) (bots st).

(** What the store shows of each bot apart from its performance. *)
Definition skeleton (st : System) : list (option (string * BotStatus * option nat)) :=
  map (fmap (fun b => (bot_id b, bot_status b, bot_cleanup b))) (store_view st).

(** What the body of a tick, or the cleanup loop, may do to the engine on
    behalf of an executor whose captured mode is [mode]: write performances
    and, in live mode only, balances. *)
Definition effect (mode : TradingMode) (st st' : System) : Prop :=
  executors st' = executors st
  /\ webSocket st' = webSocket st
  /\ reports st' = reports st
  /\ activeBot st' = activeBot st
  /\ (mode = demo -> tradingMode st' = tradingMode st)
  /\ (forall a b, heap st !! a = Some b -> heap st' !! a = Some b)
  /\ (valid st -> valid st' /\ skeleton st' = skeleton st).

(** What the body of a tick may do to the local variables of its closure. *)
Definition ex_frame (ex ex' : Executor) : Prop :=
  ex_mode ex' = ex_mode ex
  /\ ex_bot ex' = ex_bot ex
  /\ ex_ws ex' = ex_ws ex
  /\ ex_interval ex' = ex_interval ex
  /\ ex_consecutiveErrors ex' = ex_consecutiveErrors ex
  /\ ex_lastError ex' = ex_lastError ex
  /\ (ex_mode ex = demo -> incl (map_keys (ex_positions ex')) (map_keys (ex_positions ex))).

Definition tick_rel (acc acc' : Executor * System) : Prop :=
  ex_frame (fst acc) (fst acc') /\ effect (ex_mode (fst acc)) (snd acc) (snd acc').

(** The closure variables and the engine state a tick body leaves. *)
Definition left_by (r : TickOutcome * Executor * System) : Executor * System :=
  (snd (fst r), snd r).

Definition outcome_of (r : TickOutcome * Executor * System) : TickOutcome := fst (fst r).

(** The state an armed executor leaves after one firing, when no bot of the
    store carries a cleanup closure. *)
Definition after_tick (e : nat) (env : TickEnv) (bot : TradingBot) (ex : Executor)
    (r : TickOutcome * Executor * System) : System :=
  let ex' := fst (left_by r) in
  let st1 := snd (left_by r) in
  match outcome_of r with
  | Returned => set_executor e ex' st1
  | Completed => set_executor e (with_errors 0 0 ex') st1
  | Threw _ =>
      let n := S (ex_consecutiveErrors ex) in
      let ex1 := with_errors n (te_now env) ex' in
      if (5 <=? n)%nat then
        let st2 := set_executor e (clearInterval ex1) st1 in
        handleError MsgStoppedAfterErrors high
          (if decide (status_of (bot_id bot) st1 = Some running)
           then handleError MsgBotStopped low (set_bots (bot_id bot) (with_status stopped) st2)
           else st2)
      else handleError MsgStrategyExecutionError medium (set_executor e ex1 st1)
  end.

(** A grid bot on BTC/USDT and the environments of the sample runs. *)
Definition sample_market : WsState := {|
  ws_isConnected := true; ws_price := Some 105; ws_klines := Some []; ws_volume := Some 0
|}.

Definition grid_bot : BotData := {|
  data_name := "grid";
  data_strategy := grid;
  data_config := {|
    cfg_symbol := "BTC/USDT"; cfg_interval := "1m"; cfg_riskLevel := risk_medium;
    cfg_maxPositionSize := 1000; cfg_stopLoss := 5; cfg_takeProfit := 10;
    cfg_parameters := GridParameters 200 100 10
  |}
|}.

Definition quiet_tick (now : Z) : TickEnv := {|
  te_now := now; te_random1 := 0; te_random2 := 0; te_random3 := 0; te_random4 := 0;
  te_analysis := None
|}.

Definition start_at (now : Z) : StartEnv := {|
  se_now := now; se_confirmed := true; se_riskAllowed := true
|}.

(** The bot is created and started twice in demo mode: the second executor
    (index 1) captured a bot object whose status is already running, so its
    ticks are not skipped. *)
Definition demo_engine : System :=
  run [EvMarket sample_market; EvCreateBot "1" 1000 grid_bot;
       EvStartBot "1" (start_at 2000); EvStartBot "1" (start_at 3000)] initialSystem.

(** The engine invariant: no bot of the store carries a cleanup closure,
    and an executor that captured the demo mode holds no position. *)
Definition engine_inv (st : System) : Prop :=
  store_clean st = true
  /\ forall e ex, executors st !! e = Some ex -> ex_mode ex = demo -> ex_positions ex = [].

(** A web-socket state that is connected but has no price yet. *)
Definition priceless_market : WsState := {|
  ws_isConnected := true; ws_price := Some 0; ws_klines := Some []; ws_volume := Some 0
|}.

(** A live run: 10000 USDT are deposited, the bot is created and started
    twice, and the second executor (index 1) buys on its first tick after the
    minute of spacing. *)
Definition live_trace : list Event :=
  [EvMarket sample_market;
   EvLedger (CallSetMode live true);
   EvLedger (CallUpdateBalance "USDT" 10000);
   EvCreateBot "1" 1000 grid_bot;
   EvStartBot "1" (start_at 2000);
   EvStartBot "1" (start_at 3000);
   EvTick 1 (quiet_tick 70000)].

Definition live_engine : System := run live_trace initialSystem.

(** ** Predicates and samples for the strategy properties *)

(** No close is below the one before it. *)
Fixpoint never_falls (l : list Q) : Prop :=
  match l with
  | a :: (b :: _) as rest => a <= b /\ never_falls rest
  | _ => True
  end.

(** Every entry is at most as confident as the entries before it. *)
Fixpoint by_decreasing_confidence (l : list Recommendation) : Prop :=
  match l with
  | [] => True
  | r :: l' =>
      Forall (fun x => rec_confidence x <= rec_confidence r) l' /\ by_decreasing_confidence l'
  end.

(** Three candles at the same close. *)
Definition steady_closes : list Q := [5; 5; 5].

(** A reply that recommends one coin to buy and one to sell. *)
Definition two_coin_reply : list Recommendation :=
  [ {| rec_symbol := "ETH"; rec_action := rec_sell; rec_confidence := 6 # 10; rec_price := 20 |};
    {| rec_symbol := "BTC"; rec_action := strong_buy; rec_confidence := 9 # 10; rec_price := 100 |} ].

Definition two_coin_call (now : Z) : AnalyzeEnv := {|
  ae_now := now; ae_random1 := 0; ae_random2 := 0; ae_analysis := Some two_coin_reply
|}.

(** ** Parameter optimisation ([optimizeParameters]) *)

(** [optimizeParameters(strategy, currentParams)], for parameters of the
    shape the strategy reads; with another shape the arithmetic is done on
    undefined fields, which is outside the model ([None]). *)
Definition optimizeParameters (strategy : BotStrategy) (currentParams : Parameters)
  : option Parameters :=
  match strategy, currentParams with
  | ma_cross, MACrossParameters fastPeriod slowPeriod signalPeriod =>
      Some (MACrossParameters (Z.max 5 (fastPeriod - 1)) (Z.min 30 (slowPeriod + 1)) signalPeriod)
  | ma_cross, _ => None
  | rsi, RSIParameters period overbought oversold =>
      Some (RSIParameters (Z.min 21 (Z.max 7 period)) (Qmin 80 overbought) (Qmax 20 oversold))
  | rsi, _ => None
  | _, _ => Some currentParams
  end.

(** [n] optimisations in a row. *)
Fixpoint optimize_rounds (n : nat) (strategy : BotStrategy) (params : Parameters)
  : option Parameters :=
  match n with
  | O => Some params
  | S k =>
      match optimizeParameters strategy params with
      | Some p => optimize_rounds k strategy p
      | None => None
      end
  end.

(** ** The error store ([useErrorStore]) *)

Record StoredError := {
  err_id : string;
  err_timestamp : Z;
  err_entry : ErrorLog
}.

(** [addError(error)]; the id is drawn at random, the timestamp is the
    clock. *)
Definition addError (id : string) (now : Z) (entry : ErrorLog) (errors : list StoredError)
  : list StoredError :=
  slice_to 100 ({| err_id := id; err_timestamp := now; err_entry := entry |} :: errors).

(** [removeError(id)]. *)
Definition removeError (id : string) (errors : list StoredError) : list StoredError :=
  filter (fun e => err_id e ≠ id) errors.

(** [clearErrors()]. *)
Definition clearErrors (errors : list StoredError) : list StoredError := [].

Inductive ErrorCall :=
| CallAddError (id : string) (now : Z) (entry : ErrorLog)
| CallRemoveError (id : string)
| CallClearErrors.

Definition error_call (errors : list StoredError) (c : ErrorCall) : list StoredError :=
  match c with
  | CallAddError id now entry => addError id now entry errors
  | CallRemoveError id => removeError id errors
  | CallClearErrors => clearErrors errors
  end.

Definition is_add (c : ErrorCall) : option ErrorLog :=
  match c with
  | CallAddError _ _ entry => Some entry
  | _ => None
  end.

(** ** The risk store ([useRiskManagement]) *)

Record RiskLimits := {
  lim_maxOrderValue : Q;
  lim_maxDailyLoss : Q;
  lim_maxLeverage : Q;
  lim_stopLossPercentage : Q;
  lim_takeProfitPercentage : Q
}.

(** The part of the state [checkOrderRisk] reads. *)
Record RiskStore := {
  risk_limits : RiskLimits;
  risk_dailyPnL : Q
}.

Definition initialRiskStore : RiskStore := {|
  risk_limits := {|
    lim_maxOrderValue := 20000; lim_maxDailyLoss := 1000; lim_maxLeverage := 3;
    lim_stopLossPercentage := 5; lim_takeProfitPercentage := 10
  |};
  risk_dailyPnL := 0
|}.

(** [updateDailyPnL(pnl)]. *)
Definition updateDailyPnL (pnl : Q) (rs : RiskStore) : RiskStore := {|
  risk_limits := risk_limits rs;
  risk_dailyPnL := risk_dailyPnL rs + pnl
|}.

(** The fields of an order that the check reads; a field the caller leaves
    out is [None]. *)
Record Order := {
  order_price : Q;
  order_amount : Q;
  order_leverage : option Q;
  order_stopLoss : option Q;
  order_type : option Action
}.

(** The verdict, with the numbers its [reason] quotes. *)
Inductive RiskCheck :=
| RiskAllowed
| RiskOrderValue (orderValue limit : Q)
| RiskDailyLoss (limit : Q)
| RiskLeverage (leverage limit : Q)
| RiskNoStopLoss (recommendedStopLoss : Q).

(** [checkOrderRisk(order)]. *)
Definition checkOrderRisk (rs : RiskStore) (order : Order) : RiskCheck :=
  let limits := risk_limits rs in
  let orderValue := order_price order * order_amount order in
  if JS.Qltb (lim_maxOrderValue limits) orderValue then
    RiskOrderValue orderValue (lim_maxOrderValue limits)
  else if JS.Qltb (risk_dailyPnL rs) (- lim_maxDailyLoss limits) then
    RiskDailyLoss (lim_maxDailyLoss limits)
  else if match order_leverage order with
          | Some leverage => JS.Qltb (lim_maxLeverage limits) leverage
          | None => false
          end then
    RiskLeverage (default 0 (order_leverage order)) (lim_maxLeverage limits)
  else if negb (JS.truthy (order_stopLoss order)) then
    RiskNoStopLoss
      (match order_type order with
       | Some buy => order_price order * (1 - lim_stopLossPercentage limits / 100)
       | _ => order_price order * (1 + lim_stopLossPercentage limits / 100)
       end)
  else RiskAllowed.

(** The order [startBot] submits to the check. *)
Definition start_order (bot : TradingBot) (currentPrice : Q) : Order := {|
  order_price := currentPrice;
  order_amount := cfg_maxPositionSize (bot_config bot);
  order_leverage := None;
  order_stopLoss := Some (cfg_stopLoss (bot_config bot));
  order_type := None
|}.

(** The environment of a [startBot] whose risk verdict comes from the risk
    store [rs]. *)
Definition checked_start (now : Z) (confirmed : bool) (rs : RiskStore) (bot : TradingBot)
    (currentPrice : Q) : StartEnv := {|
  se_now := now;
  se_confirmed := confirmed;
  se_riskAllowed :=
    match checkOrderRisk rs (start_order bot currentPrice) with
    | RiskAllowed => true
    | _ => false
    end
|}.

(** Log entries for the examples. *)
Definition sample_adds : list ErrorCall :=
  [CallAddError "a" 1 {| log_message := MsgConnecting; log_severity := low |};
   CallAddError "b" 2 {| log_message := MsgStartFailed; log_severity := high |}].

(** The engine after the sample bot has been created, and the bot object
    [createBot] has put in the store. *)
Definition created_engine : System :=
  run [EvMarket sample_market; EvCreateBot "1" 1000 grid_bot] initialSystem.

Definition created_grid_bot : TradingBot := {|
  bot_id := "1"; bot_name := data_name grid_bot; bot_strategy := data_strategy grid_bot;
  bot_status := stopped; bot_config := data_config grid_bot;
  bot_performance := {| perf_startTime := None; perf_totalTrades := 0; perf_winRate := 0;
                        perf_profitLoss := 0; perf_lastUpdate := 1000; perf_trades := [] |};
  bot_cleanup := None
|}.

(** ** The kline buffer of the web-socket store *)

(** Insertion into a list sorted by increasing time, before the entries of
    equal time. *)
Fixpoint insert_by_time (k : Kline) (l : list Kline) : list Kline :=
  match l with
  | [] => [k]
  | x :: l' =>
      if (k_time k <=? k_time x)%Z then k :: x :: l' else x :: insert_by_time k l'
  end.

(** [newKlines.sort((a, b) => a.time - b.time)]: the sort is stable. *)
Definition sort_by_time (l : list Kline) : list Kline := fold_right insert_by_time [] l.

(** [newKlines.findIndex(k => k.time === t)]. *)
Fixpoint findIndex_time (t : Z) (l : list Kline) : option nat :=
  match l with
  | [] => None
  | x :: l' => if (k_time x =? t)%Z then Some O else S <$> findIndex_time t l'
  end.

(** The handler of a [kline] message: replace the candle of the same
    opening time or append the new one, sort by time, keep the last 100. *)
Definition on_kline (klineData : Kline) (klines : list Kline) : list Kline :=
  let newKlines :=
    match findIndex_time (k_time klineData) klines with
    | Some index => <[ index := klineData ]> klines
    | None => klines ++ [klineData]
    end in
  slice_from (-100) (sort_by_time newKlines).

(** The buffer after a stream of [kline] messages, from the empty buffer of
    the initial state. *)
Definition kline_buffer (stream : list Kline) : list Kline :=
  foldl (fun klines k => on_kline k klines) [] stream.

(** Every candle opens later than the candles before it. *)
Fixpoint times_increase (l : list Kline) : Prop :=
  match l with
  | [] => True
  | x :: l' => Forall (fun y => (k_time x < k_time y)%Z) l' /\ times_increase l'
  end.

(** Every candle opens no earlier than the candles before it. *)
Fixpoint times_ordered (l : list Kline) : Prop :=
  match l with
  | [] => True
  | x :: l' => Forall (fun y => (k_time x <= k_time y)%Z) l' /\ times_ordered l'
  end.

(** ** The whole trading-mode store ([useTradingMode]) *)

Inductive Exchange := binance | okx | huobi.

Record ExchangeAccount := {
  acc_id : string;
  acc_name : string;
  acc_exchange : Exchange;
  acc_apiKey : string;
  acc_secretKey : string;
  acc_passphrase : option string
}.

(** [{...account, id}]. *)
Definition with_acc_id (id : string) (a : ExchangeAccount) : ExchangeAccount := {|
  acc_id := id; acc_name := acc_name a; acc_exchange := acc_exchange a;
  acc_apiKey := acc_apiKey a; acc_secretKey := acc_secretKey a;
  acc_passphrase := acc_passphrase a
|}.

Record DemoConfig := {
  dc_initialBalance : Q;
  dc_feeRate : Q
}.

Definition DEFAULT_FEE_RATE : Q := 1 # 10.

(** An entry of a positions or orders array: the caller's object, of any
    shape, under the id the store gave it. *)
Record Booked (A : Type) := {
  booked_id : string;
  booked_data : A
}.
Arguments booked_id {A} _.
Arguments booked_data {A} _.

(** The messages this store passes to [errorHandler.handleError]. *)
Inductive ModeMessage :=
| MsgNeedAccount
| MsgModeSwitched (mode : TradingMode)
| MsgAccountAdded
| MsgDemoReset.

(** The state of the store; [ms_ledger] is the mode with the two balance
    objects, [ms_reports] lists the calls of [handleError], the latest
    first. *)
Record ModeStore (A : Type) := {
  ms_ledger : TradingModeStore;
  ms_exchangeAccounts : list ExchangeAccount;
  ms_activeAccountId : option string;
  ms_positions_demo : list (Booked A);
  ms_positions_live : list (Booked A);
  ms_orders_demo : list (Booked A);
  ms_orders_live : list (Booked A);
  ms_demoConfig : DemoConfig;
  ms_reports : list (ModeMessage * ErrorSeverity)
}.
Arguments ms_ledger {A} _.
Arguments ms_exchangeAccounts {A} _.
Arguments ms_activeAccountId {A} _.
Arguments ms_positions_demo {A} _.
Arguments ms_positions_live {A} _.
Arguments ms_orders_demo {A} _.
Arguments ms_orders_live {A} _.
Arguments ms_demoConfig {A} _.
Arguments ms_reports {A} _.

Definition initialModeStore (A : Type) : ModeStore A := {|
  ms_ledger := initialTradingMode;
  ms_exchangeAccounts := [];
  ms_activeAccountId := None;
  ms_positions_demo := [];
  ms_positions_live := [];
  ms_orders_demo := [];
  ms_orders_live := [];
  ms_demoConfig := {| dc_initialBalance := DEFAULT_DEMO_BALANCE; dc_feeRate := DEFAULT_FEE_RATE |};
  ms_reports := []
|}.

Definition ms_mode {A : Type} (st : ModeStore A) : TradingMode := tm_mode (ms_ledger st).

Definition ms_with_ledger {A : Type} (l : TradingModeStore) (st : ModeStore A) : ModeStore A := {|
  ms_ledger := l;
  ms_exchangeAccounts := ms_exchangeAccounts st;
  ms_activeAccountId := ms_activeAccountId st;
  ms_positions_demo := ms_positions_demo st;
  ms_positions_live := ms_positions_live st;
  ms_orders_demo := ms_orders_demo st;
  ms_orders_live := ms_orders_live st;
  ms_demoConfig := ms_demoConfig st;
  ms_reports := ms_reports st
|}.

Definition ms_with_accounts {A : Type} (accounts : list ExchangeAccount) (active : option string)
    (st : ModeStore A) : ModeStore A := {|
  ms_ledger := ms_ledger st;
  ms_exchangeAccounts := accounts;
  ms_activeAccountId := active;
  ms_positions_demo := ms_positions_demo st;
  ms_positions_live := ms_positions_live st;
  ms_orders_demo := ms_orders_demo st;
  ms_orders_live := ms_orders_live st;
  ms_demoConfig := ms_demoConfig st;
  ms_reports := ms_reports st
|}.

(** [state.positions[mode]] and the update of that one array. *)
Definition ms_positions {A : Type} (mode : TradingMode) (st : ModeStore A) : list (Booked A) :=
  match mode with
  | demo => ms_positions_demo st
  | live => ms_positions_live st
  end.

Definition ms_with_positions {A : Type} (mode : TradingMode) (ps : list (Booked A))
    (st : ModeStore A) : ModeStore A := {|
  ms_ledger := ms_ledger st;
  ms_exchangeAccounts := ms_exchangeAccounts st;
  ms_activeAccountId := ms_activeAccountId st;
  ms_positions_demo := match mode with demo => ps | live => ms_positions_demo st end;
  ms_positions_live := match mode with live => ps | demo => ms_positions_live st end;
  ms_orders_demo := ms_orders_demo st;
  ms_orders_live := ms_orders_live st;
  ms_demoConfig := ms_demoConfig st;
  ms_reports := ms_reports st
|}.

Definition ms_orders {A : Type} (mode : TradingMode) (st : ModeStore A) : list (Booked A) :=
  match mode with
  | demo => ms_orders_demo st
  | live => ms_orders_live st
  end.

Definition ms_with_orders {A : Type} (mode : TradingMode) (os : list (Booked A))
    (st : ModeStore A) : ModeStore A := {|
  ms_ledger := ms_ledger st;
  ms_exchangeAccounts := ms_exchangeAccounts st;
  ms_activeAccountId := ms_activeAccountId st;
  ms_positions_demo := ms_positions_demo st;
  ms_positions_live := ms_positions_live st;
  ms_orders_demo := match mode with demo => os | live => ms_orders_demo st end;
  ms_orders_live := match mode with live => os | demo => ms_orders_live st end;
  ms_demoConfig := ms_demoConfig st;
  ms_reports := ms_reports st
|}.

Definition ms_with_demoConfig {A : Type} (c : DemoConfig) (st : ModeStore A) : ModeStore A := {|
  ms_ledger := ms_ledger st;
  ms_exchangeAccounts := ms_exchangeAccounts st;
  ms_activeAccountId := ms_activeAccountId st;
  ms_positions_demo := ms_positions_demo st;
  ms_positions_live := ms_positions_live st;
  ms_orders_demo := ms_orders_demo st;
  ms_orders_live := ms_orders_live st;
  ms_demoConfig := c;
  ms_reports := ms_reports st
|}.

(** [errorHandler.handleError(message, severity)] from this store. *)
Definition ms_report {A : Type} (message : ModeMessage) (severity : ErrorSeverity)
    (st : ModeStore A) : ModeStore A := {|
  ms_ledger := ms_ledger st;
  ms_exchangeAccounts := ms_exchangeAccounts st;
  ms_activeAccountId := ms_activeAccountId st;
  ms_positions_demo := ms_positions_demo st;
  ms_positions_live := ms_positions_live st;
  ms_orders_demo := ms_orders_demo st;
  ms_orders_live := ms_orders_live st;
  ms_demoConfig := ms_demoConfig st;
  ms_reports := (message, severity) :: ms_reports st
|}.

(** Truthiness of an id that may be [null]. *)
Definition truthy_id (id : option string) : bool :=
  match id with
  | Some s => negb (String.eqb s EmptyString)
  | None => false
  end.

(** [setMode(mode)]; [confirmed] is the answer to [window.confirm]. *)
Definition ms_setMode {A : Type} (mode : TradingMode) (confirmed : bool) (st : ModeStore A)
  : ModeStore A :=
  match mode with
  | live =>
      if negb (truthy_id (ms_activeAccountId st)) then ms_report MsgNeedAccount high st
      else if negb confirmed then st
      else ms_report (MsgModeSwitched live) low
             (ms_with_ledger (setMode live true (ms_ledger st)) st)
  | demo =>
      ms_report (MsgModeSwitched demo) low
        (ms_with_ledger (setMode demo true (ms_ledger st)) st)
  end.

(** [addExchangeAccount(account)]; the id is [Date.now().toString()]. *)
Definition ms_addExchangeAccount {A : Type} (id : string) (account : ExchangeAccount)
    (st : ModeStore A) : ModeStore A :=
  let newAccount := with_acc_id id account in
  ms_report MsgAccountAdded low
    (ms_with_accounts (ms_exchangeAccounts st ++ [newAccount])
       (if truthy_id (ms_activeAccountId st) then ms_activeAccountId st else Some id) st).

(** [removeExchangeAccount(accountId)]: the call of [setMode('demo')] made
    inside the updater takes effect first, the accounts and the active id
    are merged into the state it leaves. *)
Definition ms_removeExchangeAccount {A : Type} (accountId : string) (st : ModeStore A)
  : ModeStore A :=
  let newAccounts := filter (fun a => acc_id a ≠ accountId) (ms_exchangeAccounts st) in
  let newActiveId :=
    if decide (ms_activeAccountId st = Some accountId) then
      match head newAccounts with
      | Some a => if String.eqb (acc_id a) EmptyString then None else Some (acc_id a)
      | None => None
      end
    else ms_activeAccountId st in
  let st1 :=
    if bool_decide (newAccounts = []) && bool_decide (ms_mode st = live)
    then ms_setMode demo true st else st in
  ms_with_accounts newAccounts newActiveId st1.

(** [setActiveAccount(accountId)]. *)
Definition ms_setActiveAccount {A : Type} (accountId : string) (st : ModeStore A) : ModeStore A :=
  ms_with_accounts (ms_exchangeAccounts st) (Some accountId) st.

(** [getActiveAccount()]. *)
Definition ms_getActiveAccount {A : Type} (st : ModeStore A) : option ExchangeAccount :=
  List.find (fun a => bool_decide (Some (acc_id a) = ms_activeAccountId st))
            (ms_exchangeAccounts st).

(** [updateBalance(currency, amount)] and [getBalance(currency)]. *)
Definition ms_updateBalance {A : Type} (currency : string) (amount : Q) (st : ModeStore A)
  : ModeStore A :=
  ms_with_ledger (updateBalance currency amount (ms_ledger st)) st.

Definition ms_getBalance {A : Type} (currency : string) (st : ModeStore A) : Q :=
  getBalance currency (ms_ledger st).

(** [addPosition(position)] and [closePosition(positionId)]; the id is
    [Date.now().toString()]. *)
Definition ms_addPosition {A : Type} (id : string) (position : A) (st : ModeStore A)
  : ModeStore A :=
  let mode := ms_mode st in
  ms_with_positions mode
    (ms_positions mode st ++ [{| booked_id := id; booked_data := position |}]) st.

Definition ms_closePosition {A : Type} (positionId : string) (st : ModeStore A) : ModeStore A :=
  let mode := ms_mode st in
  ms_with_positions mode (filter (fun p => booked_id p ≠ positionId) (ms_positions mode st)) st.

(** [addOrder(order)] and [cancelOrder(orderId)]. *)
Definition ms_addOrder {A : Type} (id : string) (order : A) (st : ModeStore A) : ModeStore A :=
  let mode := ms_mode st in
  ms_with_orders mode (ms_orders mode st ++ [{| booked_id := id; booked_data := order |}]) st.

Definition ms_cancelOrder {A : Type} (orderId : string) (st : ModeStore A) : ModeStore A :=
  let mode := ms_mode st in
  ms_with_orders mode (filter (fun o => booked_id o ≠ orderId) (ms_orders mode st)) st.

(** [getPositions()] and [getOrders()]. *)
Definition ms_getPositions {A : Type} (st : ModeStore A) : list (Booked A) :=
  ms_positions (ms_mode st) st.

Definition ms_getOrders {A : Type} (st : ModeStore A) : list (Booked A) :=
  ms_orders (ms_mode st) st.

(** [resetDemo()]; [confirmed] is the answer to [window.confirm]. *)
Definition ms_resetDemo {A : Type} (confirmed : bool) (st : ModeStore A) : ModeStore A :=
  if confirmed then
    let demoConfig := ms_demoConfig st in
    ms_report MsgDemoReset low
      (ms_with_orders demo []
         (ms_with_positions demo []
            (ms_with_ledger
               (set_balance_of demo {[ "USDT"%string := dc_initialBalance demoConfig ]}
                  (ms_ledger st)) st)))
  else st.

(** [setDemoConfig(config)], for a [config] that gives some of the two
    fields. *)
Definition ms_setDemoConfig {A : Type} (initialBalance feeRate : option Q) (st : ModeStore A)
  : ModeStore A :=
  let st1 :=
    ms_with_demoConfig
      {| dc_initialBalance := default (dc_initialBalance (ms_demoConfig st)) initialBalance;
         dc_feeRate := default (dc_feeRate (ms_demoConfig st)) feeRate |} st in
  match initialBalance with
  | Some b => ms_with_ledger (set_balance_of demo {[ "USDT"%string := b ]} (ms_ledger st1)) st1
  | None => st1
  end.

(** A caller of the store. *)
Inductive ModeCall (A : Type) :=
| DoSetMode (mode : TradingMode) (confirmed : bool)
| DoAddExchangeAccount (id : string) (account : ExchangeAccount)
| DoRemoveExchangeAccount (accountId : string)
| DoSetActiveAccount (accountId : string)
| DoUpdateBalance (currency : string) (amount : Q)
| DoAddPosition (id : string) (position : A)
| DoClosePosition (positionId : string)
| DoAddOrder (id : string) (order : A)
| DoCancelOrder (orderId : string)
| DoResetDemo (confirmed : bool)
| DoSetDemoConfig (initialBalance feeRate : option Q).
Arguments DoSetMode {A} _ _.
Arguments DoAddExchangeAccount {A} _ _.
Arguments DoRemoveExchangeAccount {A} _.
Arguments DoSetActiveAccount {A} _.
Arguments DoUpdateBalance {A} _ _.
Arguments DoAddPosition {A} _ _.
Arguments DoClosePosition {A} _.
Arguments DoAddOrder {A} _ _.
Arguments DoCancelOrder {A} _.
Arguments DoResetDemo {A} _.
Arguments DoSetDemoConfig {A} _ _.

Definition mode_call {A : Type} (st : ModeStore A) (c : ModeCall A) : ModeStore A :=
  match c with
  | DoSetMode mode confirmed => ms_setMode mode confirmed st
  | DoAddExchangeAccount id account => ms_addExchangeAccount id account st
  | DoRemoveExchangeAccount accountId => ms_removeExchangeAccount accountId st
  | DoSetActiveAccount accountId => ms_setActiveAccount accountId st
  | DoUpdateBalance currency amount => ms_updateBalance currency amount st
  | DoAddPosition id position => ms_addPosition id position st
  | DoClosePosition positionId => ms_closePosition positionId st
  | DoAddOrder id order => ms_addOrder id order st
  | DoCancelOrder orderId => ms_cancelOrder orderId st
  | DoResetDemo confirmed => ms_resetDemo confirmed st
  | DoSetDemoConfig initialBalance feeRate => ms_setDemoConfig initialBalance feeRate st
  end.

(** The calls the settings page makes: an account id is never empty and
    only a listed account is activated. *)
Definition from_settings {A : Type} (st : ModeStore A) (c : ModeCall A) : Prop :=
  match c with
  | DoAddExchangeAccount id _ => id <> EmptyString
  | DoSetActiveAccount accountId => In accountId (map acc_id (ms_exchangeAccounts st))
  | _ => True
  end.

(** A run of calls, each of them as the settings page makes it in the
    state it finds. *)
Fixpoint settings_run {A : Type} (st : ModeStore A) (calls : list (ModeCall A)) : Prop :=
  match calls with
  | [] => True
  | c :: rest => from_settings st c /\ settings_run (mode_call st c) rest
  end.

(** The books of one mode: its balances, positions and orders. *)
Definition books {A : Type} (mode : TradingMode) (st : ModeStore A)
  : gmap string Q * list (Booked A) * list (Booked A) :=
  (balance_of mode (ms_ledger st), ms_positions mode st, ms_orders mode st).

(** Whether a call is one of the two that rewrite the demo account. *)
Definition rewrites_demo {A : Type} (c : ModeCall A) : bool :=
  match c with
  | DoResetDemo _ | DoSetDemoConfig _ _ => true
  | _ => false
  end.

Definition sample_account : ExchangeAccount := {|
  acc_id := ""; acc_name := "main"; acc_exchange := binance;
  acc_apiKey := "key"; acc_secretKey := "secret"; acc_passphrase := None
|}.

Definition go_live : list (ModeCall unit) :=
  [DoAddExchangeAccount "1700000000000" sample_account; DoSetMode live true].

(** What the account operations keep true: ids are not empty, a truthy
    active id names a listed account, and the live mode has a truthy active
    id. *)
Definition accounts_inv {A : Type} (st : ModeStore A) : Prop :=
  Forall (fun a => acc_id a <> EmptyString) (ms_exchangeAccounts st)
  /\ (truthy_id (ms_activeAccountId st) = true ->
      exists id, ms_activeAccountId st = Some id
                 /\ In id (map acc_id (ms_exchangeAccounts st)))
  /\ (ms_mode st = live -> truthy_id (ms_activeAccountId st) = true).

(** ** What an executor captured *)

(** The objects closure [e] captured: the web-socket state, the trading
    mode and the bot object (up to the cleanup closure written to it). *)
Definition captured_by (e : nat) (st : System) : option (WsState * TradingMode * TradingBot) :=
  match executors st !! e with
  | Some ex =>
      match heap st !! ex_bot ex with
      | Some bot => Some (ex_ws ex, ex_mode ex, with_cleanup None bot)
      | None => None
      end
  | None => None
  end.

(** Every object of the heap of [st] is still there in [st'], the same up
    to its cleanup closure. *)
Definition heap_kept (st st' : System) : Prop :=
  forall a b, heap st !! a = Some b ->
    exists b', heap st' !! a = Some b' /\ with_cleanup None b' = with_cleanup None b.

(** Every closure of [st] is still there in [st'], with the same captured
    objects. *)
Definition closures_kept (st st' : System) : Prop :=
  forall e ex, executors st !! e = Some ex ->
    exists ex', executors st' !! e = Some ex'
      /\ ex_bot ex' = ex_bot ex /\ ex_ws ex' = ex_ws ex /\ ex_mode ex' = ex_mode ex.

(** Whether [startBot] gives up at the live-mode confirmation, and whether
    its checks pass. *)
Definition start_abandoned (env : StartEnv) (st : System) : bool :=
  bool_decide (tm_mode (tradingMode st) = live) && negb (se_confirmed env).

Definition start_allowed (env : StartEnv) (bot : TradingBot) (st : System) : bool :=
  ws_isConnected (webSocket st)
  && JS.truthy (ws_price (webSocket st))
  && se_riskAllowed env
  && bool_decide (is_Some (createStrategy (bot_strategy bot) (cfg_parameters (bot_config bot)))).

(** A market move and a switch of mode, for the examples. *)
Definition market_moves : list Event :=
  [EvMarket priceless_market; EvLedger (CallSetMode live true)].

(** The sample bot, created and started once. *)
Definition started_once : System :=
  run [EvMarket sample_market; EvCreateBot "1" 1000 grid_bot; EvStartBot "1" (start_at 2000)]
      initialSystem.

(** ** Invariants of the bot objects and of the open positions *)

(** The prices at which the executor of [bot] trades: the price of the
    web-socket state it captured, or, for a multi-coin bot, the price of a
    recommendation. *)
Definition admissible (bot : TradingBot) (ws : WsState) (price : Q) : Prop :=
  bot_strategy bot = multi_coin \/ truthy_price (ws_price ws) = Some price.

(** [P] holds of every bot object and [G] of every open position of every
    executor, relative to the web-socket state the executor captured. *)
Definition engine_holds (P : TradingBot -> Prop) (G : WsState -> Position -> Prop)
    (st : System) : Prop :=
  Forall P (heap st)
  /\ forall e ex, executors st !! e = Some ex ->
       Forall (fun entry => G (ex_ws ex) (snd entry)) (ex_positions ex).

(** What makes [P] and [G] invariants of the engine: [P] survives the
    rewriting of a status, of a cleanup closure and of a start time, and
    the performance updates of a sale and of a purchase made by an executor
    whose captured bot satisfies it; a position opened at an admissible
    price satisfies [G]. *)
Record Preserved (P : TradingBot -> Prop) (G : WsState -> Position -> Prop) : Prop := {
  keeps_status : forall s b, P b -> P (with_status s b);
  keeps_cleanup : forall c b, P b -> P (with_cleanup c b);
  keeps_start : forall t b, P b ->
    P (with_performance (with_startTime t (bot_performance b)) b);
  keeps_sale : forall bot ws price position now b,
    P bot -> admissible bot ws price -> G ws position -> P b ->
    P (with_performance
         (merge_performance (bot_performance b)
            (sell_update bot now price (pos_amount position)
               ((price - pos_entryPrice position) * pos_amount position)) now) b);
  keeps_purchase : forall bot price amount now b,
    P bot -> P b ->
    P (with_performance
         (merge_performance (bot_performance b) (buy_update bot now price amount) now) b);
  keeps_opening : forall bot ws price amount now,
    P bot -> admissible bot ws price ->
    G ws {| pos_entryPrice := price; pos_amount := amount; pos_timestamp := now |}
}.

(** What a tick works on: the heap and the positions of its closure. *)
Definition tick_holds (P : TradingBot -> Prop) (G : WsState -> Position -> Prop)
    (ws : WsState) (acc : Executor * System) : Prop :=
  Forall P (heap (snd acc))
  /\ Forall (fun entry => G ws (snd entry)) (ex_positions (fst acc))
  /\ ex_ws (fst acc) = ws.

(** The bots an event creates satisfy [C]. *)
Definition creates (C : BotData -> Prop) (ev : Event) : Prop :=
  match ev with
  | EvCreateBot _ _ botData => C botData
  | _ => True
  end.

(** The recorded history is capped and the win rate is a percentage. *)
Definition performance_in_range (b : TradingBot) : Prop :=
  (length (perf_trades (bot_performance b)) <= 100)%nat
  /\ 0 <= perf_winRate (bot_performance b)
  /\ perf_winRate (bot_performance b) <= 100.

(** A single-symbol bot whose books show no profit, no loss and no win. *)
Definition flat_books (b : TradingBot) : Prop :=
  bot_strategy b <> multi_coin
  /\ perf_profitLoss (bot_performance b) == 0
  /\ perf_winRate (bot_performance b) == 0
  /\ Forall (fun t => trade_pnl t == 0) (perf_trades (bot_performance b)).

(** A position entered at the price of the captured web-socket state. *)
Definition at_captured_price (ws : WsState) (position : Position) : Prop :=
  forall p, truthy_price (ws_price ws) = Some p -> pos_entryPrice position = p.

Definition single_symbol (botData : BotData) : Prop := data_strategy botData <> multi_coin.

(** ** The position limit *)

(** The number of positions an executor may hold: one for a single-symbol
    strategy, [maxPositions] (and at least the one of the single-symbol
    branch) for the multi-coin strategy. *)
Definition position_cap (strategy : Strategy) : Z :=
  match strategy_maxPositions strategy with
  | Some m => Z.max 1 m
  | None => 1
  end.

(** The positions of an executor have distinct symbols and respect the
    cap. *)
Definition positions_capped (ex : Executor) : Prop :=
  NoDup (map_keys (ex_positions ex))
  /\ (map_size (ex_positions ex) <= position_cap (ex_strategy ex))%Z.

(** ** The daily trade analysis ([analyzeDailyTrades]) *)

(** [bestTrade] and [worstTrade]: the profit is absent when the day has no
    trade (the placeholder object has no [pnl]). *)
Record TradeSummary := {
  summary_type : Action;
  summary_profit : option Q;
  summary_time : Z
}.

(** The analysis, without its [date] string. *)
Record DailyTradeAnalysis := {
  daily_totalBuyVolume : Q;
  daily_totalSellVolume : Q;
  daily_totalBuyAmount : Q;
  daily_totalSellAmount : Q;
  daily_profitLoss : Q;
  daily_winRate : Q;
  daily_totalTrades : nat;
  daily_averageHoldingTime : Q;
  daily_bestTrade : TradeSummary;
  daily_worstTrade : TradeSummary
}.

Definition is_buy (t : Trade) : bool :=
  match trade_type t with buy => true | sell => false end.

Definition is_sell (t : Trade) : bool :=
  match trade_type t with sell => true | buy => false end.

(** Insertion into a list sorted by decreasing profit, before the entries
    of equal profit. *)
Fixpoint insert_by_pnl (t : Trade) (l : list Trade) : list Trade :=
  match l with
  | [] => [t]
  | x :: l' =>
      if Qle_bool (trade_pnl x) (trade_pnl t) then t :: x :: l' else x :: insert_by_pnl t l'
  end.

(** [[...todayTrades].sort((a, b) => b.pnl - a.pnl)]: the sort is stable. *)
Definition sort_by_pnl (l : list Trade) : list Trade := fold_right insert_by_pnl [] l.

(** The loop over the consecutive pairs of today's trades. *)
Fixpoint holding_loop (trades : list Trade) (totalHoldingTime : Z) (pairedTrades : nat)
  : Z * nat :=
  match trades with
  | a :: (b :: _) as rest =>
      if is_buy a && is_sell b
      then holding_loop rest (totalHoldingTime + (trade_time b - trade_time a)) (S pairedTrades)
      else holding_loop rest totalHoldingTime pairedTrades
  | _ => (totalHoldingTime, pairedTrades)
  end.

Definition summary_of (t : Trade) : TradeSummary := {|
  summary_type := trade_type t;
  summary_profit := Some (trade_pnl t);
  summary_time := trade_time t
|}.

(** [{ type: 'buy', profit: 0, time: Date.now() }], read through [.pnl]. *)
Definition placeholder_summary (now : Z) : TradeSummary := {|
  summary_type := buy;
  summary_profit := None;
  summary_time := now
|}.

(** The trades of [bot] that are not older than [today], the local
    midnight. *)
Definition todayTrades (today : Z) (bot : TradingBot) : list Trade :=
  filter (fun t => (today <= trade_time t)%Z) (perf_trades (bot_performance bot)).

(** [analyzeDailyTrades(bot)]; [today] is the local midnight and [now] the
    clock.  Nothing in the [try] block throws. *)
Definition analyzeDailyTrades (today now : Z) (bot : TradingBot) : DailyTradeAnalysis :=
  let trades := todayTrades today bot in
  let buyTrades := filter (fun t => is_buy t = true) trades in
  let sellTrades := filter (fun t => is_sell t = true) trades in
  let winningTrades := filter (fun t => JS.Qltb 0 (trade_pnl t) = true) trades in
  let sortedByProfit := sort_by_pnl trades in
  let '(totalHoldingTime, pairedTrades) := holding_loop trades 0 0 in
  {| daily_totalBuyVolume := fold_left (fun sum t => sum + trade_amount t) buyTrades 0;
     daily_totalSellVolume := fold_left (fun sum t => sum + trade_amount t) sellTrades 0;
     daily_totalBuyAmount :=
       fold_left (fun sum t => sum + trade_amount t * trade_price t) buyTrades 0;
     daily_totalSellAmount :=
       fold_left (fun sum t => sum + trade_amount t * trade_price t) sellTrades 0;
     daily_profitLoss := fold_left (fun sum t => sum + trade_pnl t) trades 0;
     daily_winRate :=
       if (0 <? length trades)%nat
       then inject_Z (Z.of_nat (length winningTrades)) / inject_Z (Z.of_nat (length trades))
       else 0;
     daily_totalTrades := length trades;
     daily_averageHoldingTime :=
       if (0 <? pairedTrades)%nat
       then inject_Z totalHoldingTime / inject_Z (Z.of_nat pairedTrades)
       else 0;
     daily_bestTrade :=
       match head sortedByProfit with
       | Some t => summary_of t
       | None => placeholder_summary now
       end;
     daily_worstTrade :=
       match last sortedByProfit with
       | Some t => summary_of t
       | None => placeholder_summary now
       end |}.

(** The lines [generateTradingSuggestions] can produce. *)
Inductive Advice :=
| AdviceLowWinRate
| AdviceGoodWinRate
| AdviceShortHolding
| AdviceLongHolding
| AdviceBuyHeavy
| AdviceSellHeavy
| AdviceLosing
| AdviceNoTrades.

(** [generateTradingSuggestions(analysis)], as the list of its lines. *)
Definition generateTradingSuggestions (analysis : DailyTradeAnalysis) : list Advice :=
  let byWinRate :=
    if JS.Qltb (daily_winRate analysis) (4 # 10) then [AdviceLowWinRate]
    else if JS.Qltb (6 # 10) (daily_winRate analysis) then [AdviceGoodWinRate]
    else [] in
  let byHoldingTime :=
    if JS.Qltb (daily_averageHoldingTime analysis) (5 * 60 * 1000) then [AdviceShortHolding]
    else if JS.Qltb (120 * 60 * 1000) (daily_averageHoldingTime analysis) then [AdviceLongHolding]
    else [] in
  let volumeRatio := JS.div (daily_totalSellVolume analysis) (daily_totalBuyVolume analysis) in
  let byVolume :=
    if JS.lt volumeRatio (JS.Fin (8 # 10)) then [AdviceBuyHeavy]
    else if JS.gt volumeRatio (JS.Fin (12 # 10)) then [AdviceSellHeavy]
    else [] in
  let byProfit := if JS.Qltb (daily_profitLoss analysis) 0 then [AdviceLosing] else [] in
  if (daily_totalTrades analysis =? 0)%nat then [AdviceNoTrades]
  else byWinRate ++ byHoldingTime ++ byVolume ++ byProfit.

(** Every trade is at most as profitable as the trades before it. *)
Fixpoint by_decreasing_pnl (l : list Trade) : Prop :=
  match l with
  | [] => True
  | t :: l' => Forall (fun x => trade_pnl x <= trade_pnl t) l' /\ by_decreasing_pnl l'
  end.

(** The order in which the executor records trades: the latest first. *)
Fixpoint newest_first (l : list Trade) : Prop :=
  match l with
  | [] => True
  | t :: l' => Forall (fun x => (trade_time x <= trade_time t)%Z) l' /\ newest_first l'
  end.

(** A bot that bought at 09:00 and sold at 10:00, recorded as the executor
    records it. *)
Definition day_trader : TradingBot := {|
  bot_id := "1"; bot_name := "grid"; bot_strategy := grid; bot_status := running;
  bot_config := data_config grid_bot;
  bot_performance := {|
    perf_startTime := Some 0%Z; perf_totalTrades := 2; perf_winRate := 0; perf_profitLoss := 0;
    perf_lastUpdate := 36000000;
    perf_trades :=
      [ {| trade_time := 36000000; trade_type := sell; trade_price := 105; trade_amount := 9;
           trade_pnl := 0; trade_strategy := grid |};
        {| trade_time := 32400000; trade_type := buy; trade_price := 105; trade_amount := 9;
           trade_pnl := 0; trade_strategy := grid |} ]
  |};
  bot_cleanup := None
|}.

(** ** IEEE 754 double-precision numbers *)

(** The numbers of JavaScript, on the specification of binary floating
    point of the standard library ([spec_float]: zeros, infinities, NaN and
    [(-1)^s * m * 2^e]), at precision 53 and maximal exponent 1024; every
    operation rounds to the nearest double, ties to even. *)
Module F64.

Definition prec : Z := 53%Z.
Definition emax : Z := 1024%Z.

Definition nan : spec_float := S754_nan.
Definition zero : spec_float := S754_zero false.

Definition add : spec_float -> spec_float -> spec_float := SFadd prec emax.
Definition sub : spec_float -> spec_float -> spec_float := SFsub prec emax.
Definition mul : spec_float -> spec_float -> spec_float := SFmul prec emax.
Definition div : spec_float -> spec_float -> spec_float := SFdiv prec emax.
Definition opp : spec_float -> spec_float := SFopp.

(** [x < y], [x <= y], [x === y], [x > y], [x >= y]: false as soon as one
    side is NaN; the two zeros are equal. *)
Definition ltb : spec_float -> spec_float -> bool := SFltb.
Definition leb : spec_float -> spec_float -> bool := SFleb.
Definition eqb : spec_float -> spec_float -> bool := SFeqb.
Definition gtb (x y : spec_float) : bool := SFltb y x.
Definition geb (x y : spec_float) : bool := SFleb y x.

(** The double nearest to an integer (the integer itself up to [2^53]). *)
Definition of_Z (n : Z) : spec_float := binary_normalize prec emax n 0 false.

(** The double a decimal literal [m / 10^digits] denotes: the quotient of
    two integers that are doubles, rounded once. *)
Definition decimal (m : Z) (digits : nat) : spec_float :=
  div (of_Z m) (of_Z (10 ^ Z.of_nat digits)).

(** The exact value of a finite double (0 for the others). *)
Definition value (x : spec_float) : Q :=
  match x with
  | S754_finite s m e =>
      if (0 <=? e)%Z then inject_Z (cond_Zopp s (Zpos m) * 2 ^ e)
      else Qmake (cond_Zopp s (Zpos m)) (Z.to_pos (2 ^ (- e)))
  | _ => 0
  end.

Definition is_finite (x : spec_float) : bool :=
  match x with
  | S754_zero _ | S754_finite _ _ _ => true
  | _ => false
  end.

(** Truthiness of a number: neither a zero nor NaN. *)
Definition truthy (x : spec_float) : bool :=
  match x with
  | S754_zero _ | S754_nan => false
  | _ => true
  end.

(** The integer [Math.floor] finds, on the exact value of a finite
    double. *)
Definition floor_Z (x : spec_float) : Z :=
  match x with
  | S754_finite s m e =>
      if (0 <=? e)%Z then (cond_Zopp s (Zpos m) * 2 ^ e)%Z
      else (cond_Zopp s (Zpos m) / 2 ^ (- e))%Z
  | _ => 0%Z
  end.

(** [Math.floor]: a double with no fractional bit is its own floor; a
    positive number below 1 gives [+0]. *)
Definition floor (x : spec_float) : spec_float :=
  match x with
  | S754_finite s m e =>
      if (0 <=? e)%Z then x
      else if (floor_Z x =? 0)%Z then S754_zero s else of_Z (floor_Z x)
  | _ => x
  end.

(** The integer [Math.round] finds: [floor(x + 1/2)] on the exact value,
    halves towards +infinity. *)
Definition round_Z (x : spec_float) : Z :=
  match x with
  | S754_finite s m e =>
      if (0 <=? e)%Z then (cond_Zopp s (Zpos m) * 2 ^ e)%Z
      else ((2 * cond_Zopp s (Zpos m) + 2 ^ (- e)) / (2 * 2 ^ (- e)))%Z
  | _ => 0%Z
  end.

(** [Math.round]; a result of zero keeps the sign of [x]. *)
Definition round (x : spec_float) : spec_float :=
  match x with
  | S754_finite s m e =>
      if (0 <=? e)%Z then x
      else if (round_Z x =? 0)%Z then S754_zero s else of_Z (round_Z x)
  | _ => x
  end.

(** [x % 2 === 0]: the remainder of an infinity or of NaN is NaN; the
    remainder of a finite number is exact and is zero for the even integers
    only. *)
Definition mod2_is_zero (x : spec_float) : bool :=
  match x with
  | S754_zero _ => true
  | S754_finite _ m e => if (1 <=? e)%Z then true else (Zpos m mod 2 ^ (1 - e) =? 0)%Z
  | _ => false
  end.

(** [Math.min(x, y)] and [Math.max(x, y)]: NaN when one argument is NaN;
    [-0] is below [+0]. *)
Definition min (x y : spec_float) : spec_float :=
  match SFcompare x y with
  | None => S754_nan
  | Some Lt => x
  | Some Gt => y
  | Some Eq => match x with S754_zero true => x | _ => y end
  end.

Definition max (x y : spec_float) : spec_float :=
  match SFcompare x y with
  | None => S754_nan
  | Some Lt => y
  | Some Gt => x
  | Some Eq => match x with S754_zero false => x | _ => y end
  end.

(** A double in canonical form, as every operation returns it. *)
Definition is_double (x : spec_float) : bool := valid_binary prec emax x.

End F64.

(** ** The numeric functions in double precision *)

(** The functions of the source whose answer depends on rounding, with the
    arithmetic of JavaScript. *)
Module Rounded.

(** [calculateTradeAmount]. *)
Definition calculateTradeAmount (maxPositionSize currentPrice availableBalance : spec_float)
  : spec_float :=
  let maxAmount := F64.div availableBalance currentPrice in
  if F64.ltb maxPositionSize currentPrice then
    F64.min (F64.of_Z 1) maxAmount
  else
    let amount := F64.floor (F64.div maxPositionSize currentPrice) in
    F64.min amount maxAmount.

(** [calculateWinRate]. *)
Definition calculateWinRate (currentWinRate totalTrades : spec_float) (isWin : bool) : spec_float :=
  let totalWins :=
    F64.div (F64.add (F64.mul currentWinRate totalTrades) (F64.of_Z (if isWin then 100 else 0)))
            (F64.add totalTrades (F64.of_Z 1)) in
  F64.div (F64.round (F64.mul totalWins (F64.of_Z 100))) (F64.of_Z 100).

(** A candle and the object handed to [analyze].  A field that is missing
    is [None]; [md_klines] is [None] when the field is not an array. *)
Record Kline := {
  k_time : Z;
  k_open : spec_float;
  k_high : spec_float;
  k_low : spec_float;
  k_close : spec_float;
  k_volume : spec_float
}.

Record MarketData := {
  md_price : option spec_float;
  md_klines : option (list Kline);
  md_volume : option spec_float;
  md_timestamp : Z
}.

(** [BaseStrategy.validateData]: a price that is missing, NaN or a zero is
    falsy. *)
Definition validateData (marketData : option MarketData) : Result unit :=
  match marketData with
  | None => Throw InvalidMarketData
  | Some md =>
      if negb (from_option F64.truthy false (md_price md))
         || negb (bool_decide (is_Some (md_klines md)))
      then Throw InvalidMarketData
      else Ok tt
  end.

(** Field reads on a snapshot that passed [validateData]. *)
Definition price_of (marketData : option MarketData) : spec_float :=
  match marketData with
  | Some md => default F64.nan (md_price md)
  | None => F64.nan
  end.

Definition klines_of (marketData : option MarketData) : list Kline :=
  match marketData with
  | Some md => default [] (md_klines md)
  | None => []
  end.

(** [reduce((sum, price) => sum + price, 0)]: the closes are added one by
    one, oldest first, each sum rounded. *)
Definition sum_prices (prices : list spec_float) : spec_float :=
  fold_left F64.add prices F64.zero.

(** [MACrossStrategy.calculateMA], for an integer period. *)
Definition calculateMA (prices : list spec_float) (period : Z) : spec_float :=
  let slice := slice_from (- period) prices in
  F64.div (sum_prices slice) (F64.of_Z period).

(** The fields of the two strategy classes whose answer is a comparison of
    computed numbers. *)
Inductive Strategy :=
| MACrossStrategy (fastPeriod slowPeriod signalPeriod : Z)
| GridStrategy (upperPrice lowerPrice gridLines gridSize : spec_float).

(** [new GridStrategy(parameters)]. *)
Definition newGridStrategy (upperPrice lowerPrice gridLines : spec_float) : Strategy :=
  GridStrategy upperPrice lowerPrice gridLines
               (F64.div (F64.sub upperPrice lowerPrice) gridLines).

(** [strategy.analyze(marketData)]: the answer ([None] for [null]) or the
    exception. *)
Definition analyze (strategy : Strategy) (marketData : option MarketData)
  : Result (option Action) :=
  match strategy with
  | MACrossStrategy fastPeriod slowPeriod _ =>
      match validateData marketData with
      | Throw e => Throw e
      | Ok _ =>
          let klines := klines_of marketData in
          if (js_length klines <? slowPeriod)%Z then Ok None
          else
            let prices := map k_close klines in
            let fastMA := calculateMA prices fastPeriod in
            let slowMA := calculateMA prices slowPeriod in
            if F64.gtb fastMA slowMA then Ok (Some buy)
            else if F64.ltb fastMA slowMA then Ok (Some sell)
            else Ok None
      end
  | GridStrategy _ lowerPrice _ gridSize =>
      match validateData marketData with
      | Throw e => Throw e
      | Ok _ =>
          let currentPrice := price_of marketData in
          let gridPosition := F64.floor (F64.div (F64.sub currentPrice lowerPrice) gridSize) in
          if F64.mod2_is_zero gridPosition then Ok (Some buy) else Ok (Some sell)
      end
  end.

(** The last [n] closes, and their simple moving average in double
    arithmetic: the closes added oldest first, then one division. *)
Definition last_closes (n : nat) (closes : list spec_float) : list spec_float :=
  drop (length closes - n) closes.

Definition sma (n : nat) (closes : list spec_float) : spec_float :=
  F64.div (sum_prices (last_closes n closes)) (F64.of_Z (Z.of_nat n)).

(** A candle that closes at [c], and a snapshot with the given price and
    closes. *)
Definition kline_of_close (c : spec_float) : Kline := {|
  k_time := 0; k_open := c; k_high := c; k_low := c; k_close := c; k_volume := F64.zero
|}.

Definition snapshot_with (price : spec_float) (closes : list spec_float) : option MarketData :=
  Some {| md_price := Some price; md_klines := Some (map kline_of_close closes);
          md_volume := Some F64.zero; md_timestamp := 0 |}.

(** The names every object inherits from [Object.prototype]: a read of one
    of them on a balance object that has no such entry of its own finds a
    function (for [__proto__], the prototype object). *)
Definition objectPrototypeKeys : list string :=
  ["constructor"; "hasOwnProperty"; "isPrototypeOf"; "propertyIsEnumerable";
   "toLocaleString"; "toString"; "valueOf"; "__proto__";
   "__defineGetter__"; "__defineSetter__"; "__lookupGetter__"; "__lookupSetter__"]%string.

(** What [object[key]] finds. *)
Inductive Property :=
| OwnNumber (v : spec_float)
| Inherited
| Undefined.

Definition inherits (key : string) : bool := bool_decide (key ∈ objectPrototypeKeys).

Definition get_property (object : gmap string spec_float) (key : string) : Property :=
  match object !! key with
  | Some v => OwnNumber v
  | None => if inherits key then Inherited else Undefined
  end.

(** The balance ledger: the mode and one currency-to-balance object per
    mode. *)
Record TradingModeStore := {
  tm_mode : TradingMode;
  tm_balance_demo : gmap string spec_float;
  tm_balance_live : gmap string spec_float
}.

Definition initialTradingMode : TradingModeStore := {|
  tm_mode := demo;
  tm_balance_demo := {[ "USDT"%string := F64.of_Z 100000 ]};
  tm_balance_live :=
    <[ "USDT"%string := F64.zero ]> (<[ "BTC"%string := F64.zero ]> {[ "ETH"%string := F64.zero ]})
|}.

Definition balance_of (mode : TradingMode) (st : TradingModeStore) : gmap string spec_float :=
  match mode with
  | demo => tm_balance_demo st
  | live => tm_balance_live st
  end.

Definition set_balance_of (mode : TradingMode) (b : gmap string spec_float)
    (st : TradingModeStore) : TradingModeStore :=
  match mode with
  | demo => {| tm_mode := tm_mode st; tm_balance_demo := b; tm_balance_live := tm_balance_live st |}
  | live => {| tm_mode := tm_mode st; tm_balance_demo := tm_balance_demo st; tm_balance_live := b |}
  end.

(** [x || 0] on what a read found: a number that is a zero or NaN is
    replaced by 0, a function is kept. *)
Definition or_zero (v : spec_float) : spec_float := if F64.truthy v then v else F64.zero.

(** [object[key] || 0]: a number, or the inherited function, which is
    truthy. *)
Inductive Value :=
| Number (v : spec_float)
| Function.

Definition read_or_zero (p : Property) : Value :=
  match p with
  | OwnNumber v => Number (or_zero v)
  | Undefined => Number F64.zero
  | Inherited => Function
  end.

(** [Math.max(0, (state.balance[mode][currency] || 0) + amount)].  With an
    inherited function on the left, [+] concatenates two texts, and
    [Math.max] turns the text, which is no numeral, into NaN. *)
Definition new_balance (object : gmap string spec_float) (currency : string)
    (amount : spec_float) : spec_float :=
  match read_or_zero (get_property object currency) with
  | Number old => F64.max F64.zero (F64.add old amount)
  | Function => F64.nan
  end.

(** [updateBalance(currency, amount)]: the new object has the entries of
    the old one and the new balance as an entry of its own. *)
Definition updateBalance (currency : string) (amount : spec_float) (st : TradingModeStore)
  : TradingModeStore :=
  let mode := tm_mode st in
  set_balance_of mode
    (<[ currency := new_balance (balance_of mode st) currency amount ]> (balance_of mode st)) st.

(** [getBalance(currency)]: [balance[mode][currency] || 0]. *)
Definition getBalance (currency : string) (st : TradingModeStore) : Value :=
  read_or_zero (get_property (balance_of (tm_mode st) st) currency).

(** [setMode(mode)]: a switch to live needs an active account and the
    user's confirmation ([allowed]). *)
Definition setMode (mode : TradingMode) (allowed : bool) (st : TradingModeStore)
  : TradingModeStore :=
  match mode with
  | live =>
      if allowed
      then {| tm_mode := live; tm_balance_demo := tm_balance_demo st;
              tm_balance_live := tm_balance_live st |}
      else st
  | demo => {| tm_mode := demo; tm_balance_demo := tm_balance_demo st;
               tm_balance_live := tm_balance_live st |}
  end.

(** A caller of the ledger. *)
Inductive LedgerCall :=
| CallUpdateBalance (currency : string) (amount : spec_float)
| CallSetMode (mode : TradingMode) (allowed : bool).

Definition ledger_call (st : TradingModeStore) (c : LedgerCall) : TradingModeStore :=
  match c with
  | CallUpdateBalance currency amount => updateBalance currency amount st
  | CallSetMode mode allowed => setMode mode allowed st
  end.

Definition ledger_run (calls : list LedgerCall) (st : TradingModeStore) : TradingModeStore :=
  fold_left ledger_call calls st.

(** Every stored balance, in both modes, is at least zero. *)
Definition balances_nonneg (st : TradingModeStore) : Prop :=
  forall (mode : TradingMode) (currency : string) (v : spec_float),
    balance_of mode st !! currency = Some v -> F64.leb F64.zero v = true.

(** A call whose currency is no inherited name and whose amount is a number
    other than NaN and -Infinity. *)
Definition plain_call (c : LedgerCall) : Prop :=
  match c with
  | CallUpdateBalance currency amount =>
      inherits currency = false /\ amount <> S754_nan /\ amount <> S754_infinity true
  | CallSetMode _ _ => True
  end.

(** The limits and the daily result of the risk store, the order fields
    the check reads (a field the caller leaves out is [None]), and the
    verdict with the numbers its [reason] quotes. *)
Record RiskLimits := {
  lim_maxOrderValue : spec_float;
  lim_maxDailyLoss : spec_float;
  lim_maxLeverage : spec_float;
  lim_stopLossPercentage : spec_float;
  lim_takeProfitPercentage : spec_float
}.

Record RiskStore := {
  risk_limits : RiskLimits;
  risk_dailyPnL : spec_float
}.

Definition initialRiskStore : RiskStore := {|
  risk_limits := {|
    lim_maxOrderValue := F64.of_Z 20000; lim_maxDailyLoss := F64.of_Z 1000;
    lim_maxLeverage := F64.of_Z 3;
    lim_stopLossPercentage := F64.of_Z 5; lim_takeProfitPercentage := F64.of_Z 10
  |};
  risk_dailyPnL := F64.zero
|}.

(** [updateLimits(newLimits)]: the fields of [newLimits] replace those of
    the stored limits. *)
Record LimitsUpdate := {
  new_maxOrderValue : option spec_float;
  new_maxDailyLoss : option spec_float;
  new_maxLeverage : option spec_float;
  new_stopLossPercentage : option spec_float;
  new_takeProfitPercentage : option spec_float
}.

Definition updateLimits (newLimits : LimitsUpdate) (rs : RiskStore) : RiskStore := {|
  risk_limits := {|
    lim_maxOrderValue :=
      default (lim_maxOrderValue (risk_limits rs)) (new_maxOrderValue newLimits);
    lim_maxDailyLoss :=
      default (lim_maxDailyLoss (risk_limits rs)) (new_maxDailyLoss newLimits);
    lim_maxLeverage :=
      default (lim_maxLeverage (risk_limits rs)) (new_maxLeverage newLimits);
    lim_stopLossPercentage :=
      default (lim_stopLossPercentage (risk_limits rs)) (new_stopLossPercentage newLimits);
    lim_takeProfitPercentage :=
      default (lim_takeProfitPercentage (risk_limits rs)) (new_takeProfitPercentage newLimits)
  |};
  risk_dailyPnL := risk_dailyPnL rs
|}.

Record Order := {
  order_price : spec_float;
  order_amount : spec_float;
  order_leverage : option spec_float;
  order_stopLoss : option spec_float;
  order_type : option Action
}.

Inductive RiskCheck :=
| RiskAllowed
| RiskOrderValue (orderValue limit : spec_float)
| RiskDailyLoss (limit : spec_float)
| RiskLeverage (leverage limit : spec_float)
| RiskNoStopLoss (recommendedStopLoss : spec_float).

(** [checkOrderRisk(order)]; a leverage, or a stop-loss, that is missing
    compares as NaN and is falsy. *)
Definition checkOrderRisk (rs : RiskStore) (order : Order) : RiskCheck :=
  let limits := risk_limits rs in
  let orderValue := F64.mul (order_price order) (order_amount order) in
  if F64.gtb orderValue (lim_maxOrderValue limits) then
    RiskOrderValue orderValue (lim_maxOrderValue limits)
  else if F64.ltb (risk_dailyPnL rs) (F64.opp (lim_maxDailyLoss limits)) then
    RiskDailyLoss (lim_maxDailyLoss limits)
  else if F64.gtb (default F64.nan (order_leverage order)) (lim_maxLeverage limits) then
    RiskLeverage (default F64.nan (order_leverage order)) (lim_maxLeverage limits)
  else if negb (from_option F64.truthy false (order_stopLoss order)) then
    RiskNoStopLoss
      (match order_type order with
       | Some buy =>
           F64.mul (order_price order)
             (F64.sub (F64.of_Z 1) (F64.div (lim_stopLossPercentage limits) (F64.of_Z 100)))
       | _ =>
           F64.mul (order_price order)
             (F64.add (F64.of_Z 1) (F64.div (lim_stopLossPercentage limits) (F64.of_Z 100)))
       end)
  else RiskAllowed.

(** What the settings page sends when the field of the largest order value
    is emptied: [parseFloat] of the empty text. *)
Definition emptied_maxOrderValue : LimitsUpdate := {|
  new_maxOrderValue := Some F64.nan; new_maxDailyLoss := None; new_maxLeverage := None;
  new_stopLossPercentage := None; new_takeProfitPercentage := None
|}.

End Rounded.

(** ** A switch of mode under a running executor *)

(** A grid bot on BTC/USDT whose start order (150 units at 105) is within
    the limits of the initial risk store, and the object [createBot] puts in
    the store for it. *)
Definition small_grid_bot : BotData := {|
  data_name := "grid";
  data_strategy := grid;
  data_config := {|
    cfg_symbol := "BTC/USDT"; cfg_interval := "1m"; cfg_riskLevel := risk_medium;
    cfg_maxPositionSize := 150; cfg_stopLoss := 5; cfg_takeProfit := 10;
    cfg_parameters := GridParameters 200 100 10
  |}
|}.

Definition created_small_bot : TradingBot := {|
  bot_id := "1"; bot_name := data_name small_grid_bot; bot_strategy := data_strategy small_grid_bot;
  bot_status := stopped; bot_config := data_config small_grid_bot;
  bot_performance := {| perf_startTime := None; perf_totalTrades := 0; perf_winRate := 0;
                        perf_profitLoss := 0; perf_lastUpdate := 1000; perf_trades := [] |};
  bot_cleanup := None
|}.

(** The bot is created and started twice in live mode, each start passing
    the check of the initial risk store; then the user switches to demo
    mode.  The second executor (index 1) captured a running bot object and
    the live mode. *)
Definition switched_trace : list Event :=
  [EvMarket sample_market;
   EvLedger (CallSetMode live true);
   EvCreateBot "1" 1000 small_grid_bot;
   EvStartBot "1" (checked_start 2000 true initialRiskStore created_small_bot 105);
   EvStartBot "1" (checked_start 3000 true initialRiskStore created_small_bot 105);
   EvLedger (CallSetMode demo true)].

Definition switched_engine : System := run switched_trace initialSystem.

(** * Proofs *)

(** ** Numbers and helpers *)

Lemma Qltb_iff (x y : Q) : JS.Qltb x y = true <-> (x < y)%Q.
Proof.
  unfold JS.Qltb. rewrite negb_true_iff. split.
  - intros H. apply Qnot_le_lt. intros Hle.
    apply Qle_bool_iff in Hle. congruence.
  - intros H. destruct (Qle_bool y x) eqn:E; [|reflexivity].
    apply Qle_bool_iff in E. exfalso. apply (Qlt_not_le _ _ H E).
Qed.

Lemma Qltb_false_iff (x y : Q) : JS.Qltb x y = false <-> (y <= x)%Q.
Proof.
  unfold JS.Qltb. rewrite negb_false_iff. apply Qle_bool_iff.
Qed.

(** ** Strategies *)

Lemma validateData_Ok (marketData : option MarketData) :
  validateData marketData = Ok tt <->
  exists md p ks, marketData = Some md /\ md_price md = Some p /\ ~ p == 0 /\ md_klines md = Some ks.
Proof.
  unfold validateData. split.
  - destruct marketData as [md|]; [|discriminate].
    destruct (md_price md) as [p|] eqn:Hp; cbn; [|discriminate].
    destruct (Qeq_bool p 0) eqn:Hz; cbn; [discriminate|].
    destruct (md_klines md) as [ks|] eqn:Hk; cbn; [|discriminate].
    intros _. exists md, p, ks. repeat split; try assumption.
    intros H0. apply Qeq_bool_iff in H0. congruence.
  - intros (md & p & ks & -> & Hp & Hnz & Hk). rewrite Hp, Hk. cbn.
    destruct (Qeq_bool p 0) eqn:Hz; [|reflexivity].
    apply Qeq_bool_iff in Hz. exfalso. exact (Hnz Hz).
Qed.

Lemma validateData_cases (marketData : option MarketData) :
  validateData marketData = Ok tt \/ validateData marketData = Throw InvalidMarketData.
Proof.
  unfold validateData. destruct marketData as [md|]; [|now right].
  destruct (negb _ || negb _); [now right | now left].
Qed.

Lemma Qeq_bool_congr (x y : Q) : x == y -> Qeq_bool x 0 = Qeq_bool y 0.
Proof.
  intros H. destruct (Qeq_bool x 0) eqn:Ex, (Qeq_bool y 0) eqn:Ey; try reflexivity.
  - apply Qeq_bool_iff in Ex. rewrite H in Ex. apply Qeq_bool_iff in Ex. congruence.
  - apply Qeq_bool_iff in Ey. rewrite <- H in Ey. apply Qeq_bool_iff in Ey. congruence.
Qed.

Lemma Qle_bool_congr (x y t : Q) : x == y -> Qle_bool x t = Qle_bool y t /\ Qle_bool t x = Qle_bool t y.
Proof.
  intros H. split.
  - destruct (Qle_bool x t) eqn:Ex, (Qle_bool y t) eqn:Ey; try reflexivity.
    + apply Qle_bool_iff in Ex. rewrite H in Ex. apply Qle_bool_iff in Ex. congruence.
    + apply Qle_bool_iff in Ey. rewrite <- H in Ey. apply Qle_bool_iff in Ey. congruence.
  - destruct (Qle_bool t x) eqn:Ex, (Qle_bool t y) eqn:Ey; try reflexivity.
    + apply Qle_bool_iff in Ex. rewrite H in Ex. apply Qle_bool_iff in Ex. congruence.
    + apply Qle_bool_iff in Ey. rewrite <- H in Ey. apply Qle_bool_iff in Ey. congruence.
Qed.

(** The loop of [calculateRSI] adds up the rises and the falls of every
    consecutive pair of the array it is given. *)
Lemma rsi_loop_sums (rest : list Q) (previous g l : Q) :
  fst (rsi_loop previous rest g l) == g + StrategySpec.gains (previous :: rest)
  /\ snd (rsi_loop previous rest g l) == l + StrategySpec.losses (previous :: rest).
Proof.
  revert previous g l. induction rest as [|p rest IH]; intros previous g l.
  - cbn. split; ring.
  - cbn [rsi_loop]. change (StrategySpec.gains (previous :: p :: rest))
      with (Qmax 0 (p - previous) + StrategySpec.gains (p :: rest)).
    change (StrategySpec.losses (previous :: p :: rest))
      with (Qmax 0 (previous - p) + StrategySpec.losses (p :: rest)).
    destruct (Qle_bool 0 (p - previous)) eqn:E.
    + apply Qle_bool_iff in E.
      destruct (IH p (g + (p - previous)) l) as [Hg Hl]. rewrite Hg, Hl.
      rewrite (Q.max_r 0 (p - previous)) by exact E.
      rewrite (Q.max_l 0 (previous - p)) by lra.
      split; ring.
    + assert (Hlt : p - previous < 0).
      { apply Qnot_le_lt. intros H. apply Qle_bool_iff in H. congruence. }
      destruct (IH p g (l - (p - previous))) as [Hg Hl]. rewrite Hg, Hl.
      rewrite (Q.max_l 0 (p - previous)) by lra.
      rewrite (Q.max_r 0 (previous - p)) by lra.
      split; ring.
Qed.

Lemma rsi_sums_spec (prices : list Q) :
  fst (rsi_sums prices) == StrategySpec.gains prices
  /\ snd (rsi_sums prices) == StrategySpec.losses prices.
Proof.
  destruct prices as [|p0 rest]; cbn [rsi_sums].
  - cbn. split; reflexivity.
  - destruct (rsi_loop_sums rest p0 0 0) as [Hg Hl]. rewrite Hg, Hl. split; ring.
Qed.

(** What the source computes: the RSI of all the closes it is given. *)
Lemma calculateRSI_whole_array (prices : list Q) :
  calculateRSI prices == StrategySpec.rsi prices.
Proof.
  unfold calculateRSI, StrategySpec.rsi.
  destruct (rsi_sums_spec prices) as [Hg Hl].
  destruct (rsi_sums prices) as [g l]. cbn [fst snd] in Hg, Hl.
  rewrite (Qeq_bool_congr _ _ Hl).
  destruct (Qeq_bool (StrategySpec.losses prices) 0) eqn:E; [reflexivity|].
  rewrite Hg, Hl. reflexivity.
Qed.

Lemma losses_increasing (closes : list Q) :
  StrategySpec.strictly_increasing closes -> StrategySpec.losses closes == 0.
Proof.
  induction closes as [|a [|b rest] IH]; intros H; try reflexivity.
  change (StrategySpec.losses (a :: b :: rest))
    with (Qmax 0 (a - b) + StrategySpec.losses (b :: rest)).
  destruct H as [Hab Hrest]. rewrite (IH Hrest).
  rewrite (Q.max_l 0 (a - b)) by lra. ring.
Qed.

(** Strictly increasing closes have no loss: the source returns exactly
    100, and the answer is sell for thresholds [oversold < 100] and
    [overbought <= 100]. *)
Lemma rsi_increasing_sell (env : AnalyzeEnv) (period : Z) (overbought oversold : Q)
    (marketData : option MarketData) :
  validateData marketData = Ok tt ->
  (period + 1 <= js_length (klines_of marketData))%Z ->
  StrategySpec.strictly_increasing (map k_close (klines_of marketData)) ->
  oversold < 100 -> overbought <= 100 ->
  calculateRSI (map k_close (klines_of marketData)) = 100
  /\ fst (analyze env (RSIStrategy period overbought oversold) marketData) = Ok (Some (SigAction sell)).
Proof.
  intros Hvalid Hlen Hinc Hos Hob.
  assert (Hrsi : calculateRSI (map k_close (klines_of marketData)) = 100).
  { unfold calculateRSI.
    destruct (rsi_sums_spec (map k_close (klines_of marketData))) as [_ Hl].
    destruct (rsi_sums _) as [g l]. cbn [snd] in Hl.
    rewrite (Qeq_bool_congr _ _ Hl).
    rewrite (proj2 (Qeq_bool_iff _ _) (losses_increasing _ Hinc)). reflexivity. }
  split; [exact Hrsi|].
  unfold analyze. rewrite Hvalid.
  destruct (Z.ltb_spec (js_length (klines_of marketData)) (period + 1)); [lia|].
  rewrite Hrsi.
  destruct (Qle_bool 100 oversold) eqn:E1.
  - apply Qle_bool_iff in E1. lra.
  - rewrite (proj2 (Qle_bool_iff _ _) Hob). reflexivity.
Qed.

(** When there are exactly [period + 1] klines the source and the
    specification agree. *)
Lemma rsi_exact_window (env : AnalyzeEnv) (period : Z) (overbought oversold : Q)
    (marketData : option MarketData) :
  validateData marketData = Ok tt ->
  (0 <= period)%Z ->
  js_length (klines_of marketData) = (period + 1)%Z ->
  fst (analyze env (RSIStrategy period overbought oversold) marketData)
  = Ok (SigAction <$> StrategySpec.rsi_signal (Z.to_nat period) overbought oversold
                        (map k_close (klines_of marketData))).
Proof.
  intros Hvalid Hp Hlen. unfold analyze. rewrite Hvalid.
  destruct (Z.ltb_spec (js_length (klines_of marketData)) (period + 1)); [lia|].
  unfold StrategySpec.rsi_signal, StrategySpec.rsi_over_period, StrategySpec.last_closes.
  assert (Hd : (length (map k_close (klines_of marketData)) - (Z.to_nat period + 1) = 0)%nat).
  { rewrite length_map. unfold js_length in Hlen. lia. }
  rewrite Hd, drop_0.
  pose proof (calculateRSI_whole_array (map k_close (klines_of marketData))) as Hr.
  destruct (Qle_bool_congr _ _ oversold Hr) as [H1 _].
  destruct (Qle_bool_congr _ _ overbought Hr) as [_ H2].
  cbv zeta. rewrite H1, H2. clear H1 H2.
  destruct (Qle_bool (StrategySpec.rsi _) oversold); [reflexivity|].
  destruct (Qle_bool overbought (StrategySpec.rsi _)); reflexivity.
Qed.

(** C7 (failing input): with [period = 1] and closes 2, 4, 3 the klines
    suffice ([3 >= period + 1]).  The RSI over the last [period + 1] closes
    (4, 3) is 0, which means buy (over the first two, 2 and 4, it is 100,
    which means sell); the source sums over the three closes, finds 200/3 and
    answers nothing. *)
Theorem C7_rsi_ignores_period :
  (1 + 1 <= js_length (klines_of (snapshot_with 3 rise_then_fall)))%Z
  /\ fst (analyze quiet_call (RSIStrategy 1 70 30) (snapshot_with 3 rise_then_fall)) = Ok None
  /\ calculateRSI rise_then_fall == 200 # 3
  /\ StrategySpec.rsi_over_period 1 rise_then_fall == 0
  /\ StrategySpec.rsi_signal 1 70 30 rise_then_fall = Some buy
  /\ StrategySpec.rsi (take 2 rise_then_fall) == 100.
Proof.
  repeat apply conj; vm_compute; reflexivity || discriminate.
Qed.

Lemma validateData_Throw (marketData : option MarketData) :
  validateData marketData = Throw InvalidMarketData <->
  marketData = None
  \/ exists md, marketData = Some md
       /\ (md_price md = None \/ (exists p, md_price md = Some p /\ p == 0) \/ md_klines md = None).
Proof.
  unfold validateData. split.
  - destruct marketData as [md|]; [|now left]. intros H. right. exists md. split; [reflexivity|].
    destruct (md_price md) as [p|]; [|now left]. cbn in H.
    destruct (Qeq_bool p 0) eqn:Hz.
    + right; left. exists p. split; [reflexivity|]. now apply Qeq_bool_iff.
    + destruct (md_klines md); [discriminate H | now right; right].
  - intros [-> | (md & -> & [Hp | [(p & Hp & Hz) | Hk]])]; [reflexivity| | |].
    + rewrite Hp. reflexivity.
    + rewrite Hp. cbn. rewrite (proj2 (Qeq_bool_iff _ _) Hz). reflexivity.
    + rewrite Hk. cbn. rewrite orb_true_r. reflexivity.
Qed.

Lemma analyze_invalid (env : AnalyzeEnv) (strategy : Strategy) (marketData : option MarketData) :
  is_multi_coin strategy = false ->
  validateData marketData = Throw InvalidMarketData ->
  fst (analyze env strategy marketData) = Throw InvalidMarketData.
Proof.
  intros Hm Hv. destruct strategy; try discriminate Hm; cbn [analyze]; rewrite Hv; reflexivity.
Qed.

Lemma analyze_valid (env : AnalyzeEnv) (strategy : Strategy) (marketData : option MarketData) :
  is_multi_coin strategy = false ->
  validateData marketData = Ok tt ->
  exists answer, fst (analyze env strategy marketData) = Ok answer.
Proof.
  intros Hm Hv. destruct strategy; try discriminate Hm; cbn [analyze]; rewrite Hv.
  - destruct (_ <? _)%Z; [eauto|]. cbv zeta.
    destruct (JS.gt _ _); [eauto|]. destruct (JS.lt _ _); eauto.
  - destruct (_ <? _)%Z; [eauto|]. cbv zeta.
    destruct (Qle_bool _ _); [eauto|]. destruct (Qle_bool _ _); eauto.
  - cbv zeta. destruct (JS.mod2_is_zero _); eauto.
  - cbv zeta. destruct (JS.Qltb _ _); eauto.
  - eauto.
Qed.

Lemma analyze_multi_coin_never_throws (env : AnalyzeEnv) (strategy : Strategy)
    (marketData : option MarketData) :
  is_multi_coin strategy = true ->
  exists answer, fst (analyze env strategy marketData) = Ok answer.
Proof.
  intros Hm. destruct strategy; try discriminate Hm. cbn [analyze].
  destruct (_ <? _)%Z; [eauto|]. destruct (ae_analysis env); eauto.
Qed.

(** C10 as stated fails: a negative price passes the validation (the Grid
    strategy answers sell at price -5), and the multi-coin strategy does not
    validate at all (it answers nothing on a snapshot with price 0 and no
    klines array). *)
Lemma C10_counterexample :
  (-5 <= 0
   /\ fst (analyze quiet_call (newGridStrategy 200 100 10) (snapshot_with (-5) []))
      = Ok (Some (SigAction sell)))
  /\ fst (analyze quiet_call (newMultiCoinStrategy 0 0 0)
            (Some {| md_price := Some 0; md_klines := None; md_volume := None; md_timestamp := 0 |}))
     = Ok None.
Proof.
  split; [split|].
  - discriminate.
  - reflexivity.
  - reflexivity.
Qed.

(** C10 (amended): [validateData] throws exactly when the snapshot is
    missing, its price is absent, NaN or zero, or its klines are not an array;
    each of the five single-symbol strategies throws that error on such a
    snapshot and answers without throwing on every other one, negative prices
    included; the multi-coin strategy never validates and never throws. *)
Theorem C10_validation (env : AnalyzeEnv) (strategy : Strategy) (marketData : option MarketData) :
  (validateData marketData = Throw InvalidMarketData <->
     marketData = None
     \/ exists md, marketData = Some md
          /\ (md_price md = None \/ (exists p, md_price md = Some p /\ p == 0)
              \/ md_klines md = None))
  /\ (validateData marketData = Ok tt <->
      exists md p ks, marketData = Some md /\ md_price md = Some p /\ ~ p == 0
                      /\ md_klines md = Some ks)
  /\ (is_multi_coin strategy = false ->
      (validateData marketData = Throw InvalidMarketData ->
         fst (analyze env strategy marketData) = Throw InvalidMarketData)
      /\ (validateData marketData = Ok tt ->
         exists answer, fst (analyze env strategy marketData) = Ok answer))
  /\ (is_multi_coin strategy = true ->
      exists answer, fst (analyze env strategy marketData) = Ok answer).
Proof.
  split; [apply validateData_Throw|].
  split; [apply validateData_Ok|].
  split.
  - intros Hm. split.
    + apply analyze_invalid; assumption.
    + apply analyze_valid; assumption.
  - apply analyze_multi_coin_never_throws.
Qed.

(** ** The ledger *)

Lemma updateBalance_mode (currency : string) (amount : Q) (st : TradingModeStore) :
  tm_mode (updateBalance currency amount st) = tm_mode st.
Proof. unfold updateBalance, set_balance_of. destruct (tm_mode st); reflexivity. Qed.

(** ** The bot store *)

Lemma valid_store_app (h ext : list TradingBot) (bs : list nat) :
  valid_store h bs -> valid_store (h ++ ext) bs.
Proof.
  unfold valid_store. intros H. eapply Forall_impl; [exact H|].
  intros a Ha. cbn in Ha. rewrite length_app. lia.
Qed.

Lemma view_app (h ext : list TradingBot) (bs : list nat) :
  valid_store h bs -> view (h ++ ext) bs = view h bs.
Proof.
  unfold valid_store, view. induction 1 as [|a bs Ha _ IH]; cbn; [reflexivity|].
  rewrite IH. f_equal. apply lookup_app_l. exact Ha.
Qed.

(** [map_bots] only appends to the heap; the new array shows [f] applied to
    the bots with the given id and the others unchanged; and no address of
    the new array is an old address of a bot with that id. *)
Lemma map_bots_spec (id : string) (f : TradingBot -> TradingBot)
    (bs : list nat) (h : list TradingBot) :
  valid_store h bs ->
  exists ext,
    fst (map_bots id f h bs) = h ++ ext
    /\ valid_store (h ++ ext) (snd (map_bots id f h bs))
    /\ view (h ++ ext) (snd (map_bots id f h bs)) = map (fmap (on_id id f)) (view h bs)
    /\ Forall (fun a' => (length h <= a')%nat \/ exists b, h !! a' = Some b /\ bot_id b <> id)
              (snd (map_bots id f h bs)).
Proof.
  revert h. induction bs as [|a bs IH]; intros h Hv.
  - exists []. cbn. rewrite app_nil_r. repeat split; constructor.
  - apply Forall_cons in Hv as [Ha Hv].
    destruct (lookup_lt_is_Some_2 h a Ha) as [b Hb].
    cbn [map_bots]. rewrite Hb.
    destruct (decide (bot_id b = id)) as [Hid | Hid].
    + destruct (IH (h ++ [f b]) (valid_store_app _ _ _ Hv)) as (ext & E1 & E2 & E3 & E4).
      destruct (map_bots id f (h ++ [f b]) bs) as [h' r]. cbn [fst snd] in *.
      exists (f b :: ext). rewrite <- app_assoc in E1, E2, E3. cbn [app] in E1, E2, E3.
      repeat split.
      * exact E1.
      * apply Forall_cons. split; [|exact E2]. rewrite length_app. cbn. lia.
      * cbn [view map]. fold (view (h ++ f b :: ext) r). fold (view h bs).
        rewrite E3. rewrite (view_app h [f b] bs Hv).
        rewrite list_lookup_middle by reflexivity. rewrite Hb.
        f_equal. cbn. unfold on_id.
        destruct (decide (bot_id b = id)); [reflexivity | contradiction].
      * apply Forall_cons. split; [left; lia|].
        eapply Forall_impl; [exact E4|]. intros a' [Hge | (b' & Hb' & Hne)].
        -- left. rewrite length_app in Hge. cbn in Hge. lia.
        -- destruct (decide (a' < length h)%nat) as [Hlt | Hge].
           ++ right. exists b'. rewrite lookup_app_l in Hb' by exact Hlt. split; assumption.
           ++ left. lia.
    + destruct (IH h Hv) as (ext & E1 & E2 & E3 & E4).
      destruct (map_bots id f h bs) as [h' r]. cbn [fst snd] in *.
      exists ext. repeat split.
      * exact E1.
      * apply Forall_cons. split; [|exact E2]. rewrite length_app. lia.
      * cbn [view map]. fold (view (h ++ ext) r). fold (view h bs).
        rewrite E3. rewrite lookup_app_l by exact Ha. rewrite Hb.
        f_equal. cbn. unfold on_id.
        destruct (decide (bot_id b = id)); [contradiction | reflexivity].
      * apply Forall_cons. split; [|exact E4]. right. exists b. split; assumption.
Qed.

Lemma store_clean_view (st : System) : store_clean st = clean_view (store_view st).
Proof.
  unfold store_clean, clean_view, store_view, view.
  induction (bots st) as [|a bs IH]; cbn; [reflexivity|]. rewrite IH. reflexivity.
Qed.

Lemma store_clean_skeleton (st st' : System) :
  skeleton st' = skeleton st -> store_clean st' = store_clean st.
Proof.
  rewrite !store_clean_view. unfold skeleton, clean_view.
  generalize (store_view st) (store_view st'). intros v.
  induction v as [|ob v IH]; intros [|ob' v'] H; try discriminate H; [reflexivity|].
  cbn in H. injection H as Hhd Htl. cbn. rewrite (IH _ Htl). f_equal.
  destruct ob as [b|], ob' as [b'|]; try discriminate Hhd; [|reflexivity].
  cbn in Hhd. injection Hhd as _ _ Hc. rewrite Hc. reflexivity.
Qed.

Lemma store_clean_valid (st : System) : store_clean st = true -> valid st.
Proof.
  unfold store_clean, valid, valid_store. rewrite forallb_forall, Forall_forall.
  intros H a Ha. apply list_elem_of_In in Ha. specialize (H a Ha).
  destruct (heap st !! a) eqn:E; [|discriminate]. eapply lookup_lt_Some, E.
Qed.

Lemma status_of_view (id : string) (st : System) :
  status_of id st = bot_status <$> find_bot id (store_view st).
Proof.
  unfold status_of, getBotById, find_bot, store_view, view.
  induction (bots st) as [|a bs IH]; cbn; [reflexivity|].
  destruct (heap st !! a) as [b|] eqn:E.
  - destruct (bool_decide (bot_id b = id)); cbn; [rewrite E; reflexivity | exact IH].
  - exact IH.
Qed.

(** [set_bots] in terms of views. *)
Lemma set_bots_spec (id : string) (f : TradingBot -> TradingBot) (st : System) :
  executors (set_bots id f st) = executors st
  /\ webSocket (set_bots id f st) = webSocket st
  /\ reports (set_bots id f st) = reports st
  /\ activeBot (set_bots id f st) = activeBot st
  /\ tradingMode (set_bots id f st) = tradingMode st
  /\ (valid st ->
      valid (set_bots id f st)
      /\ store_view (set_bots id f st) = map (fmap (on_id id f)) (store_view st)
      /\ (exists ext, heap (set_bots id f st) = heap st ++ ext)
      /\ Forall (fun a' => (length (heap st) <= a')%nat
                           \/ exists b, heap st !! a' = Some b /\ bot_id b <> id)
                (bots (set_bots id f st))).
Proof.
  unfold set_bots, valid, store_view.
  pose proof (map_bots_spec id f (bots st) (heap st)) as H.
  destruct (map_bots id f (heap st) (bots st)) as [h' bs']. cbn [fst snd] in H. cbn.
  repeat split; try reflexivity; destruct (H H0) as (ext & -> & E2 & E3 & E4); eauto.
Qed.

Lemma skeleton_set_bots (id : string) (f : TradingBot -> TradingBot) (st : System) :
  valid st ->
  (forall b, bot_id (f b) = bot_id b /\ bot_status (f b) = bot_status b
             /\ bot_cleanup (f b) = bot_cleanup b) ->
  skeleton (set_bots id f st) = skeleton st.
Proof.
  intros Hv Hf. destruct (set_bots_spec id f st) as (_ & _ & _ & _ & _ & H).
  destruct (H Hv) as (_ & E & _). unfold skeleton. rewrite E, map_map.
  apply map_ext. intros [b|]; [|reflexivity]. cbn. unfold on_id.
  destruct (decide (bot_id b = id)); [|reflexivity].
  destruct (Hf b) as (-> & -> & ->). reflexivity.
Qed.

(** The heap only grows. *)
Lemma heap_map_bots (id : string) (f : TradingBot -> TradingBot) (bs : list nat)
    (h : list TradingBot) :
  exists ext, fst (map_bots id f h bs) = h ++ ext.
Proof.
  revert h. induction bs as [|a bs IH]; intros h; cbn [map_bots].
  - exists []. cbn. rewrite app_nil_r. reflexivity.
  - destruct (h !! a) as [b|].
    + destruct (decide (bot_id b = id)).
      * destruct (IH (h ++ [f b])) as [ext E].
        destruct (map_bots id f (h ++ [f b]) bs) as [h' r]. cbn [fst] in *.
        exists (f b :: ext). rewrite E, <- app_assoc. reflexivity.
      * destruct (IH h) as [ext E]. destruct (map_bots id f h bs) as [h' r]. eauto.
    + destruct (IH h) as [ext E]. destruct (map_bots id f h bs) as [h' r]. eauto.
Qed.

Lemma heap_set_bots (id : string) (f : TradingBot -> TradingBot) (st : System) (a : nat)
    (b : TradingBot) :
  heap st !! a = Some b -> heap (set_bots id f st) !! a = Some b.
Proof.
  intros H. unfold set_bots. destruct (heap_map_bots id f (bots st) (heap st)) as [ext E].
  destruct (map_bots id f (heap st) (bots st)) as [h' r]. cbn [fst] in E. cbn. subst h'.
  apply lookup_app_l_Some, H.
Qed.

(** ** Effects of the tick body *)

Lemma effect_refl (mode : TradingMode) (st : System) : effect mode st st.
Proof. unfold effect. tauto. Qed.

Lemma effect_trans (mode : TradingMode) (st1 st2 st3 : System) :
  effect mode st1 st2 -> effect mode st2 st3 -> effect mode st1 st3.
Proof.
  unfold effect. intros (A1 & A2 & A3 & A4 & A5 & A7 & A6) (B1 & B2 & B3 & B4 & B5 & B7 & B6).
  split; [congruence|]. split; [congruence|]. split; [congruence|]. split; [congruence|].
  split; [intros Hm; rewrite (B5 Hm); exact (A5 Hm)|].
  split; [intros a b H; apply B7, A7, H|].
  intros H. destruct (A6 H) as [Hv E]. destruct (B6 Hv) as [Hv' E']. split; congruence.
Qed.

Lemma effect_updateBotPerformance (mode : TradingMode) (id : string) (u : PerformanceUpdate)
    (now : Z) (st : System) :
  effect mode st (updateBotPerformance id u now st).
Proof.
  unfold updateBotPerformance.
  destruct (set_bots_spec id (fun b => with_performance (merge_performance (bot_performance b) u now) b) st)
    as (E1 & E2 & E3 & E4 & E5 & E6).
  split; [exact E1|]. split; [exact E2|]. split; [exact E3|]. split; [exact E4|].
  split; [intros _; exact E5|].
  split; [apply heap_set_bots|].
  intros H. split; [apply E6, H|].
  apply skeleton_set_bots; [exact H|]. intros b. repeat split.
Qed.

Lemma effect_updateBalance_live (currency : string) (amount : Q) (st : System) :
  effect live st (sys_updateBalance currency amount st).
Proof.
  unfold effect, sys_updateBalance. cbn.
  repeat split; try assumption; try discriminate. intros a b H; exact H.
Qed.

Lemma effect_credit_sale (mode : TradingMode) (symbol : string) (price amount : Q) (st : System) :
  effect mode st (credit_sale mode symbol price amount st).
Proof.
  unfold credit_sale. destruct (decide (mode = live)) as [-> | _]; [|apply effect_refl].
  eapply effect_trans; apply effect_updateBalance_live.
Qed.

Lemma ex_frame_refl (ex : Executor) : ex_frame ex ex.
Proof. unfold ex_frame. repeat split; try reflexivity. intros _. apply incl_refl. Qed.

Lemma ex_frame_trans (ex1 ex2 ex3 : Executor) :
  ex_frame ex1 ex2 -> ex_frame ex2 ex3 -> ex_frame ex1 ex3.
Proof.
  unfold ex_frame. intros (A1 & A2 & A3 & A4 & A5 & A6 & A7) (B1 & B2 & B3 & B4 & B5 & B6 & B7).
  repeat split; try congruence.
  intros Hm. eapply incl_tran; [apply B7; congruence | apply A7, Hm].
Qed.

Lemma tick_rel_refl (acc : Executor * System) : tick_rel acc acc.
Proof. split; [apply ex_frame_refl | apply effect_refl]. Qed.

Lemma tick_rel_trans (a b c : Executor * System) :
  tick_rel a b -> tick_rel b c -> tick_rel a c.
Proof.
  intros [F1 E1] [F2 E2]. split; [eapply ex_frame_trans; eassumption|].
  eapply effect_trans; [exact E1|].
  destruct F1 as (Hm & _). rewrite <- Hm. exact E2.
Qed.

Lemma map_keys_delete (k : string) (m : list (string * Position)) :
  incl (map_keys (map_delete k m)) (map_keys m).
Proof.
  unfold map_keys, map_delete. intros x Hx. apply in_map_iff in Hx as (p & <- & Hp).
  apply in_map. apply list_elem_of_In in Hp. apply list_elem_of_filter in Hp as [_ Hp].
  apply list_elem_of_In, Hp.
Qed.

Lemma ex_frame_with_strategy (s : Strategy) (ex : Executor) : ex_frame ex (with_strategy s ex).
Proof. unfold ex_frame. cbn. repeat split. intros _. apply incl_refl. Qed.

Lemma ex_frame_with_lastTradeTime (t : Z) (ex : Executor) : ex_frame ex (with_lastTradeTime t ex).
Proof. unfold ex_frame. cbn. repeat split. intros _. apply incl_refl. Qed.

Lemma ex_frame_delete (k : string) (ex : Executor) :
  ex_frame ex (with_positions (map_delete k (ex_positions ex)) ex).
Proof. unfold ex_frame. cbn. repeat split. intros _. apply map_keys_delete. Qed.

Lemma tick_rel_close_position (bot : TradingBot) (now : Z) (symbol : string) (price : Q)
    (position : Position) (acc : Executor * System) :
  tick_rel acc (close_position bot now symbol price position acc).
Proof.
  destruct acc as [ex st]. unfold close_position. split; cbn [fst snd].
  - apply ex_frame_delete.
  - eapply effect_trans; [apply effect_credit_sale | apply effect_updateBotPerformance].
Qed.

Lemma tick_rel_multi_sell (bot : TradingBot) (now : Z) (acc : Executor * System)
    (sellRec : Recommendation) :
  tick_rel acc (multi_sell bot now acc sellRec).
Proof.
  unfold multi_sell. destruct (map_get _ _) as [position|]; [|apply tick_rel_refl].
  pose proof (tick_rel_close_position bot now (rec_symbol sellRec) (rec_price sellRec) position acc) as H.
  destruct (close_position _ _ _ _ _ acc) as [ex st].
  eapply tick_rel_trans; [exact H|]. split; cbn [fst snd].
  - apply ex_frame_with_strategy.
  - apply effect_refl.
Qed.

Lemma tick_rel_sells (bot : TradingBot) (now : Z) (sells : list Recommendation)
    (acc : Executor * System) :
  tick_rel acc (fold_left (multi_sell bot now) sells acc).
Proof.
  revert acc. induction sells as [|r sells IH]; intros acc; cbn; [apply tick_rel_refl|].
  eapply tick_rel_trans; [apply tick_rel_multi_sell | apply IH].
Qed.

Lemma tick_rel_try_buy (bot : TradingBot) (now : Z) (symbol : string) (price : Q)
    (activate : bool) (acc : Executor * System) :
  tick_rel acc (try_buy bot now symbol price activate acc).
Proof.
  destruct acc as [ex st]. unfold try_buy. cbv zeta.
  destruct (Qle_bool 1 _); [|apply tick_rel_refl].
  destruct (decide (ex_mode ex = live)) as [Hlive | _]; [|apply tick_rel_refl].
  destruct (Qle_bool _ _); [|apply tick_rel_refl].
  split; cbn [fst snd].
  - unfold ex_frame. destruct activate; cbn; repeat split; intros Hd; congruence.
  - rewrite Hlive.
    eapply effect_trans; [|apply effect_updateBotPerformance].
    eapply effect_trans; apply effect_updateBalance_live.
Qed.

Lemma tick_rel_buys (bot : TradingBot) (now : Z) (buys : list Recommendation)
    (acc : Executor * System) :
  tick_rel acc (multi_buys bot now buys acc).
Proof.
  revert acc. induction buys as [|r buys IH]; intros acc; cbn [multi_buys]; [apply tick_rel_refl|].
  destruct (positions_full _); [apply tick_rel_refl|].
  eapply tick_rel_trans; [apply tick_rel_try_buy | apply IH].
Qed.

Lemma tick_rel_handle_signal (bot : TradingBot) (now : Z) (currentPrice : Q)
    (signal : option Signal) (acc acc' : Executor * System) :
  handle_signal bot now currentPrice signal acc = Ok acc' -> tick_rel acc acc'.
Proof.
  unfold handle_signal. intros H.
  destruct signal as [[[|]|]|]; try (injection H as <-; apply tick_rel_refl);
    destruct (60000 <? _)%Z; try (injection H as <-; apply tick_rel_refl);
    destruct (map_size _ =? 0)%Z; try (injection H as <-; apply tick_rel_refl).
  - injection H as <-. apply tick_rel_try_buy.
  - destruct (map_get _ _); [|discriminate H]. injection H as <-. apply tick_rel_close_position.
Qed.

Lemma tick_rel_check_stops (bot : TradingBot) (now : Z) (currentPrice : Q)
    (acc : Executor * System) :
  tick_rel acc (left_by (check_stops bot now currentPrice acc)).
Proof.
  unfold check_stops, left_by. destruct acc as [ex st]. cbn [fst snd].
  destruct (map_size _ =? 0)%Z; [apply tick_rel_refl|].
  destruct (map_get _ _) as [position|]; [|apply tick_rel_refl].
  destruct (must_close _ _ _); [|apply tick_rel_refl].
  pose proof (tick_rel_close_position bot now (cfg_symbol (bot_config bot)) currentPrice
                position (ex, st)) as H.
  destruct (close_position _ _ _ _ _ _) as [ex2 st2]. cbn [fst snd].
  eapply tick_rel_trans; [exact H|]. split; cbn [fst snd].
  - apply ex_frame_with_lastTradeTime.
  - apply effect_refl.
Qed.

Lemma tick_rel_with_strategy (s : Strategy) (ex : Executor) (st : System) :
  tick_rel (ex, st) (with_strategy s ex, st).
Proof. split; [apply ex_frame_with_strategy | apply effect_refl]. Qed.

Lemma tick_rel_single_branch (env : TickEnv) (bot : TradingBot) (ex : Executor) (st : System) :
  tick_rel (ex, st) (left_by (single_branch env bot ex st)).
Proof.
  unfold single_branch.
  destruct (truthy_price _) as [currentPrice|]; [|apply tick_rel_refl].
  cbv zeta. destruct (analyze _ _ _) as [r strategy'].
  destruct r as [signal | x]; [|apply tick_rel_with_strategy].
  destruct (handle_signal _ _ _ _ _) as [acc | x] eqn:E; [|apply tick_rel_with_strategy].
  eapply tick_rel_trans; [apply tick_rel_with_strategy|].
  eapply tick_rel_trans; [eapply tick_rel_handle_signal, E|].
  apply tick_rel_check_stops.
Qed.

(** The body of a tick leaves the executors, the web-socket state and the
    reports of the engine alone, keeps the captured objects, the timer and
    the error counter of its closure, and keeps the store well formed; in
    demo mode it also leaves the ledger alone and adds no key to the
    positions. *)
Lemma tick_rel_tick_body (env : TickEnv) (bot : TradingBot) (ex : Executor) (st : System) :
  tick_rel (ex, st) (left_by (tick_body env bot ex st)).
Proof.
  unfold tick_body. cbv zeta.
  destruct (negb _ || negb _); [apply tick_rel_refl|].
  destruct (analyze _ _ _) as [r strategy'].
  destruct r as [[[a | buys sells]|] | x]; try apply tick_rel_with_strategy.
  - eapply tick_rel_trans; [apply tick_rel_with_strategy | apply tick_rel_single_branch].
  - destruct (decide (bot_strategy bot = multi_coin)).
    + pose proof (tick_rel_sells bot (te_now env) sells (with_strategy strategy' ex, st)) as H1.
      pose proof (tick_rel_buys bot (te_now env) buys
                    (fold_left (multi_sell bot (te_now env)) sells (with_strategy strategy' ex, st)))
        as H2.
      destruct (multi_buys _ _ _ _) as [ex2 st2]. unfold left_by. cbn [fst snd].
      eapply tick_rel_trans; [apply tick_rel_with_strategy|].
      eapply tick_rel_trans; [exact H1|].
      eapply tick_rel_trans; [exact H2|].
      split; cbn [fst snd]; [apply ex_frame_with_lastTradeTime | apply effect_refl].
    + eapply tick_rel_trans; [apply tick_rel_with_strategy | apply tick_rel_single_branch].
Qed.

(** In demo mode nothing is bought; with no open position nothing is sold
    either, and the body of a tick leaves the engine as it found it. *)
Lemma try_buy_demo (bot : TradingBot) (now : Z) (symbol : string) (price : Q) (activate : bool)
    (acc : Executor * System) :
  ex_mode (fst acc) = demo -> try_buy bot now symbol price activate acc = acc.
Proof.
  destruct acc as [ex st]. cbn [fst]. intros Hd. unfold try_buy. cbv zeta.
  destruct (Qle_bool 1 _); [|reflexivity].
  destruct (decide (ex_mode ex = live)); [congruence | reflexivity].
Qed.

Lemma multi_buys_demo (bot : TradingBot) (now : Z) (buys : list Recommendation)
    (acc : Executor * System) :
  ex_mode (fst acc) = demo -> multi_buys bot now buys acc = acc.
Proof.
  intros Hd. induction buys as [|r buys IH]; cbn [multi_buys]; [reflexivity|].
  destruct (positions_full _); [reflexivity|]. rewrite try_buy_demo by exact Hd. exact IH.
Qed.

Lemma sells_without_positions (bot : TradingBot) (now : Z) (sells : list Recommendation)
    (acc : Executor * System) :
  ex_positions (fst acc) = [] -> fold_left (multi_sell bot now) sells acc = acc.
Proof.
  intros He. induction sells as [|r sells IH]; cbn [fold_left]; [reflexivity|].
  unfold multi_sell at 2. rewrite He. cbn. exact IH.
Qed.

Lemma handle_signal_idle (bot : TradingBot) (now : Z) (currentPrice : Q)
    (signal : option Signal) (acc : Executor * System) :
  ex_mode (fst acc) = demo -> ex_positions (fst acc) = [] ->
  handle_signal bot now currentPrice signal acc = Ok acc.
Proof.
  intros Hd He. unfold handle_signal. rewrite He. cbn.
  destruct signal as [[[|]|]|]; try reflexivity; destruct (60000 <? _)%Z; try reflexivity.
  rewrite try_buy_demo by exact Hd. reflexivity.
Qed.

Lemma check_stops_idle (bot : TradingBot) (now : Z) (currentPrice : Q) (acc : Executor * System) :
  ex_positions (fst acc) = [] ->
  check_stops bot now currentPrice acc = (Completed, fst acc, snd acc).
Proof. intros He. unfold check_stops. rewrite He. reflexivity. Qed.

Lemma single_branch_idle (env : TickEnv) (bot : TradingBot) (ex : Executor) (st : System) :
  ex_mode ex = demo -> ex_positions ex = [] -> snd (single_branch env bot ex st) = st.
Proof.
  intros Hd He. unfold single_branch.
  destruct (truthy_price _); [|reflexivity]. cbv zeta.
  destruct (analyze _ _ _) as [r strategy']. destruct r as [signal | x]; [|reflexivity].
  rewrite handle_signal_idle by assumption.
  rewrite check_stops_idle by assumption. reflexivity.
Qed.

Lemma tick_body_idle (env : TickEnv) (bot : TradingBot) (ex : Executor) (st : System) :
  ex_mode ex = demo -> ex_positions ex = [] -> snd (tick_body env bot ex st) = st.
Proof.
  intros Hd He. unfold tick_body. cbv zeta.
  destruct (negb _ || negb _); [reflexivity|].
  destruct (analyze _ _ _) as [r strategy'].
  destruct r as [[[a | buys sells]|] | x]; try reflexivity.
  - apply single_branch_idle; assumption.
  - destruct (decide (bot_strategy bot = multi_coin)).
    + rewrite sells_without_positions by exact He.
      rewrite multi_buys_demo by exact Hd. reflexivity.
    + apply single_branch_idle; assumption.
Qed.

(** ** Stopping *)

Lemma getBotById_Some (id : string) (st : System) (a : nat) :
  getBotById id st = Some a ->
  In a (bots st) /\ exists b, heap st !! a = Some b /\ bot_id b = id.
Proof.
  unfold getBotById. intros H. apply find_some in H as [Hin Hp]. split; [exact Hin|].
  destruct (heap st !! a) as [b|]; [|discriminate]. exists b. split; [reflexivity|].
  apply bool_decide_eq_true in Hp. exact Hp.
Qed.

Lemma store_clean_lookup (st : System) (a : nat) :
  store_clean st = true -> In a (bots st) ->
  exists b, heap st !! a = Some b /\ bot_cleanup b = None.
Proof.
  unfold store_clean. rewrite forallb_forall. intros H Hin. specialize (H a Hin).
  destruct (heap st !! a) as [b|]; [|discriminate]. exists b. split; [reflexivity|].
  apply bool_decide_eq_true in H. exact H.
Qed.

(** When no bot of the store carries a cleanup closure, [stopBot] only
    rewrites the status and reports: no cleanup closure runs. *)
Lemma stopBot_clean (id : string) (now : Z) (st : System) :
  store_clean st = true ->
  stopBot id now st =
  if decide (status_of id st = Some running)
  then handleError MsgBotStopped low (set_bots id (with_status stopped) st)
  else st.
Proof.
  intros Hc. unfold stopBot, status_of.
  destruct (getBotById id st) as [a|] eqn:G.
  - destruct (getBotById_Some _ _ _ G) as (Hin & b & Hb & _).
    destruct (store_clean_lookup _ _ Hc Hin) as (b' & Hb' & Hcl).
    rewrite Hb in Hb'. injection Hb' as <-. rewrite Hb. cbn [fmap option_fmap option_map].
    rewrite Hcl.
    destruct (decide (bot_status b = running)) as [Hr | Hr].
    + rewrite decide_True by congruence. reflexivity.
    + rewrite decide_False by congruence. reflexivity.
  - rewrite decide_False by discriminate. reflexivity.
Qed.

Lemma find_bot_id (id : string) (v : list (option TradingBot)) (b : TradingBot) :
  find_bot id v = Some b -> bot_id b = id.
Proof.
  unfold find_bot. induction v as [|ob v IH]; cbn; [discriminate|].
  destruct ob as [b'|]; [|exact IH].
  destruct (bool_decide (bot_id b' = id)) eqn:E; [|exact IH].
  cbn. intros [= <-]. apply bool_decide_eq_true in E. exact E.
Qed.

Lemma find_bot_map (id id' : string) (f : TradingBot -> TradingBot)
    (v : list (option TradingBot)) :
  (forall b, bot_id (f b) = bot_id b) ->
  find_bot id' (map (fmap (on_id id f)) v) = on_id id f <$> find_bot id' v.
Proof.
  intros Hf. unfold find_bot. induction v as [|ob v IH]; cbn; [reflexivity|].
  destruct ob as [b|]; [|exact IH]. cbn.
  assert (Hid : bot_id (on_id id f b) = bot_id b).
  { unfold on_id. destruct (decide (bot_id b = id)); [apply Hf | reflexivity]. }
  rewrite Hid. destruct (bool_decide (bot_id b = id')); [reflexivity | exact IH].
Qed.

Lemma clean_view_map (id : string) (f : TradingBot -> TradingBot) (v : list (option TradingBot)) :
  (forall b, bot_cleanup (f b) = bot_cleanup b) ->
  clean_view (map (fmap (on_id id f)) v) = clean_view v.
Proof.
  intros Hf. unfold clean_view. induction v as [|ob v IH]; cbn; [reflexivity|].
  rewrite IH. f_equal. destruct ob as [b|]; [|reflexivity]. cbn.
  unfold on_id. destruct (decide (bot_id b = id)); [rewrite Hf|]; reflexivity.
Qed.

Lemma store_performances_view (st : System) :
  store_performances st = map (fmap bot_performance) (store_view st).
Proof. unfold store_performances, store_view, view. rewrite map_map. reflexivity. Qed.

(** The status rewrite of [stopBot] and of the failure path of
    [startBot]. *)
Lemma set_status_spec (id : string) (s : BotStatus) (st : System) :
  valid st ->
  store_clean (set_bots id (with_status s) st) = store_clean st
  /\ store_performances (set_bots id (with_status s) st) = store_performances st
  /\ status_of id (set_bots id (with_status s) st) = (fun _ => s) <$> status_of id st
  /\ (forall id', id' <> id ->
        status_of id' (set_bots id (with_status s) st) = status_of id' st).
Proof.
  intros Hv. destruct (set_bots_spec id (with_status s) st) as (_ & _ & _ & _ & _ & H).
  destruct (H Hv) as (_ & E & _).
  split; [|split; [|split]].
  - rewrite !store_clean_view, E. apply clean_view_map. reflexivity.
  - rewrite !store_performances_view, E, map_map. apply map_ext.
    intros [b|]; [|reflexivity]. cbn. unfold on_id.
    destruct (decide (bot_id b = id)); reflexivity.
  - rewrite !status_of_view, E, find_bot_map by reflexivity.
    destruct (find_bot id (store_view st)) as [b|] eqn:F; [|reflexivity].
    cbn. unfold on_id. rewrite decide_True by (eapply find_bot_id, F). reflexivity.
  - intros id' Hne. rewrite !status_of_view, E, find_bot_map by reflexivity.
    destruct (find_bot id' (store_view st)) as [b|] eqn:F; [|reflexivity].
    cbn. unfold on_id. apply find_bot_id in F.
    rewrite decide_False by congruence. reflexivity.
Qed.

(** ** One firing of the interval callback *)

Lemma tradingMode_set_bots (id : string) (f : TradingBot -> TradingBot) (st : System) :
  tradingMode (set_bots id f st) = tradingMode st.
Proof. apply set_bots_spec. Qed.

Lemma executors_set_bots (id : string) (f : TradingBot -> TradingBot) (st : System) :
  executors (set_bots id f st) = executors st.
Proof. apply set_bots_spec. Qed.

Lemma run_tick_spec (e : nat) (env : TickEnv) (st : System) (ex : Executor) (bot : TradingBot) :
  store_clean st = true ->
  executors st !! e = Some ex ->
  ex_interval ex = true ->
  heap st !! ex_bot ex = Some bot ->
  tick_rel (ex, st) (left_by (tick_body env bot ex st))
  /\ store_clean (snd (left_by (tick_body env bot ex st))) = true
  /\ run_tick e env st = after_tick e env bot ex (tick_body env bot ex st).
Proof.
  intros Hc He Harmed Hbot.
  pose proof (tick_rel_tick_body env bot ex st) as Hrel.
  assert (Hc1 : store_clean (snd (left_by (tick_body env bot ex st))) = true).
  { destruct Hrel as [_ (_ & _ & _ & _ & _ & _ & Hs)].
    destruct (Hs (store_clean_valid _ Hc)) as [_ E]. cbn [snd] in E.
    rewrite (store_clean_skeleton _ _ E). exact Hc. }
  split; [exact Hrel|]. split; [exact Hc1|].
  unfold run_tick, after_tick. rewrite He, Harmed, Hbot. cbn [negb].
  destruct Hrel as [(_ & _ & _ & _ & Hn & _) _].
  destruct (tick_body env bot ex st) as [[o ex'] st1]. cbn [left_by outcome_of fst snd] in *.
  destruct o; try reflexivity.
  rewrite Hn. destruct (5 <=? S (ex_consecutiveErrors ex))%nat; [|reflexivity].
  rewrite stopBot_clean by exact Hc1. reflexivity.
Qed.

Lemma set_executor_lookup (e : nat) (x : Executor) (st : System) :
  (e < length (executors st))%nat ->
  executors (set_executor e x st) !! e = Some x
  /\ (forall e', e' <> e -> executors (set_executor e x st) !! e' = executors st !! e')
  /\ length (executors (set_executor e x st)) = length (executors st).
Proof.
  intros Hlt. unfold set_executor, set_executors. cbn [executors]. split; [|split].
  - apply list_lookup_insert_eq, Hlt.
  - intros e' Hne. apply list_lookup_insert_ne. congruence.
  - apply length_insert.
Qed.

(** What one firing does around the body of the tick: it writes the
    closure back, possibly with new error counters and a cleared timer, and
    on the fifth failure rewrites the status of the bot; balances,
    performances, positions and the other executors are as the body left
    them. *)
Lemma after_tick_frame (e : nat) (env : TickEnv) (bot : TradingBot) (ex : Executor)
    (r : TickOutcome * Executor * System) :
  valid (snd (left_by r)) ->
  (e < length (executors (snd (left_by r))))%nat ->
  tradingMode (after_tick e env bot ex r) = tradingMode (snd (left_by r))
  /\ webSocket (after_tick e env bot ex r) = webSocket (snd (left_by r))
  /\ store_clean (after_tick e env bot ex r) = store_clean (snd (left_by r))
  /\ store_performances (after_tick e env bot ex r) = store_performances (snd (left_by r))
  /\ length (executors (after_tick e env bot ex r)) = length (executors (snd (left_by r)))
  /\ (forall e', e' <> e ->
        executors (after_tick e env bot ex r) !! e' = executors (snd (left_by r)) !! e')
  /\ exists ex'',
       executors (after_tick e env bot ex r) !! e = Some ex''
       /\ ex_mode ex'' = ex_mode (fst (left_by r))
       /\ ex_positions ex'' = ex_positions (fst (left_by r))
       /\ ex_bot ex'' = ex_bot (fst (left_by r))
       /\ ex_ws ex'' = ex_ws (fst (left_by r))
       /\ ex_strategy ex'' = ex_strategy (fst (left_by r)).
Proof.
  destruct r as [[o ex'] st1]. unfold after_tick. cbn [left_by outcome_of fst snd].
  intros Hv Hlt.
  assert (Hset : forall x,
    tradingMode (set_executor e x st1) = tradingMode st1
    /\ webSocket (set_executor e x st1) = webSocket st1
    /\ store_clean (set_executor e x st1) = store_clean st1
    /\ store_performances (set_executor e x st1) = store_performances st1
    /\ length (executors (set_executor e x st1)) = length (executors st1)
    /\ (forall e', e' <> e -> executors (set_executor e x st1) !! e' = executors st1 !! e')
    /\ executors (set_executor e x st1) !! e = Some x).
  { intros x. destruct (set_executor_lookup e x st1 Hlt) as (L1 & L2 & L3).
    repeat split; assumption || reflexivity. }
  destruct o as [| | x].
  - destruct (Hset ex') as (A1 & A2 & A3 & A4 & A5 & A6 & A7).
    repeat split; try assumption. exists ex'. repeat split; assumption.
  - destruct (Hset (with_errors 0 0 ex')) as (A1 & A2 & A3 & A4 & A5 & A6 & A7).
    repeat split; try assumption. eexists. split; [exact A7|]. repeat split.
  - cbv zeta. destruct (5 <=? _)%nat.
    + set (x1 := clearInterval (with_errors (S (ex_consecutiveErrors ex)) (te_now env) ex')).
      destruct (Hset x1) as (A1 & A2 & A3 & A4 & A5 & A6 & A7).
      destruct (decide (status_of (bot_id bot) st1 = Some running)).
      * assert (Hv2 : valid (set_executor e x1 st1)) by exact Hv.
        destruct (set_status_spec (bot_id bot) stopped _ Hv2) as (S1 & S2 & _).
        destruct (set_bots_spec (bot_id bot) (with_status stopped) (set_executor e x1 st1))
          as (B1 & B2 & _ & _ & B5 & _).
        cbn [handleError tradingMode webSocket executors].
        split; [congruence|]. split; [congruence|].
        split; [etransitivity; [exact S1 | exact A3]|].
        split; [etransitivity; [exact S2 | exact A4]|].
        split; [congruence|].
        split; [intros e' Hne; rewrite B1; apply A6, Hne|].
        exists x1. rewrite B1. split; [exact A7|]. repeat split.
      * cbn [handleError tradingMode webSocket executors].
        repeat split; try assumption. exists x1. split; [exact A7|]. repeat split.
    + set (x1 := with_errors (S (ex_consecutiveErrors ex)) (te_now env) ex').
      destruct (Hset x1) as (A1 & A2 & A3 & A4 & A5 & A6 & A7).
      cbn [handleError tradingMode webSocket executors].
      repeat split; try assumption. exists x1. split; [exact A7|]. repeat split.
Qed.

Lemma effect_cleanup (bot : TradingBot) (ex : Executor) (now : Z)
    (entries : list (string * Position)) (st : System) :
  effect (ex_mode ex) st (fold_left (cleanup_position bot ex now) entries st).
Proof.
  revert st. induction entries as [|[symbol position] entries IH]; intros st; cbn [fold_left].
  - apply effect_refl.
  - eapply effect_trans; [|apply IH]. unfold cleanup_position.
    destruct (truthy_price _); [|apply effect_refl].
    eapply effect_trans; [apply effect_credit_sale | apply effect_updateBotPerformance].
Qed.

Lemma map_keys_nil (m : list (string * Position)) : incl (map_keys m) [] -> m = [].
Proof.
  destruct m as [|[k v] m]; [reflexivity|]. intros H. exfalso. apply (H k). left. reflexivity.
Qed.

(** X31 (executor): a tick of an executor whose captured trading mode,
    the mode of the state object it read when it started, is demo leaves
    every balance of the ledger as it was and adds no key to the position
    map; from an empty position map the map stays empty and no performance
    record of the store changes, so no trade is recorded; the stop-time
    cleanup of such an executor leaves the ledger alone as well.  (The state
    is one in which no bot of the store carries a cleanup closure, as in
    every reachable state.) *)
Theorem demo_executor_frame (e : nat) (env : TickEnv) (now : Z) (st : System) (ex : Executor)
    (Hclean : store_clean st = true)
    (He : executors st !! e = Some ex)
    (Hdemo : ex_mode ex = demo) :
  tradingMode (run_tick e env st) = tradingMode st
  /\ (exists ex', executors (run_tick e env st) !! e = Some ex'
        /\ ex_mode ex' = demo
        /\ incl (map_keys (ex_positions ex')) (map_keys (ex_positions ex)))
  /\ (ex_positions ex = [] ->
      positions_of e (run_tick e env st) = []
      /\ store_performances (run_tick e env st) = store_performances st)
  /\ tradingMode (run_cleanup e now st) = tradingMode st
  /\ store_clean (run_tick e env st) = true.
Proof.
  assert (Hcleanup : tradingMode (run_cleanup e now st) = tradingMode st).
  { unfold run_cleanup. rewrite He.
    destruct (heap st !! ex_bot ex) as [bot|]; [|reflexivity].
    cbn [set_executor set_executors tradingMode].
    destruct (effect_cleanup bot ex now (ex_positions ex) st) as (_ & _ & _ & _ & Ht & _).
    apply Ht, Hdemo. }
  assert (Hidle : run_tick e env st = st ->
    tradingMode (run_tick e env st) = tradingMode st
    /\ (exists ex', executors (run_tick e env st) !! e = Some ex'
          /\ ex_mode ex' = demo
          /\ incl (map_keys (ex_positions ex')) (map_keys (ex_positions ex)))
    /\ (ex_positions ex = [] ->
        positions_of e (run_tick e env st) = []
        /\ store_performances (run_tick e env st) = store_performances st)
    /\ tradingMode (run_cleanup e now st) = tradingMode st
    /\ store_clean (run_tick e env st) = true).
  { intros ->. split; [reflexivity|]. split; [|split; [|split; assumption]].
    - exists ex. split; [exact He|]. split; [exact Hdemo | apply incl_refl].
    - intros Hp. unfold positions_of. rewrite He. split; [exact Hp | reflexivity]. }
  destruct (ex_interval ex) eqn:Harmed;
    [|apply Hidle; unfold run_tick; rewrite He, Harmed; reflexivity].
  destruct (heap st !! ex_bot ex) as [bot|] eqn:Hbot;
    [|apply Hidle; unfold run_tick; rewrite He, Harmed, Hbot; reflexivity].
  clear Hidle.
  destruct (run_tick_spec e env st ex bot Hclean He Harmed Hbot) as (Hrel & Hc1 & ->).
  pose proof (tick_body_idle env bot ex st Hdemo) as Hidle.
  destruct (tick_body env bot ex st) as [[o ex'] st1] eqn:Hbody.
  destruct Hrel as [(Fm & _ & _ & _ & _ & _ & Fk) (Ee & _ & _ & _ & Et & _ & Es)].
  cbn [left_by fst snd] in *.
  assert (Hlt : (e < length (executors st1))%nat).
  { rewrite Ee. eapply lookup_lt_Some, He. }
  destruct (after_tick_frame e env bot ex (o, ex', st1) (store_clean_valid _ Hc1) Hlt)
    as (A1 & _ & A3 & A4 & _ & _ & ex'' & X1 & X2 & X3 & _).
  cbn [left_by fst snd] in *.
  split; [rewrite A1; apply Et, Hdemo|].
  split; [|split; [|split]].
  - exists ex''. split; [exact X1|]. split; [congruence|]. rewrite X3. apply Fk, Hdemo.
  - intros Hp. split.
    + unfold positions_of. rewrite X1, X3. apply map_keys_nil.
      pose proof (Fk Hdemo) as Hk. rewrite Hp in Hk. exact Hk.
    + rewrite A4. rewrite (Hidle Hp). reflexivity.
  - exact Hcleanup.
  - rewrite A3. exact Hc1.
Qed.

Lemma demo_executor_frame_witness :
  tradingMode (run_tick 1 (quiet_tick 70000) demo_engine) = tradingMode demo_engine
  /\ positions_of 1 (run_tick 1 (quiet_tick 70000) demo_engine) = [].
Proof.
  destruct (executors demo_engine !! 1%nat) as [ex|] eqn:He; [|vm_compute in He; discriminate He].
  assert (Hdemo : ex_mode ex = demo).
  { vm_compute in He. injection He as <-. reflexivity. }
  assert (Hempty : ex_positions ex = []).
  { vm_compute in He. injection He as <-. reflexivity. }
  destruct (demo_executor_frame 1 (quiet_tick 70000) 80000 demo_engine ex) as (H1 & _ & H3 & _).
  - vm_compute. reflexivity.
  - exact He.
  - exact Hdemo.
  - split; [exact H1 | apply H3, Hempty].
Defined.

(** ** Reachable states *)

Lemma store_clean_createBot (id : string) (now : Z) (botData : BotData) (st : System) :
  store_clean st = true -> store_clean (createBot id now botData st) = true.
Proof.
  intros Hc. pose proof (store_clean_valid _ Hc) as Hv.
  unfold store_clean, createBot in *. cbn [heap bots].
  rewrite forallb_app. apply andb_true_iff. split.
  - rewrite forallb_forall in *. intros a Ha. specialize (Hc a Ha).
    unfold valid, valid_store in Hv. rewrite Forall_forall in Hv.
    rewrite lookup_app_l by (apply Hv, list_elem_of_In, Ha). exact Hc.
  - cbn. rewrite list_lookup_middle by reflexivity. reflexivity.
Qed.

Lemma waiting_reports_store (retries attempt : nat) (st : System) :
  heap (waiting_reports retries attempt st) = heap st
  /\ bots (waiting_reports retries attempt st) = bots st
  /\ executors (waiting_reports retries attempt st) = executors st
  /\ tradingMode (waiting_reports retries attempt st) = tradingMode st.
Proof.
  revert attempt st. induction retries as [|k IH]; intros attempt st; cbn [waiting_reports].
  - repeat split.
  - destruct (IH (S attempt) (handleError (MsgWaitingForMarketData (S attempt)) low st))
      as (-> & -> & -> & ->). repeat split.
Qed.

Lemma start_failed_inv (id : string) (st st0 : System) :
  heap st = heap st0 -> bots st = bots st0 -> executors st = executors st0 ->
  store_clean st0 = true ->
  store_clean (start_failed id st) = true /\ executors (start_failed id st) = executors st0.
Proof.
  intros Hh Hb He Hc. unfold start_failed.
  assert (Hc' : store_clean (handleError MsgStartFailed high st) = true).
  { unfold store_clean in *. cbn [handleError heap bots]. rewrite Hh, Hb. exact Hc. }
  destruct (set_status_spec id error _ (store_clean_valid _ Hc')) as (S1 & _).
  split; [rewrite S1; exact Hc'|]. rewrite executors_set_bots. exact He.
Qed.

(** [startBot] keeps the store free of cleanup closures: the closure is
    written to the object the function looked up at its start, and by then
    the store holds a newer object for that bot.  It adds at most one
    executor, with no position, and keeps the others. *)
Lemma startBot_inv (id : string) (env : StartEnv) (st : System) :
  store_clean st = true ->
  store_clean (startBot id env st) = true
  /\ (executors (startBot id env st) = executors st
      \/ exists ex, executors (startBot id env st) = executors st ++ [ex]
                    /\ ex_positions ex = []).
Proof.
  intros Hc. unfold startBot.
  destruct (getBotById id st) as [a|] eqn:G; [|split; [exact Hc | left; reflexivity]].
  destruct (getBotById_Some _ _ _ G) as (Hin & bot & Hbot & Hid). rewrite Hbot.
  destruct (bool_decide _ && negb _); [split; [exact Hc | left; reflexivity]|].
  cbv zeta.
  destruct (negb (ws_isConnected (webSocket st))).
  { destruct (start_failed_inv id (handleError MsgConnecting low st) st) as [H1 H2];
      try reflexivity; try exact Hc. split; [exact H1 | left; exact H2]. }
  destruct (negb (JS.truthy (ws_price (webSocket st)))).
  { destruct (waiting_reports_store 10 0 (handleError MsgFetchingMarketData low st))
      as (W1 & W2 & W3 & _).
    destruct (start_failed_inv id _ st W1 W2 W3 Hc) as [H1 H2].
    split; [exact H1 | left; exact H2]. }
  destruct (negb (se_riskAllowed env)).
  { destruct (start_failed_inv id
                (handleError MsgRiskAssessment low (handleError MsgFetchingMarketData low st)) st)
      as [H1 H2]; try reflexivity; try exact Hc. split; [exact H1 | left; exact H2]. }
  destruct (createStrategy _ _) as [strategy|].
  2:{ destruct (start_failed_inv id
                  (handleError MsgInitStrategy low
                     (handleError MsgRiskAssessment low (handleError MsgFetchingMarketData low st))) st)
        as [H1 H2]; try reflexivity; try exact Hc. split; [exact H1 | left; exact H2]. }
  set (st3 := handleError MsgInitStrategy low
                (handleError MsgRiskAssessment low (handleError MsgFetchingMarketData low st))).
  set (f := fun b => with_performance (with_startTime (se_now env) (bot_performance b))
                       (with_status running b)).
  assert (Hc3 : store_clean st3 = true) by exact Hc.
  pose proof (store_clean_valid _ Hc3) as Hv3.
  destruct (set_bots_spec id f st3) as (B1 & _ & _ & _ & _ & B6).
  destruct (B6 Hv3) as (Hv4 & Eview & _ & Hfresh).
  assert (Hc4 : store_clean (set_bots id f st3) = true).
  { rewrite store_clean_view, Eview, clean_view_map by reflexivity.
    rewrite <- store_clean_view. exact Hc3. }
  unfold startStrategyExecutor. cbn [handleError set_executors set_store executors heap bots].
  split.
  - unfold store_clean. cbn [heap bots handleError set_store].
    unfold store_clean in Hc4. rewrite forallb_forall in *. intros a' Ha'.
    specialize (Hc4 a' Ha').
    assert (Hne : a <> a').
    { intros <-. rewrite Forall_forall in Hfresh.
      destruct (Hfresh a (proj2 (list_elem_of_In _ _) Ha')) as [Hge | (b' & Hb' & Hne)].
      - apply lookup_lt_Some in Hbot. change (heap st3) with (heap st) in Hge. lia.
      - change (heap st3) with (heap st) in Hb'. rewrite Hbot in Hb'. injection Hb' as <-.
        contradiction. }
    rewrite list_lookup_alter_ne by exact Hne. exact Hc4.
  - right. eexists. rewrite B1. split; reflexivity.
Qed.

Lemma stopBot_inv (id : string) (now : Z) (st : System) :
  store_clean st = true ->
  store_clean (stopBot id now st) = true /\ executors (stopBot id now st) = executors st.
Proof.
  intros Hc. rewrite stopBot_clean by exact Hc.
  destruct (decide (status_of id st = Some running)); [|split; [exact Hc | reflexivity]].
  destruct (set_status_spec id stopped st (store_clean_valid _ Hc)) as (S1 & _).
  split.
  - unfold store_clean in *. cbn [handleError heap bots]. rewrite S1. exact Hc.
  - cbn [handleError executors]. apply executors_set_bots.
Qed.

Lemma run_tick_inv (e : nat) (env : TickEnv) (st : System) :
  engine_inv st -> engine_inv (run_tick e env st).
Proof.
  intros [Hc Hp].
  destruct (executors st !! e) as [ex|] eqn:He;
    [|unfold run_tick; rewrite He; split; assumption].
  destruct (ex_interval ex) eqn:Harmed;
    [|unfold run_tick; rewrite He, Harmed; split; assumption].
  destruct (heap st !! ex_bot ex) as [bot|] eqn:Hbot;
    [|unfold run_tick; rewrite He, Harmed, Hbot; split; assumption].
  destruct (run_tick_spec e env st ex bot Hc He Harmed Hbot) as (Hrel & Hc1 & ->).
  destruct (tick_body env bot ex st) as [[o ex'] st1].
  destruct Hrel as [(Fm & _ & _ & _ & _ & _ & Fk) (Ee & _)].
  cbn [left_by fst snd] in *.
  assert (Hlt : (e < length (executors st1))%nat).
  { rewrite Ee. eapply lookup_lt_Some, He. }
  destruct (after_tick_frame e env bot ex (o, ex', st1) (store_clean_valid _ Hc1) Hlt)
    as (_ & _ & A3 & _ & _ & A6 & ex'' & X1 & X2 & X3 & _).
  cbn [left_by fst snd] in *. split; [rewrite A3; exact Hc1|].
  intros e' x Hx Hd. destruct (decide (e' = e)) as [-> | Hne].
  - rewrite X1 in Hx. injection Hx as <-. rewrite X3. apply map_keys_nil.
    assert (Hd0 : ex_mode ex = demo) by congruence.
    pose proof (Fk Hd0) as Hk. rewrite (Hp e ex He Hd0) in Hk. exact Hk.
  - rewrite (A6 e' Hne), Ee in Hx. exact (Hp e' x Hx Hd).
Qed.

Lemma step_inv (st : System) (ev : Event) : engine_inv st -> engine_inv (step st ev).
Proof.
  intros [Hc Hp]. destruct ev as [id now botData | id env | id now | e env | c | w]; cbn [step].
  - split; [apply store_clean_createBot, Hc | exact Hp].
  - destruct (startBot_inv id env st Hc) as [H1 [E | (ex & E & Hex)]];
      (split; [exact H1|]); rewrite E; [exact Hp|].
    intros e x Hx Hd. apply lookup_app_Some in Hx as [Hx | [_ Hx]]; [exact (Hp e x Hx Hd)|].
    apply list_lookup_singleton_Some in Hx as [_ <-]. exact Hex.
  - destruct (stopBot_inv id now st Hc) as [H1 E]. split; [exact H1|]. rewrite E. exact Hp.
  - apply run_tick_inv. split; assumption.
  - split; assumption.
  - split; assumption.
Qed.

(** In every reachable state no bot of the store carries a cleanup closure
    and no executor that captured the demo mode holds a position. *)
Lemma reachable_inv (st : System) : reachable st -> engine_inv st.
Proof.
  intros [evs <-]. unfold run. induction evs as [|ev evs IH] using rev_ind.
  - split; [reflexivity|]. intros e ex H. discriminate H.
  - rewrite fold_left_app. cbn [fold_left]. apply step_inv, IH.
Qed.

(** ** Stopping a running bot *)

(** In a reachable state [stopBot] runs no cleanup closure: executors,
    positions and timers, the ledger and the performance records are as
    before the call. *)
Lemma stop_never_liquidates (id : string) (now : Z) (st : System) :
  reachable st ->
  executors (stopBot id now st) = executors st
  /\ tradingMode (stopBot id now st) = tradingMode st
  /\ store_performances (stopBot id now st) = store_performances st.
Proof.
  intros Hr. destruct (reachable_inv st Hr) as [Hc _].
  rewrite stopBot_clean by exact Hc.
  destruct (decide (status_of id st = Some running)); [|repeat split].
  destruct (set_status_spec id stopped st (store_clean_valid _ Hc)) as (_ & S2 & _).
  cbn [handleError executors tradingMode].
  split; [apply executors_set_bots|]. split; [apply tradingMode_set_bots|].
  etransitivity; [|exact S2]. reflexivity.
Qed.

(** The cleanup closure itself, when it is called, clears the timer and
    empties the position map of its executor. *)
Lemma run_cleanup_clears (e : nat) (now : Z) (st : System) (ex : Executor) :
  executors st !! e = Some ex ->
  positions_of e (run_cleanup e now st) = [] /\ timer_armed e (run_cleanup e now st) = false.
Proof.
  intros He. unfold run_cleanup, positions_of, timer_armed. rewrite He.
  assert (Hlt : forall st1, executors st1 = executors st ->
            executors (set_executor e (with_positions [] (clearInterval ex)) st1) !! e
            = Some (with_positions [] (clearInterval ex))).
  { intros st1 E. apply set_executor_lookup. rewrite E. eapply lookup_lt_Some, He. }
  destruct (heap st !! ex_bot ex) as [bot|].
  - destruct (effect_cleanup bot ex now (ex_positions ex) st) as (Ee & _).
    rewrite (Hlt _ Ee). split; reflexivity.
  - rewrite (Hlt st eq_refl). split; reflexivity.
Qed.


Lemma newRate_range (r : Q) (n : nat) (w : bool) :
  0 <= r -> r <= 100 -> 0 <= HelperSpec.newRate r n w /\ HelperSpec.newRate r n w <= 100.
Proof.
  intros H0 H1. unfold HelperSpec.newRate.
  assert (Hn : 0 <= inject_Z (Z.of_nat n)).
  { change 0 with (inject_Z 0). rewrite <- Zle_Qle. lia. }
  set (k := inject_Z (Z.of_nat n)) in *.
  assert (Hc : 0 <= (if w then 100 else 0) /\ (if w then 100 else 0) <= 100)
    by (destruct w; split; discriminate).
  destruct Hc as [Hc0 Hc1]. set (c := if w then 100 else 0) in *.
  split.
  - apply Qle_shift_div_l; [lra|]. nra.
  - apply Qle_shift_div_r; [lra|]. nra.
Qed.

Lemma round2_range (x : Q) :
  0 <= x -> x <= 100 ->
  0 <= inject_Z (JS.round (x * 100)) / 100 /\ inject_Z (JS.round (x * 100)) / 100 <= 100.
Proof.
  intros H0 H1. unfold JS.round.
  assert (L : (0 <= Qfloor (x * 100 + (1 # 2)))%Z).
  { change 0%Z with (Qfloor 0). apply Qfloor_resp_le. lra. }
  assert (U : (Qfloor (x * 100 + (1 # 2)) <= 10000)%Z).
  { change 10000%Z with (Qfloor (10000 + (1 # 2))). apply Qfloor_resp_le. lra. }
  rewrite Zle_Qle in L, U. change (inject_Z 0) with 0 in L. change (inject_Z 10000) with 10000 in U.
  split.
  - apply Qle_shift_div_l; [reflexivity|]. lra.
  - apply Qle_shift_div_r; [reflexivity|]. lra.
Qed.

(** X2 ([calculateWinRate]): a win rate that is a percentage stays a
    percentage after any trade, and counting the trade as a win never gives
    a lower rate than counting it as a loss. *)
Theorem win_rate_stays_percentage (currentWinRate : Q) (totalTrades : nat) (isWin : bool)
    (Hlow : 0 <= currentWinRate) (Hhigh : currentWinRate <= 100) :
  0 <= calculateWinRate currentWinRate totalTrades isWin
  /\ calculateWinRate currentWinRate totalTrades isWin <= 100
  /\ calculateWinRate currentWinRate totalTrades false
     <= calculateWinRate currentWinRate totalTrades true.
Proof.
  destruct (newRate_range currentWinRate totalTrades isWin Hlow Hhigh) as [A B].
  destruct (round2_range _ A B) as [C D].
  split; [exact C|]. split; [exact D|].
  unfold calculateWinRate. cbv zeta. apply Qle_shift_div_r; [reflexivity|].
  match goal with |- _ <= ?a / 100 * 100 => assert (E : a / 100 * 100 == a) by (field) end.
  rewrite E. rewrite <- Zle_Qle. unfold JS.round. apply Qfloor_resp_le.
  assert (Hn : 0 <= inject_Z (Z.of_nat totalTrades)).
  { change 0 with (inject_Z 0). rewrite <- Zle_Qle. lia. }
  set (k := inject_Z (Z.of_nat totalTrades)) in *.
  apply Qplus_le_compat; [|apply Qle_refl].
  apply Qmult_le_compat_r; [|discriminate].
  apply Qle_shift_div_r; [lra|].
  assert (E2 : (currentWinRate * k + 100) / (k + 1) * (k + 1) == currentWinRate * k + 100)
    by (field; lra).
  rewrite E2. lra.
Qed.

Lemma win_rate_stays_percentage_witness :
  0 <= calculateWinRate 50 1 true /\ calculateWinRate 50 1 true <= 100.
Proof.
  destruct (win_rate_stays_percentage 50 1 true) as (A & B & _);
    [discriminate | discriminate | split; assumption].
Defined.

(** ** Further properties of the strategies *)

Lemma gains_nonneg (l : list Q) : 0 <= StrategySpec.gains l.
Proof.
  induction l as [|a [|b rest] IH]; try apply Qle_refl.
  change (StrategySpec.gains (a :: b :: rest))
    with (Qmax 0 (b - a) + StrategySpec.gains (b :: rest)).
  pose proof (Q.le_max_l 0 (b - a)). lra.
Qed.

Lemma losses_nonneg (l : list Q) : 0 <= StrategySpec.losses l.
Proof.
  induction l as [|a [|b rest] IH]; try apply Qle_refl.
  change (StrategySpec.losses (a :: b :: rest))
    with (Qmax 0 (a - b) + StrategySpec.losses (b :: rest)).
  pose proof (Q.le_max_l 0 (a - b)). lra.
Qed.

Lemma losses_zero_iff (l : list Q) : StrategySpec.losses l == 0 <-> never_falls l.
Proof.
  induction l as [|a [|b rest] IH]; try (split; [intros _; exact I | intros _; reflexivity]).
  change (StrategySpec.losses (a :: b :: rest))
    with (Qmax 0 (a - b) + StrategySpec.losses (b :: rest)).
  change (never_falls (a :: b :: rest)) with (a <= b /\ never_falls (b :: rest)).
  pose proof (Q.le_max_l 0 (a - b)) as M0.
  pose proof (Q.le_max_r 0 (a - b)) as M1.
  pose proof (losses_nonneg (b :: rest)) as L.
  split.
  - intros H. split; [lra|]. apply IH. lra.
  - intros [Hab Hrest]. apply IH in Hrest. rewrite Hrest.
    rewrite (Q.max_l 0 (a - b)) by lra. ring.
Qed.

(** X3 ([RSIStrategy.calculateRSI]): the value is always between 0 and 100,
    and it is 100 exactly when no close is below the one before it, a flat
    series included. *)
Theorem rsi_range (prices : list Q) :
  0 <= calculateRSI prices
  /\ calculateRSI prices <= 100
  /\ (calculateRSI prices == 100 <-> never_falls prices).
Proof.
  rewrite (calculateRSI_whole_array prices). unfold StrategySpec.rsi.
  pose proof (gains_nonneg prices) as G. pose proof (losses_nonneg prices) as L.
  pose proof (losses_zero_iff prices) as Z.
  destruct (Qeq_bool (StrategySpec.losses prices) 0) eqn:E.
  - apply Qeq_bool_iff in E. split; [discriminate|]. split; [apply Qle_refl|].
    split; [intros _; apply Z; exact E | reflexivity].
  - assert (Hl : ~ StrategySpec.losses prices == 0).
    { intros H. apply Qeq_bool_iff in H. congruence. }
    set (g := StrategySpec.gains prices) in *. set (l := StrategySpec.losses prices) in *.
    assert (F : 100 - 100 / (1 + g / l) == 100 * g / (g + l)) by (field; split; lra).
    rewrite F.
    assert (Lo : 0 <= 100 * g / (g + l)) by (apply Qle_shift_div_l; lra).
    assert (Hi : 100 * g / (g + l) < 100) by (apply Qlt_shift_div_r; lra).
    split; [exact Lo|]. split; [lra|].
    split; [intros H; lra | intros H; apply Z in H; contradiction].
Qed.

(** X4 ([RSIStrategy.analyze]): when no close is below the one before it
    and there are more than [period] klines, the strategy answers sell for
    any thresholds with [oversold < 100] and [overbought <= 100]: a market
    that does not move at all counts as overbought. *)
Theorem rsi_sells_when_nothing_falls (env : AnalyzeEnv) (period : Z) (overbought oversold : Q)
    (marketData : option MarketData)
    (Hvalid : validateData marketData = Ok tt)
    (Hlen : (period + 1 <= js_length (klines_of marketData))%Z)
    (Hflat : never_falls (map k_close (klines_of marketData)))
    (Hos : oversold < 100) (Hob : overbought <= 100) :
  fst (analyze env (RSIStrategy period overbought oversold) marketData) = Ok (Some (SigAction sell)).
Proof.
  assert (Hrsi : calculateRSI (map k_close (klines_of marketData)) = 100).
  { unfold calculateRSI.
    destruct (rsi_sums_spec (map k_close (klines_of marketData))) as [_ Hl].
    destruct (rsi_sums _) as [g l]. cbn [snd] in Hl.
    rewrite (Qeq_bool_congr _ _ Hl).
    rewrite (proj2 (Qeq_bool_iff _ _) (proj2 (losses_zero_iff _) Hflat)). reflexivity. }
  unfold analyze. rewrite Hvalid.
  destruct (Z.ltb_spec (js_length (klines_of marketData)) (period + 1)); [lia|].
  rewrite Hrsi.
  destruct (Qle_bool 100 oversold) eqn:E1.
  - apply Qle_bool_iff in E1. lra.
  - rewrite (proj2 (Qle_bool_iff _ _) Hob). reflexivity.
Qed.

Lemma rsi_sells_when_nothing_falls_witness :
  fst (analyze quiet_call (RSIStrategy 2 70 30) (snapshot_with 5 steady_closes))
  = Ok (Some (SigAction sell)).
Proof.
  apply rsi_sells_when_nothing_falls.
  - reflexivity.
  - vm_compute. discriminate.
  - vm_compute. repeat split; discriminate.
  - reflexivity.
  - vm_compute. discriminate.
Defined.

Lemma lt_irrefl (x : JS.xnum) : JS.lt x x = false.
Proof.
  destruct x; try reflexivity. cbn. apply Qltb_false_iff. apply Qle_refl.
Qed.

(** X5 ([MACrossStrategy.analyze]): with [fastPeriod = slowPeriod] the two
    averages are the same number, so the strategy never answers buy or
    sell: it answers nothing on every valid snapshot. *)
Theorem ma_equal_periods_never_signal (env : AnalyzeEnv) (period signalPeriod : Z)
    (marketData : option MarketData) :
  fst (analyze env (MACrossStrategy period period signalPeriod) marketData)
  = match validateData marketData with
    | Ok _ => Ok None
    | Throw e => Throw e
    end.
Proof.
  unfold analyze. destruct (validateData marketData); [|reflexivity].
  destruct (_ <? _)%Z; [reflexivity|]. cbv zeta. unfold JS.gt.
  rewrite lt_irrefl. reflexivity.
Qed.

Lemma Forall_insert_by_confidence (P : Recommendation -> Prop) (r : Recommendation)
    (l : list Recommendation) :
  P r -> Forall P l -> Forall P (insert_by_confidence r l).
Proof.
  intros Hr Hl. induction Hl as [|x l Hx Hl IH]; cbn [insert_by_confidence].
  - constructor; [exact Hr | constructor].
  - destruct (Qle_bool _ _); repeat constructor; assumption.
Qed.

Lemma Forall_sort_by_confidence (P : Recommendation -> Prop) (l : list Recommendation) :
  Forall P l -> Forall P (sort_by_confidence l).
Proof.
  induction 1 as [|x l Hx Hl IH]; cbn; [constructor|].
  apply Forall_insert_by_confidence; assumption.
Qed.

Lemma Forall_filter_keeps {A : Type} (P Q : A -> Prop) `{!forall x, Decision (Q x)} (l : list A) :
  Forall P l -> Forall P (filter Q l).
Proof.
  rewrite !Forall_forall. intros Hall x Hx. apply list_elem_of_filter in Hx. apply Hall, Hx.
Qed.

Lemma Forall_filter_holds {A : Type} (Q : A -> Prop) `{!forall x, Decision (Q x)} (l : list A) :
  Forall Q (filter Q l).
Proof.
  rewrite Forall_forall. intros x Hx. apply list_elem_of_filter in Hx. apply Hx.
Qed.

Lemma insert_by_confidence_sorted (r : Recommendation) (l : list Recommendation) :
  by_decreasing_confidence l -> by_decreasing_confidence (insert_by_confidence r l).
Proof.
  induction l as [|x l IH]; cbn [insert_by_confidence by_decreasing_confidence].
  - intros _. split; [constructor | exact I].
  - intros [Hx Hl]. destruct (Qle_bool (rec_confidence x) (rec_confidence r)) eqn:E.
    + apply Qle_bool_iff in E. cbn [by_decreasing_confidence].
      split; [|split; assumption].
      constructor; [exact E|]. eapply Forall_impl; [exact Hx|]. cbn. intros y Hy. lra.
    + cbn [by_decreasing_confidence]. split; [|apply IH, Hl].
      apply Forall_insert_by_confidence; [|exact Hx].
      destruct (Qlt_le_dec (rec_confidence r) (rec_confidence x)) as [Hlt|Hle]; [lra|].
      apply Qle_bool_iff in Hle. congruence.
Qed.

Lemma sort_by_confidence_sorted (l : list Recommendation) :
  by_decreasing_confidence (sort_by_confidence l).
Proof.
  induction l as [|x l IH]; cbn; [exact I|]. apply insert_by_confidence_sorted, IH.
Qed.

Lemma filter_sorted (Q : Recommendation -> Prop) `{!forall x, Decision (Q x)}
    (l : list Recommendation) :
  by_decreasing_confidence l -> by_decreasing_confidence (filter Q l).
Proof.
  induction l as [|x l IH]; [intros _; exact I|].
  intros [Hx Hl]. rewrite filter_cons. destruct (decide (Q x)).
  - split; [apply Forall_filter_keeps, Hx | apply IH, Hl].
  - apply IH, Hl.
Qed.

Lemma take_sorted (n : nat) (l : list Recommendation) :
  by_decreasing_confidence l -> by_decreasing_confidence (take n l).
Proof.
  revert n. induction l as [|x l IH]; intros [|n]; cbn; try (intros; exact I).
  intros [Hx Hl]. split; [apply Forall_take, Hx | apply IH, Hl].
Qed.

(** X8 ([MultiCoinStrategy.analyze], [parseRecommendations]): whenever the
    multi-coin strategy answers, every entry of the buy list is a buy
    recommendation at or above the confidence threshold for a coin that is
    not held, with a symbol and a non-zero price; every entry of the sell
    list is a held coin that is recommended for sale or has fallen below
    the threshold; no coin is in both lists; both lists are ordered by
    decreasing confidence; and when the held coins do not exceed
    [maxPositions], the buy list is no longer than the free slots. *)
Theorem multi_coin_signal_shape (env : AnalyzeEnv) (confidenceThreshold : Q)
    (maxPositions updateInterval lastUpdate : Z) (activeSymbols : gset string)
    (marketData : option MarketData) (buys sells : list Recommendation) (after : Strategy)
    (Hanswer : analyze env (MultiCoinStrategy confidenceThreshold maxPositions updateInterval
                              lastUpdate activeSymbols) marketData
               = (Ok (Some (SigMulti buys sells)), after)) :
  Forall (fun r => confidenceThreshold <= rec_confidence r
                   /\ is_buy_action (rec_action r) = true
                   /\ (rec_symbol r ∉ activeSymbols)
                   /\ rec_symbol r <> EmptyString
                   /\ ~ rec_price r == 0) buys
  /\ Forall (fun r => rec_symbol r ∈ activeSymbols
                      /\ (is_sell_action (rec_action r) = true
                          \/ rec_confidence r < confidenceThreshold)) sells
  /\ (forall b s, b ∈ buys -> s ∈ sells -> rec_symbol b <> rec_symbol s)
  /\ by_decreasing_confidence buys
  /\ by_decreasing_confidence sells
  /\ ((Z.of_nat (size activeSymbols) <= maxPositions)%Z ->
      (js_length buys <= maxPositions - Z.of_nat (size activeSymbols))%Z).
Proof.
  unfold analyze in Hanswer.
  destruct (_ <? _)%Z; [discriminate|].
  destruct (ae_analysis env) as [content|]; [|discriminate].
  cbv zeta in Hanswer. injection Hanswer as Hb Hs _.
  assert (Hparsed : Forall (fun r => rec_symbol r <> EmptyString /\ ~ rec_price r == 0)
                      (sort_by_confidence (parseRecommendations content))).
  { apply Forall_sort_by_confidence. unfold parseRecommendations.
    eapply Forall_impl; [apply Forall_filter_holds|].
    cbn. intros r (Hsym & _ & Hprice). split; [exact Hsym|].
    intros H. apply Qeq_bool_iff in H. congruence. }
  assert (B : Forall (fun r => confidenceThreshold <= rec_confidence r
                   /\ is_buy_action (rec_action r) = true
                   /\ (rec_symbol r ∉ activeSymbols)
                   /\ rec_symbol r <> EmptyString
                   /\ ~ rec_price r == 0) buys).
  { subst buys. unfold slice_to. cbv zeta. apply Forall_take.
    rewrite Forall_forall. intros r Hr. apply list_elem_of_filter in Hr.
    destruct Hr as [(Hc & Ha & Hn) Hin].
    rewrite Forall_forall in Hparsed. destruct (Hparsed r Hin) as [Hsym Hprice].
    apply Qle_bool_iff in Hc. repeat split; assumption. }
  assert (S : Forall (fun r => rec_symbol r ∈ activeSymbols
                      /\ (is_sell_action (rec_action r) = true
                          \/ rec_confidence r < confidenceThreshold)) sells).
  { subst sells. eapply Forall_impl; [apply Forall_filter_holds|].
    cbn. intros r [Hin [Hsell | Hlow]]; (split; [exact Hin|]); [left; exact Hsell|].
    right. apply Qltb_iff. exact Hlow. }
  split; [exact B|]. split; [exact S|]. split; [|split; [|split]].
  - intros b s Hb' Hs' Heq.
    rewrite Forall_forall in B. rewrite Forall_forall in S.
    destruct (B b Hb') as (_ & _ & Hout & _). destruct (S s Hs') as (Hin & _).
    apply Hout. rewrite Heq. exact Hin.
  - subst buys. unfold slice_to. cbv zeta.
    apply take_sorted, filter_sorted, sort_by_confidence_sorted.
  - subst sells. apply filter_sorted, sort_by_confidence_sorted.
  - intros Hroom. subst buys. unfold slice_to, js_length. cbv zeta.
    rewrite length_take.
    destruct (Z.ltb_spec (maxPositions - Z.of_nat (size activeSymbols)) 0); lia.
Qed.

Lemma multi_coin_signal_shape_witness :
  by_decreasing_confidence (take 1 two_coin_reply)
  /\ by_decreasing_confidence (drop 1 two_coin_reply).
Proof.
  destruct (multi_coin_signal_shape (two_coin_call 1000000) (7 # 10) 5 900000 0 {["ETH"%string]}
              None (drop 1 two_coin_reply) (take 1 two_coin_reply)
              (MultiCoinStrategy (7 # 10) 5 900000 1000000 {["ETH"%string]}))
    as (_ & _ & _ & Hb & Hs & _).
  - vm_compute. reflexivity.
  - split; assumption.
Defined.

Lemma updates_keep_clock (updates : list (string * bool)) (c : Q) (m u l : Z) (a : gset string) :
  exists a',
    foldl (fun s change => updateActiveSymbols (fst change) (snd change) s)
          (MultiCoinStrategy c m u l a) updates
    = MultiCoinStrategy c m u l a'.
Proof.
  revert a. induction updates as [|[symbol isActive] updates IH]; intros a; cbn [foldl].
  - exists a. reflexivity.
  - cbn [updateActiveSymbols fst snd]. apply IH.
Qed.

(** X9 ([MultiCoinStrategy.analyze], [updateActiveSymbols]): once the
    multi-coin strategy has answered, every call made less than
    [updateInterval] milliseconds later answers nothing and leaves the
    instance as it is, whatever coins were opened or closed in between and
    whatever the analysis service would reply. *)
Theorem multi_coin_rate_limit (first second : AnalyzeEnv) (confidenceThreshold : Q)
    (maxPositions updateInterval lastUpdate : Z) (activeSymbols : gset string)
    (marketData marketData' : option MarketData) (signal : Signal) (after : Strategy)
    (updates : list (string * bool))
    (Hanswer : analyze first (MultiCoinStrategy confidenceThreshold maxPositions updateInterval
                                lastUpdate activeSymbols) marketData
               = (Ok (Some signal), after))
    (Hsoon : (ae_now second - ae_now first < updateInterval)%Z) :
  let later := foldl (fun s change => updateActiveSymbols (fst change) (snd change) s)
                     after updates in
  analyze second later marketData' = (Ok None, later).
Proof.
  unfold analyze in Hanswer.
  destruct (_ <? _)%Z; [discriminate|].
  destruct (ae_analysis first); [|discriminate].
  cbv zeta in Hanswer. injection Hanswer as _ <-.
  destruct (updates_keep_clock updates confidenceThreshold maxPositions updateInterval
              (ae_now first) activeSymbols) as [a' E].
  cbv zeta. rewrite E. unfold analyze.
  destruct (Z.ltb_spec (ae_now second - ae_now first) updateInterval); [reflexivity | lia].
Qed.

Lemma multi_coin_rate_limit_witness :
  analyze (two_coin_call 1500000)
    (updateActiveSymbols "BTC" true (MultiCoinStrategy (7 # 10) 5 900000 1000000 {["ETH"%string]}))
    None
  = (Ok None,
     updateActiveSymbols "BTC" true (MultiCoinStrategy (7 # 10) 5 900000 1000000 {["ETH"%string]})).
Proof.
  apply (multi_coin_rate_limit (two_coin_call 1000000) (two_coin_call 1500000) (7 # 10) 5 900000 0
           {["ETH"%string]} None None
           (SigMulti (drop 1 two_coin_reply) (take 1 two_coin_reply))
           (MultiCoinStrategy (7 # 10) 5 900000 1000000 {["ETH"%string]})
           [("BTC"%string, true)]).
  - vm_compute. reflexivity.
  - reflexivity.
Defined.

(** X10 ([analyze] of the six strategy classes): a call that does not
    answer with a buy list and a sell list leaves the strategy instance
    exactly as it was; in particular a multi-coin call whose analysis
    failed does not advance [lastUpdate], so the next tick asks again. *)
Theorem analyze_keeps_instance (env : AnalyzeEnv) (strategy : Strategy)
    (marketData : option MarketData)
    (Hplain : forall buys sells,
        fst (analyze env strategy marketData) <> Ok (Some (SigMulti buys sells))) :
  snd (analyze env strategy marketData) = strategy.
Proof.
  destruct strategy; cbn [analyze] in *;
    try (destruct (validateData marketData); [|reflexivity]).
  - destruct (_ <? _)%Z; [reflexivity|]. cbv zeta.
    destruct (JS.gt _ _); [reflexivity|]. destruct (JS.lt _ _); reflexivity.
  - destruct (_ <? _)%Z; [reflexivity|]. cbv zeta.
    destruct (Qle_bool _ _); [reflexivity|]. destruct (Qle_bool _ _); reflexivity.
  - cbv zeta. destruct (JS.mod2_is_zero _); reflexivity.
  - cbv zeta. destruct (JS.Qltb _ _); reflexivity.
  - reflexivity.
  - destruct (_ <? _)%Z; [reflexivity|].
    destruct (ae_analysis env); [|reflexivity].
    cbv zeta in Hplain. cbn [fst] in Hplain. exfalso. eapply Hplain. reflexivity.
Qed.

Lemma analyze_keeps_instance_witness :
  snd (analyze quiet_call (MultiCoinStrategy (7 # 10) 5 900000 0 ∅) None)
  = MultiCoinStrategy (7 # 10) 5 900000 0 ∅.
Proof.
  apply analyze_keeps_instance. intros buys sells. vm_compute. discriminate.
Defined.

(** ** Parameter optimisation *)

(** X11 ([optimizeParameters], ma_cross): after [n >= 1] optimisations the
    fast period is [max(5, fastPeriod - n)] and the slow period is
    [min(30, slowPeriod + n)], the signal period is untouched; so whatever
    the market did, enough rounds end at the periods 5 and 30 and stay
    there. *)
Theorem ma_optimisation_rounds (n : nat) (fastPeriod slowPeriod signalPeriod : Z) :
  optimize_rounds (S n) ma_cross (MACrossParameters fastPeriod slowPeriod signalPeriod)
  = Some (MACrossParameters (Z.max 5 (fastPeriod - Z.of_nat (S n)))
                            (Z.min 30 (slowPeriod + Z.of_nat (S n))) signalPeriod)
  /\ ((fastPeriod - 5 <= Z.of_nat (S n))%Z -> (30 - slowPeriod <= Z.of_nat (S n))%Z ->
      optimize_rounds (S n) ma_cross (MACrossParameters fastPeriod slowPeriod signalPeriod)
      = Some (MACrossParameters 5 30 signalPeriod)).
Proof.
  assert (H : forall n f s,
             optimize_rounds (S n) ma_cross (MACrossParameters f s signalPeriod)
             = Some (MACrossParameters (Z.max 5 (f - Z.of_nat (S n)))
                                       (Z.min 30 (s + Z.of_nat (S n))) signalPeriod)).
  { clear. induction n as [|n IH]; intros f s.
    - reflexivity.
    - change (optimize_rounds (S (S n)) ma_cross (MACrossParameters f s signalPeriod))
        with (optimize_rounds (S n) ma_cross
                (MACrossParameters (Z.max 5 (f - 1)) (Z.min 30 (s + 1)) signalPeriod)).
      rewrite IH. do 2 f_equal; lia. }
  split; [apply H|]. intros Hf Hs. rewrite H. do 2 f_equal; lia.
Qed.

(** X12 ([optimizeParameters], rsi): the period is clamped to 7..21, the
    overbought threshold is lowered to at most 80 and the oversold
    threshold raised to at least 20, never the other way; a period already
    within 7..21 is kept; optimising a second time changes nothing. *)
Theorem rsi_optimisation_clamps (period : Z) (overbought oversold : Q) :
  exists period' overbought' oversold',
    optimizeParameters rsi (RSIParameters period overbought oversold)
    = Some (RSIParameters period' overbought' oversold')
    /\ (7 <= period' <= 21)%Z
    /\ ((7 <= period <= 21)%Z -> period' = period)
    /\ overbought' <= 80 /\ overbought' <= overbought
    /\ 20 <= oversold' /\ oversold <= oversold'
    /\ optimizeParameters rsi (RSIParameters period' overbought' oversold')
       = Some (RSIParameters period' overbought' oversold').
Proof.
  eexists _, _, _. split; [reflexivity|].
  split; [lia|]. split; [lia|].
  split; [apply Q.le_min_l|]. split; [apply Q.le_min_r|].
  split; [apply Q.le_max_l|]. split; [apply Q.le_max_r|].
  cbn [optimizeParameters]. f_equal. f_equal.
  - lia.
  - unfold Qmin, GenericMinMax.gmin. destruct (80 ?= overbought) eqn:E; rewrite ?E; reflexivity.
  - unfold Qmax, GenericMinMax.gmax. destruct (20 ?= oversold) eqn:E; rewrite ?E; reflexivity.
Qed.

(** ** The error store *)

Lemma take_cons_take {A : Type} (n : nat) (x : A) (l : list A) :
  take (S n) (x :: take (S n) l) = take (S n) (x :: l).
Proof. cbn. f_equal. rewrite take_take. f_equal. lia. Qed.

Lemma addError_spec (id : string) (now : Z) (entry : ErrorLog) (errors : list StoredError) :
  addError id now entry errors
  = take 100 ({| err_id := id; err_timestamp := now; err_entry := entry |} :: errors).
Proof.
  unfold addError, slice_to, js_length. cbv zeta.
  change (100 <? 0)%Z with false. cbv iota.
  destruct (Z.min_spec 100 (Z.of_nat (length
              ({| err_id := id; err_timestamp := now; err_entry := entry |} :: errors))))
    as [[_ ->] | [Hle ->]].
  - reflexivity.
  - rewrite Nat2Z.id. rewrite firstn_all. symmetry. apply take_ge. lia.
Qed.

Lemma error_call_length (errors : list StoredError) (c : ErrorCall) :
  (length errors <= 100)%nat -> (length (error_call errors c) <= 100)%nat.
Proof.
  intros H. destruct c as [id now entry | id |]; cbn [error_call].
  - rewrite addError_spec, length_take. lia.
  - unfold removeError. pose proof (length_filter (fun e => err_id e ≠ id) errors). lia.
  - cbn. lia.
Qed.

(** X13 ([useErrorStore]): whatever is added, removed or cleared, the store
    never holds more than 100 entries; and as long as entries are only
    added, as the engine does through [handleError], the store shows
    exactly the 100 latest reports, the latest first. *)
Theorem error_store_keeps_latest_hundred (calls : list ErrorCall) :
  (length (foldl error_call [] calls) <= 100)%nat
  /\ (Forall (fun c => is_Some (is_add c)) calls ->
      map err_entry (foldl error_call [] calls) = take 100 (reverse (omap is_add calls))).
Proof.
  split.
  - induction calls as [|c calls IH] using rev_ind; [cbn; lia|].
    rewrite foldl_snoc. apply error_call_length, IH.
  - induction calls as [|c calls IH] using rev_ind; [reflexivity|].
    intros Hall. apply Forall_app in Hall. destruct Hall as [Hall Hc].
    inversion Hc as [|c' l' Hc1 _]; subst. destruct c as [id now entry | id |];
      try (destruct Hc1 as [x Hx]; discriminate Hx).
    rewrite foldl_snoc, omap_app, reverse_app.
    change (reverse (omap is_add [CallAddError id now entry])) with [entry].
    cbn [error_call app]. rewrite addError_spec.
    rewrite <- (take_cons_take 99 entry (reverse (omap is_add calls))), <- (IH Hall).
    cbn [firstn map err_entry]. f_equal. symmetry. apply firstn_map.
Qed.

(** ** The risk check *)

(** Over exact finite numbers an order is allowed exactly when its value
    [price * amount] does not exceed [maxOrderValue], the daily loss has not
    passed [maxDailyLoss], its leverage, when it has one, does not exceed
    [maxLeverage], and it carries a non-zero stop-loss. *)
Lemma checkOrderRisk_allowed (rs : RiskStore) (order : Order) :
  checkOrderRisk rs order = RiskAllowed
  <-> order_price order * order_amount order <= lim_maxOrderValue (risk_limits rs)
      /\ - lim_maxDailyLoss (risk_limits rs) <= risk_dailyPnL rs
      /\ (forall leverage, order_leverage order = Some leverage ->
            leverage <= lim_maxLeverage (risk_limits rs))
      /\ (exists stopLoss, order_stopLoss order = Some stopLoss /\ ~ stopLoss == 0).
Proof.
  unfold checkOrderRisk. cbv zeta.
  destruct (JS.Qltb (lim_maxOrderValue (risk_limits rs)) (order_price order * order_amount order))
    eqn:E1.
  { apply Qltb_iff in E1. split; [discriminate|]. intros (H & _). lra. }
  apply Qltb_false_iff in E1.
  destruct (JS.Qltb (risk_dailyPnL rs) (- lim_maxDailyLoss (risk_limits rs))) eqn:E2.
  { apply Qltb_iff in E2. split; [discriminate|]. intros (_ & H & _). lra. }
  apply Qltb_false_iff in E2.
  destruct (order_leverage order) as [leverage|] eqn:El.
  - destruct (JS.Qltb (lim_maxLeverage (risk_limits rs)) leverage) eqn:E3.
    { apply Qltb_iff in E3. split; [discriminate|]. intros (_ & _ & H & _).
      specialize (H leverage eq_refl). lra. }
    apply Qltb_false_iff in E3.
    destruct (order_stopLoss order) as [stopLoss|] eqn:Es; cbn [JS.truthy negb].
    + destruct (Qeq_bool stopLoss 0) eqn:E4; cbn [negb].
      * apply Qeq_bool_iff in E4. split; [discriminate|].
        intros (_ & _ & _ & s & Hs & Hnz). injection Hs as <-. contradiction.
      * split; [|reflexivity]. intros _. repeat split; try assumption.
        -- intros l Hl. injection Hl as <-. exact E3.
        -- exists stopLoss. split; [reflexivity|]. intros H. apply Qeq_bool_iff in H. congruence.
    + split; [discriminate|]. intros (_ & _ & _ & s & Hs & _). discriminate.
  - destruct (order_stopLoss order) as [stopLoss|] eqn:Es; cbn [JS.truthy negb].
    + destruct (Qeq_bool stopLoss 0) eqn:E4; cbn [negb].
      * apply Qeq_bool_iff in E4. split; [discriminate|].
        intros (_ & _ & _ & s & Hs & Hnz). injection Hs as <-. contradiction.
      * split; [|reflexivity]. intros _. repeat split; try assumption.
        -- intros l Hl. discriminate.
        -- exists stopLoss. split; [reflexivity|]. intros H. apply Qeq_bool_iff in H. congruence.
    + split; [discriminate|]. intros (_ & _ & _ & s & Hs & _). discriminate.
Qed.

Lemma executors_start_failed (id : string) (st : System) :
  executors (start_failed id st) = executors st.
Proof. unfold start_failed. rewrite executors_set_bots. reflexivity. Qed.

Lemma status_of_same_store (id : string) (st st' : System) :
  heap st' = heap st -> bots st' = bots st -> status_of id st' = status_of id st.
Proof.
  intros Hh Hb. unfold status_of, getBotById. rewrite Hh, Hb. reflexivity.
Qed.

Lemma status_of_start_failed (id : string) (st st0 : System) (s : BotStatus) :
  heap st = heap st0 -> bots st = bots st0 -> valid st0 ->
  status_of id st0 = Some s ->
  status_of id (start_failed id st) = Some error.
Proof.
  intros Hh Hb Hv Hs. unfold start_failed.
  assert (V : valid (handleError MsgStartFailed high st)).
  { unfold valid. cbn [heap bots handleError]. rewrite Hh, Hb. exact Hv. }
  destruct (set_status_spec id error _ V) as (_ & _ & -> & _).
  rewrite (status_of_same_store id st0 (handleError MsgStartFailed high st)) by assumption.
  rewrite Hs. reflexivity.
Qed.

(** X15 ([startBot], [checkOrderRisk]): the order [startBot] submits has the
    bot's [maxPositionSize] as amount, no leverage, and the bot's stop-loss.
    When the risk store rejects it (a zero stop-loss, or a price times
    [maxPositionSize] above [maxOrderValue]) no executor is created, and
    the bot is marked error unless the start was abandoned at the live-mode
    confirmation. *)
Theorem rejected_bot_never_starts (id : string) (now : Z) (confirmed : bool) (rs : RiskStore)
    (currentPrice : Q) (st : System) (a : nat) (bot : TradingBot)
    (Hclean : store_clean st = true)
    (Hfound : getBotById id st = Some a)
    (Hbot : heap st !! a = Some bot)
    (Hrisk : cfg_stopLoss (bot_config bot) == 0
             \/ lim_maxOrderValue (risk_limits rs)
                < currentPrice * cfg_maxPositionSize (bot_config bot)) :
  let st' := startBot id (checked_start now confirmed rs bot currentPrice) st in
  executors st' = executors st
  /\ (st' = st \/ status_of id st' = Some error).
Proof.
  assert (Hno : se_riskAllowed (checked_start now confirmed rs bot currentPrice) = false).
  { cbn [checked_start se_riskAllowed].
    destruct (checkOrderRisk rs (start_order bot currentPrice)) eqn:E; try reflexivity.
    apply checkOrderRisk_allowed in E. cbn [start_order order_price order_amount order_stopLoss] in E.
    destruct E as (Hv & _ & _ & s & Hs & Hnz). injection Hs as <-.
    destruct Hrisk as [Hz | Hbig]; [contradiction | lra]. }
  pose proof (store_clean_valid st Hclean) as Hvalid.
  assert (Hstatus : status_of id st = Some (bot_status bot)).
  { unfold status_of. rewrite Hfound, Hbot. reflexivity. }
  cbv zeta. unfold startBot. rewrite Hfound, Hbot.
  destruct (bool_decide (tm_mode (tradingMode st) = live)
            && negb (se_confirmed (checked_start now confirmed rs bot currentPrice)));
    [split; [reflexivity | left; reflexivity]|].
  cbv zeta.
  destruct (negb (ws_isConnected (webSocket st))).
  { split; [rewrite executors_start_failed; reflexivity|]. right.
    eapply status_of_start_failed; [| | exact Hvalid | exact Hstatus]; reflexivity. }
  destruct (negb (JS.truthy (ws_price (webSocket st)))).
  { destruct (waiting_reports_store 10 0 (handleError MsgFetchingMarketData low st))
      as (Hh & Hb & He & _).
    split; [rewrite executors_start_failed; exact He|]. right.
    eapply status_of_start_failed; [exact Hh | exact Hb | exact Hvalid | exact Hstatus]. }
  rewrite Hno. cbn [negb].
  split; [rewrite executors_start_failed; reflexivity|]. right.
  eapply status_of_start_failed; [| | exact Hvalid | exact Hstatus]; reflexivity.
Qed.

Lemma rejected_bot_never_starts_witness :
  status_of "1"
    (startBot "1" (checked_start 2000 true initialRiskStore created_grid_bot 105) created_engine)
  = Some error.
Proof.
  destruct (rejected_bot_never_starts "1" 2000 true initialRiskStore 105 created_engine 0
              created_grid_bot)
    as [_ [H | H]].
  - vm_compute. reflexivity.
  - vm_compute. reflexivity.
  - vm_compute. reflexivity.
  - right. vm_compute. reflexivity.
  - exfalso. apply (f_equal (fun s => length (reports s))) in H. vm_compute in H. discriminate H.
  - exact H.
Defined.

(** ** The kline buffer *)

Lemma insert_by_time_perm (k : Kline) (l : list Kline) : insert_by_time k l ≡ₚ k :: l.
Proof.
  induction l as [|x l IH]; cbn [insert_by_time]; [reflexivity|].
  destruct (_ <=? _)%Z; [reflexivity|]. rewrite IH. apply Permutation_swap.
Qed.

Lemma sort_by_time_perm (l : list Kline) : sort_by_time l ≡ₚ l.
Proof.
  induction l as [|x l IH]; cbn; [reflexivity|].
  rewrite insert_by_time_perm. fold (sort_by_time l). rewrite IH. reflexivity.
Qed.

Lemma insert_by_time_ordered (k : Kline) (l : list Kline) :
  times_ordered l -> times_ordered (insert_by_time k l).
Proof.
  induction l as [|x l IH]; cbn [insert_by_time times_ordered].
  - intros _. split; [constructor | exact I].
  - intros [Hx Hl]. destruct (Z.leb_spec (k_time k) (k_time x)) as [Hle|Hlt].
    + cbn [times_ordered]. split; [|split; assumption].
      constructor; [exact Hle|]. eapply Forall_impl; [exact Hx|]. cbn. intros y Hy. lia.
    + cbn [times_ordered]. split; [|apply IH, Hl].
      rewrite insert_by_time_perm. constructor; [lia | exact Hx].
Qed.

Lemma sort_by_time_ordered (l : list Kline) : times_ordered (sort_by_time l).
Proof.
  induction l as [|x l IH]; cbn; [exact I|]. apply insert_by_time_ordered, IH.
Qed.

Lemma times_increase_NoDup (l : list Kline) :
  times_ordered l -> NoDup (map k_time l) -> times_increase l.
Proof.
  induction l as [|x l IH]; [intros; exact I|].
  cbn [times_ordered times_increase map]. intros [Hx Hl] Hnd.
  apply NoDup_cons in Hnd. destruct Hnd as [Hnotin Hnd].
  split; [|apply IH; assumption].
  rewrite Forall_forall in Hx. rewrite Forall_forall. intros y Hy.
  specialize (Hx y Hy).
  assert (k_time x <> k_time y); [|lia].
  intros E. apply Hnotin. rewrite E. apply list_elem_of_fmap_2. exact Hy.
Qed.

Lemma NoDup_times_increase (l : list Kline) : times_increase l -> NoDup (map k_time l).
Proof.
  induction l as [|x l IH]; cbn [times_increase map]; [intros; constructor|].
  intros [Hx Hl]. apply NoDup_cons. split; [|apply IH, Hl].
  intros Hin. apply list_elem_of_fmap in Hin. destruct Hin as (y & E & Hy).
  rewrite Forall_forall in Hx. specialize (Hx y Hy). lia.
Qed.

Lemma times_increase_drop (n : nat) (l : list Kline) :
  times_increase l -> times_increase (drop n l).
Proof.
  revert n. induction l as [|x l IH]; intros [|n]; cbn [drop]; try (intros; assumption).
  intros [_ Hl]. apply IH, Hl.
Qed.

Lemma findIndex_time_Some (t : Z) (l : list Kline) (i : nat) :
  findIndex_time t l = Some i -> exists x, l !! i = Some x /\ k_time x = t.
Proof.
  revert i. induction l as [|x l IH]; intros i; cbn [findIndex_time]; [discriminate|].
  destruct (Z.eqb_spec (k_time x) t) as [E|E].
  - intros [= <-]. exists x. split; [reflexivity | exact E].
  - destruct (findIndex_time t l) as [j|]; [|discriminate].
    cbn. intros [= <-]. apply (IH j eq_refl).
Qed.

Lemma findIndex_time_None (t : Z) (l : list Kline) :
  findIndex_time t l = None -> t ∉ map k_time l.
Proof.
  induction l as [|x l IH]; cbn [findIndex_time map]; [intros _; apply not_elem_of_nil|].
  destruct (Z.eqb_spec (k_time x) t) as [E|E]; [discriminate|].
  destruct (findIndex_time t l) as [j|]; [discriminate|]. intros _.
  apply not_elem_of_cons. split; [congruence | apply IH; reflexivity].
Qed.

Lemma slice_from_last_hundred (l : list Kline) :
  slice_from (-100) l = drop (length l - 100) l.
Proof.
  unfold slice_from, js_length. cbv zeta. change (-100 <? 0)%Z with true. cbv iota.
  f_equal. lia.
Qed.

Lemma times_of_new_klines (k : Kline) (klines : list Kline) :
  NoDup (map k_time klines) ->
  NoDup (map k_time (match findIndex_time (k_time k) klines with
                     | Some index => <[ index := k ]> klines
                     | None => klines ++ [k]
                     end)).
Proof.
  intros Hnd. destruct (findIndex_time (k_time k) klines) as [i|] eqn:E.
  - apply findIndex_time_Some in E. destruct E as (x & Hx & Ht).
    change (map k_time (<[i:=k]> klines)) with (k_time <$> <[i:=k]> klines).
    rewrite list_fmap_insert. rewrite list_insert_id; [exact Hnd|].
    rewrite list_lookup_fmap, Hx. cbn. congruence.
  - apply findIndex_time_None in E. rewrite map_app. cbn [map].
    apply NoDup_app. split; [exact Hnd|]. split; [|apply NoDup_singleton].
    intros t Ht Hin. apply list_elem_of_singleton in Hin. subst t. contradiction.
Qed.

Lemma on_kline_invariant (k : Kline) (klines : list Kline) :
  times_increase klines ->
  times_increase (on_kline k klines) /\ (length (on_kline k klines) <= 100)%nat.
Proof.
  intros Hinc. unfold on_kline. cbv zeta. rewrite slice_from_last_hundred. split.
  - apply times_increase_drop, times_increase_NoDup; [apply sort_by_time_ordered|].
    rewrite (sort_by_time_perm _).
    apply times_of_new_klines, NoDup_times_increase, Hinc.
  - rewrite length_drop. lia.
Qed.

Lemma last_of_increasing (k : Kline) (l : list Kline) :
  times_increase l -> k ∈ l -> Forall (fun x => (k_time x <= k_time k)%Z) l ->
  last l = Some k.
Proof.
  induction l as [|x l IH]; [intros _ Hin; inversion Hin|].
  cbn [times_increase]. intros [Hx Hl] Hin Hall.
  apply Forall_cons in Hall. destruct Hall as [_ Hall].
  apply elem_of_cons in Hin. destruct Hin as [-> | Hin].
  - destruct l as [|y l]; [reflexivity|].
    apply Forall_cons in Hx. destruct Hx as [Hxy _].
    apply Forall_cons in Hall. destruct Hall as [Hyx _]. lia.
  - rewrite last_cons. rewrite (IH Hl Hin Hall). reflexivity.
Qed.

Lemma last_drop {A : Type} (n : nat) (l : list A) :
  (n < length l)%nat -> last (drop n l) = last l.
Proof.
  revert n. induction l as [|x l IH]; intros [|n] Hn; cbn [drop length] in *; try reflexivity; try lia.
  rewrite IH by lia. rewrite last_cons. destruct (last l) eqn:E; [reflexivity|].
  apply last_None in E. subst l. cbn in Hn. lia.
Qed.

(** X16 (the [kline] handler of the web-socket store): whatever stream of
    candles arrives, the buffer the strategies read holds at most 100
    candles, ordered by strictly increasing opening time (so no opening
    time twice); and a candle that is at least as recent as everything in
    the buffer is the last entry after its message. *)
Theorem kline_buffer_sorted (stream : list Kline) :
  times_increase (kline_buffer stream)
  /\ (length (kline_buffer stream) <= 100)%nat
  /\ forall k,
       Forall (fun x => (k_time x <= k_time k)%Z) (kline_buffer stream) ->
       last (kline_buffer (stream ++ [k])) = Some k.
Proof.
  assert (Inv : forall s, times_increase (kline_buffer s) /\ (length (kline_buffer s) <= 100)%nat).
  { induction s as [|k s IH] using rev_ind; [cbn; split; [exact I | lia]|].
    unfold kline_buffer. rewrite foldl_snoc. apply on_kline_invariant, IH. }
  split; [apply Inv|]. split; [apply Inv|].
  intros k Hnew. unfold kline_buffer. rewrite foldl_snoc. fold (kline_buffer stream).
  destruct (Inv stream) as [Hinc Hlen].
  pose proof (proj1 (on_kline_invariant k _ Hinc)) as Hinc'.
  unfold on_kline in *. cbv zeta in *. rewrite slice_from_last_hundred in *.
  set (newKlines := match findIndex_time (k_time k) (kline_buffer stream) with
                    | Some index => <[ index := k ]> (kline_buffer stream)
                    | None => kline_buffer stream ++ [k]
                    end) in *.
  assert (Hk : k ∈ newKlines /\ Forall (fun x => (k_time x <= k_time k)%Z) newKlines).
  { unfold newKlines. destruct (findIndex_time _ _) as [i|] eqn:E.
    - apply findIndex_time_Some in E. destruct E as (x & Hx & _). split.
      + apply list_elem_of_lookup. exists i. apply list_lookup_insert_eq.
        apply lookup_lt_Some in Hx. exact Hx.
      + apply Forall_insert; [exact Hnew | lia].
    - split; [apply elem_of_app; right; apply list_elem_of_singleton; reflexivity|].
      apply Forall_app. split; [exact Hnew|]. constructor; [lia | constructor]. }
  destruct Hk as [Hin Hall].
  assert (Hsorted : times_increase (sort_by_time newKlines)).
  { apply times_increase_NoDup; [apply sort_by_time_ordered|].
    rewrite (sort_by_time_perm _). unfold newKlines.
    apply times_of_new_klines, NoDup_times_increase, Hinc. }
  assert (Hpos : (0 < length (sort_by_time newKlines))%nat).
  { rewrite (sort_by_time_perm _). destruct newKlines; [inversion Hin | cbn; lia]. }
  rewrite last_drop by lia.
  apply last_of_increasing; [exact Hsorted | |].
  - rewrite (sort_by_time_perm _). exact Hin.
  - rewrite (sort_by_time_perm _). exact Hall.
Qed.

(** ** The trading-mode store *)

Lemma truthy_id_Some (id : string) : truthy_id (Some id) = true <-> id <> EmptyString.
Proof.
  cbn. destruct (String.eqb_spec id EmptyString) as [E|E]; cbn; split; intros H;
    congruence.
Qed.

Lemma accounts_inv_same {A : Type} (st st' : ModeStore A) :
  ms_exchangeAccounts st' = ms_exchangeAccounts st ->
  ms_activeAccountId st' = ms_activeAccountId st ->
  (ms_mode st' = live -> ms_mode st = live) ->
  accounts_inv st -> accounts_inv st'.
Proof.
  intros Ea Ei Em (H1 & H2 & H3). unfold accounts_inv. rewrite Ea, Ei.
  split; [exact H1|]. split; [exact H2|]. intros Hl. apply H3, Em, Hl.
Qed.

Lemma mode_set_balance_of (mode : TradingMode) (b : gmap string Q) (l : TradingModeStore) :
  tm_mode (set_balance_of mode b l) = tm_mode l.
Proof. destruct mode; reflexivity. Qed.

Lemma accounts_inv_setMode {A : Type} (mode : TradingMode) (confirmed : bool) (st : ModeStore A) :
  accounts_inv st -> accounts_inv (ms_setMode mode confirmed st).
Proof.
  intros Hinv. destruct mode; cbn [ms_setMode].
  - apply (accounts_inv_same st); try reflexivity; [|exact Hinv]. discriminate.
  - destruct (truthy_id (ms_activeAccountId st)) eqn:Et; cbn [negb].
    + destruct confirmed; cbn [negb]; [|exact Hinv].
      destruct Hinv as (H1 & H2 & H3). split; [exact H1|]. split; [exact H2|].
      intros _. exact Et.
    + apply (accounts_inv_same st); try reflexivity; [|exact Hinv]. intros H. exact H.
Qed.

Lemma accounts_inv_remove {A : Type} (accountId : string) (st : ModeStore A) :
  accounts_inv st -> accounts_inv (ms_removeExchangeAccount accountId st).
Proof.
  intros (H1 & H2 & H3). unfold ms_removeExchangeAccount. cbv zeta.
  set (newAccounts := filter (fun a => acc_id a ≠ accountId) (ms_exchangeAccounts st)).
  assert (Hnew : Forall (fun a => acc_id a <> EmptyString) newAccounts).
  { unfold newAccounts. rewrite Forall_forall in H1. rewrite Forall_forall.
    intros a Ha. apply list_elem_of_filter in Ha. apply H1, Ha. }
  set (st1 := if bool_decide (newAccounts = []) && bool_decide (ms_mode st = live)
              then ms_setMode demo true st else st).
  assert (Hmode : ms_mode st1 = live -> ms_mode st = live /\ newAccounts <> []).
  { unfold st1. destruct (bool_decide (newAccounts = [])) eqn:E1; cbn [andb].
    - destruct (bool_decide (ms_mode st = live)) eqn:E2.
      + cbn. discriminate.
      + apply bool_decide_eq_false in E2. intros H. contradiction.
    - apply bool_decide_eq_false in E1. intros H. split; assumption. }
  split; [exact Hnew|]. cbn [ms_with_accounts ms_activeAccountId ms_exchangeAccounts].
  destruct (decide (ms_activeAccountId st = Some accountId)) as [Eact|Nact].
  - destruct newAccounts as [|a rest] eqn:En; cbn [head].
    + split; [discriminate|]. intros Hl. apply Hmode in Hl. destruct Hl as [_ Hl]. congruence.
    + apply Forall_cons in Hnew. destruct Hnew as [Ha _].
      destruct (String.eqb_spec (acc_id a) EmptyString) as [E|E]; [contradiction|].
      split.
      * intros _. exists (acc_id a). split; [reflexivity|]. cbn. left. reflexivity.
      * intros _. apply truthy_id_Some. exact E.
  - split.
    + intros Ht. destruct (H2 Ht) as (id & Hid & Hin). exists id. split; [exact Hid|].
      apply in_map_iff in Hin. destruct Hin as (a & Ea & Ha). apply in_map_iff.
      exists a. split; [exact Ea|]. apply list_elem_of_In. unfold newAccounts.
      apply list_elem_of_filter. split; [|apply list_elem_of_In; exact Ha].
      rewrite Ea. intros ->. apply Nact. exact Hid.
    + intros Hl. apply Hmode in Hl. apply H3, Hl.
Qed.

Lemma accounts_inv_call {A : Type} (st : ModeStore A) (c : ModeCall A) :
  accounts_inv st -> from_settings st c -> accounts_inv (mode_call st c).
Proof.
  intros Hinv Hc. destruct c; cbn [mode_call from_settings] in *;
    try (apply (accounts_inv_same st);
         [reflexivity | reflexivity | intros H; exact H | exact Hinv]).
  - apply accounts_inv_setMode, Hinv.
  - destruct Hinv as (H1 & H2 & H3). unfold ms_addExchangeAccount. cbv zeta.
    unfold accounts_inv.
    cbn [ms_report ms_with_accounts ms_exchangeAccounts ms_activeAccountId].
    split; [apply Forall_app; split; [exact H1 | constructor; [exact Hc | constructor]]|].
    destruct (truthy_id (ms_activeAccountId st)) eqn:Et.
    + split; [|intros _; exact Et]. intros _. destruct (H2 eq_refl) as (i & Hi & Hin).
      exists i. split; [exact Hi|]. rewrite map_app. apply in_or_app. left. exact Hin.
    + split; [|intros _; apply truthy_id_Some; exact Hc]. intros _.
      exists id. split; [reflexivity|]. rewrite map_app. apply in_or_app. right. left. reflexivity.
  - apply accounts_inv_remove, Hinv.
  - destruct Hinv as (H1 & H2 & H3). unfold ms_setActiveAccount, accounts_inv.
    cbn [ms_with_accounts ms_exchangeAccounts ms_activeAccountId].
    assert (Ht : truthy_id (Some accountId) = true).
    { apply truthy_id_Some. apply in_map_iff in Hc. destruct Hc as (a & <- & Ha).
      rewrite Forall_forall in H1. apply H1, list_elem_of_In, Ha. }
    split; [exact H1|]. split; [|intros _; exact Ht].
    intros _. exists accountId. split; [reflexivity | exact Hc].
  - apply (accounts_inv_same st); try reflexivity; [|exact Hinv].
    unfold ms_mode, ms_updateBalance. cbn [ms_with_ledger ms_ledger].
    rewrite updateBalance_mode. intros H; exact H.
  - unfold ms_resetDemo. destruct confirmed; [|exact Hinv].
    apply (accounts_inv_same st); try reflexivity; [|exact Hinv].
    unfold ms_mode. cbn. intros H; exact H.
  - unfold ms_setDemoConfig. cbv zeta. destruct initialBalance;
      (apply (accounts_inv_same st); try reflexivity; [|exact Hinv]);
      unfold ms_mode; cbn; intros H; exact H.
Qed.

Lemma accounts_inv_run {A : Type} (calls : list (ModeCall A)) (st : ModeStore A) :
  accounts_inv st -> settings_run st calls -> accounts_inv (foldl mode_call st calls).
Proof.
  revert st. induction calls as [|c calls IH]; intros st Hinv Hrun; [exact Hinv|].
  destruct Hrun as [Hc Hrest]. cbn [foldl]. apply IH; [|exact Hrest].
  apply accounts_inv_call; assumption.
Qed.

(** X17 ([setMode], [addExchangeAccount], [removeExchangeAccount],
    [setActiveAccount], [getActiveAccount]): starting from the initial
    store, as long as accounts get non-empty ids and only listed accounts
    are activated, the store is never in live mode without an active
    account: [getActiveAccount()] then returns a listed account.  Removing
    the last account while live puts the store back in demo mode. *)
Theorem live_mode_has_account {A : Type} (calls : list (ModeCall A))
    (Hrun : settings_run (initialModeStore A) calls) :
  let st := foldl mode_call (initialModeStore A) calls in
  ms_mode st = live ->
  exists account,
    ms_getActiveAccount st = Some account
    /\ In account (ms_exchangeAccounts st)
    /\ ms_activeAccountId st = Some (acc_id account).
Proof.
  cbv zeta. intros Hlive.
  assert (Hinit : accounts_inv (initialModeStore A)).
  { split; [constructor|]. split; discriminate. }
  destruct (accounts_inv_run calls _ Hinit Hrun) as (_ & H2 & H3).
  destruct (H2 (H3 Hlive)) as (id & Hid & Hin).
  apply in_map_iff in Hin. destruct Hin as (a & Ea & Ha).
  unfold ms_getActiveAccount.
  destruct (List.find _ _) as [account|] eqn:E.
  - apply find_some in E. destruct E as [Hacc Hb]. apply bool_decide_eq_true in Hb.
    exists account. repeat split; [exact Hacc | symmetry; exact Hb].
  - exfalso. pose proof (find_none _ _ E a Ha) as Hf. cbn in Hf.
    apply bool_decide_eq_false in Hf. apply Hf. rewrite Ea. symmetry. exact Hid.
Qed.

Lemma live_mode_has_account_witness :
  exists account,
    ms_getActiveAccount (foldl mode_call (initialModeStore unit) go_live) = Some account
    /\ In account (ms_exchangeAccounts (foldl mode_call (initialModeStore unit) go_live))
    /\ ms_activeAccountId (foldl mode_call (initialModeStore unit) go_live)
       = Some (acc_id account).
Proof.
  apply (live_mode_has_account go_live).
  - cbn. repeat split. discriminate.
  - reflexivity.
Defined.

(** X18 (the eleven operations of the trading-mode store): the books of the
    two modes are separate.  No call made in demo mode changes the live
    balances, positions or orders; a call made in live mode changes the
    demo books only if it is [resetDemo] or [setDemoConfig], which rewrite
    the demo account whatever the mode.  A change of mode moves nothing. *)
Theorem books_are_separate {A : Type} (c : ModeCall A) (st : ModeStore A) :
  (ms_mode st = demo -> books live (mode_call st c) = books live st)
  /\ (ms_mode st = live -> rewrites_demo c = false ->
      books demo (mode_call st c) = books demo st).
Proof.
  assert (Hset : forall mode confirmed m,
             books m (@ms_setMode A mode confirmed st) = books m st).
  { intros mode confirmed m. destruct mode; cbn [ms_setMode].
    - destruct m; reflexivity.
    - destruct (negb (truthy_id _)); [destruct m; reflexivity|].
      destruct (negb confirmed); [reflexivity|].
      destruct m; reflexivity. }
  split.
  - intros Hm. unfold ms_mode in Hm.
    destruct c; cbn [mode_call]; try reflexivity.
    + apply Hset.
    + unfold ms_removeExchangeAccount. cbv zeta.
      destruct (_ && _); [|reflexivity].
      change (books live (ms_with_accounts ?a ?i ?s)) with (books live s).
      apply Hset.
    + unfold books, ms_updateBalance. cbn [ms_with_ledger ms_ledger ms_positions ms_orders
        ms_positions_live ms_orders_live].
      unfold updateBalance. rewrite Hm. reflexivity.
    + unfold books, ms_addPosition, ms_mode. rewrite Hm. reflexivity.
    + unfold books, ms_closePosition, ms_mode. rewrite Hm. reflexivity.
    + unfold books, ms_addOrder, ms_mode. rewrite Hm. reflexivity.
    + unfold books, ms_cancelOrder, ms_mode. rewrite Hm. reflexivity.
    + unfold ms_resetDemo. destruct confirmed; reflexivity.
    + unfold ms_setDemoConfig. destruct initialBalance; reflexivity.
  - intros Hm Hc. unfold ms_mode in Hm.
    destruct c; cbn [mode_call]; try discriminate Hc; try reflexivity.
    + apply Hset.
    + unfold ms_removeExchangeAccount. cbv zeta.
      destruct (_ && _); [|reflexivity].
      change (books demo (ms_with_accounts ?a ?i ?s)) with (books demo s).
      apply Hset.
    + unfold books, ms_updateBalance. cbn [ms_with_ledger ms_ledger ms_positions ms_orders
        ms_positions_demo ms_orders_demo].
      unfold updateBalance. rewrite Hm. reflexivity.
    + unfold books, ms_addPosition, ms_mode. rewrite Hm. reflexivity.
    + unfold books, ms_closePosition, ms_mode. rewrite Hm. reflexivity.
    + unfold books, ms_addOrder, ms_mode. rewrite Hm. reflexivity.
    + unfold books, ms_cancelOrder, ms_mode. rewrite Hm. reflexivity.
Qed.

Lemma filter_keeps_all {B : Type} (P : B -> Prop) `{!forall x, Decision (P x)} (l : list B) :
  Forall P l -> filter P l = l.
Proof.
  induction 1 as [|x l Hx Hl IH]; [reflexivity|].
  rewrite filter_cons. destruct (decide (P x)); [|contradiction]. rewrite IH. reflexivity.
Qed.

(** X20 ([addPosition], [closePosition], [addOrder], [cancelOrder]):
    closing a position right after it was added, under an id that no other
    position of the current mode has, gives back the store exactly as it
    was; the same holds for an order that is added and then cancelled. *)
Theorem close_undoes_add {A : Type} (id : string) (entry : A) (st : ModeStore A)
    (Hfresh_position : Forall (fun p => booked_id p <> id) (ms_getPositions st))
    (Hfresh_order : Forall (fun o => booked_id o <> id) (ms_getOrders st)) :
  ms_closePosition id (ms_addPosition id entry st) = st
  /\ ms_cancelOrder id (ms_addOrder id entry st) = st.
Proof.
  assert (Hsingle : filter (fun p : Booked A => booked_id p ≠ id)
                      [{| booked_id := id; booked_data := entry |}] = []).
  { rewrite filter_cons. destruct (decide _) as [H|H]; [|reflexivity]. cbn in H. congruence. }
  unfold ms_getPositions, ms_getOrders, ms_closePosition, ms_addPosition,
    ms_cancelOrder, ms_addOrder, ms_mode in *.
  destruct st as [[mode bd bl] accounts active pd pl od ol config reports].
  destruct mode; cbn -[filter app] in *;
    rewrite !filter_app, !Hsingle, !app_nil_r;
    rewrite (filter_keeps_all _ _ Hfresh_position), (filter_keeps_all _ _ Hfresh_order);
    split; reflexivity.
Qed.

Lemma close_undoes_add_witness :
  ms_closePosition "7" (ms_addPosition "7" tt (initialModeStore unit)) = initialModeStore unit.
Proof.
  apply (close_undoes_add "7" tt (initialModeStore unit)); constructor.
Defined.

(** ** Captured objects *)

Lemma heap_kept_refl (st : System) : heap_kept st st.
Proof. intros a b H. exists b. split; [exact H | reflexivity]. Qed.

Lemma heap_kept_trans (st1 st2 st3 : System) :
  heap_kept st1 st2 -> heap_kept st2 st3 -> heap_kept st1 st3.
Proof.
  intros H1 H2 a b Hb. destruct (H1 a b Hb) as (b' & Hb' & E1).
  destruct (H2 a b' Hb') as (b'' & Hb'' & E2). exists b''. split; [exact Hb'' | congruence].
Qed.

Lemma heap_kept_same (st st' : System) : heap st' = heap st -> heap_kept st st'.
Proof. intros E a b H. exists b. rewrite E. split; [exact H | reflexivity]. Qed.

Lemma heap_kept_exact (st st' : System) :
  (forall a b, heap st !! a = Some b -> heap st' !! a = Some b) -> heap_kept st st'.
Proof. intros E a b H. exists b. split; [apply E, H | reflexivity]. Qed.

Lemma heap_kept_set_bots (id : string) (f : TradingBot -> TradingBot) (st : System) :
  heap_kept st (set_bots id f st).
Proof. apply heap_kept_exact. intros a b. apply heap_set_bots. Qed.

Lemma heap_kept_start_failed (id : string) (st : System) : heap_kept st (start_failed id st).
Proof.
  unfold start_failed. eapply heap_kept_trans; [|apply heap_kept_set_bots].
  apply heap_kept_same. reflexivity.
Qed.

Lemma heap_kept_startBot (id : string) (env : StartEnv) (st : System) :
  heap_kept st (startBot id env st).
Proof.
  unfold startBot.
  destruct (getBotById id st) as [a|]; [|apply heap_kept_same; reflexivity].
  destruct (heap st !! a) as [bot|]; [|apply heap_kept_refl].
  destruct (_ && _); [apply heap_kept_refl|]. cbv zeta.
  destruct (negb (ws_isConnected _)).
  { eapply heap_kept_trans; [|apply heap_kept_start_failed]. apply heap_kept_same. reflexivity. }
  destruct (negb (JS.truthy _)).
  { eapply heap_kept_trans; [|apply heap_kept_start_failed]. apply heap_kept_same.
    destruct (waiting_reports_store 10 0 (handleError MsgFetchingMarketData low st)) as [-> _].
    reflexivity. }
  destruct (negb (se_riskAllowed env)).
  { eapply heap_kept_trans; [|apply heap_kept_start_failed]. apply heap_kept_same. reflexivity. }
  destruct (createStrategy _ _) as [strategy|].
  2:{ eapply heap_kept_trans; [|apply heap_kept_start_failed]. apply heap_kept_same. reflexivity. }
  unfold startStrategyExecutor. cbn [handleError set_executors set_store executors heap bots].
  intros a0 b Hb.
  assert (H4 : heap (set_bots id
                 (fun b0 => with_performance (with_startTime (se_now env) (bot_performance b0))
                              (with_status running b0))
                 (handleError MsgInitStrategy low
                    (handleError MsgRiskAssessment low
                       (handleError MsgFetchingMarketData low st)))) !! a0 = Some b).
  { apply heap_set_bots. exact Hb. }
  cbn [handleError set_executors set_store executors heap bots].
  destruct (decide (a0 = a)) as [-> | Hne].
  - eexists. rewrite list_lookup_alter_eq, H4. split; reflexivity.
  - exists b. rewrite list_lookup_alter_ne by congruence. split; [exact H4 | reflexivity].
Qed.

Lemma heap_kept_after_tick (e : nat) (env : TickEnv) (bot : TradingBot) (ex : Executor)
    (r : TickOutcome * Executor * System) :
  heap_kept (snd (left_by r)) (after_tick e env bot ex r).
Proof.
  destruct r as [[o ex'] st1]. unfold after_tick. cbn [left_by outcome_of fst snd].
  destruct o as [| | x]; try (apply heap_kept_same; reflexivity).
  cbv zeta. destruct (5 <=? _)%nat; [|apply heap_kept_same; reflexivity].
  destruct (decide _); [|apply heap_kept_same; reflexivity].
  eapply heap_kept_trans; [|apply heap_kept_same; reflexivity].
  eapply heap_kept_trans; [|apply heap_kept_set_bots].
  apply heap_kept_same. reflexivity.
Qed.

Lemma closures_kept_same (st st' : System) :
  executors st' = executors st -> closures_kept st st'.
Proof. intros E e ex H. exists ex. rewrite E. repeat split. exact H. Qed.

Lemma step_keeps (st : System) (ev : Event) :
  engine_inv st -> heap_kept st (step st ev) /\ closures_kept st (step st ev).
Proof.
  intros [Hc Hp]. destruct ev as [id now botData | id env | id now | e env | c | w]; cbn [step].
  - split; [|apply closures_kept_same; reflexivity].
    apply heap_kept_exact. intros a b H. cbn. apply lookup_app_l_Some, H.
  - split; [apply heap_kept_startBot|].
    destruct (startBot_inv id env st Hc) as [_ [E | (x & E & _)]];
      [apply closures_kept_same, E|].
    intros e ex H. exists ex. rewrite E. repeat split. apply lookup_app_l_Some, H.
  - split; [|apply closures_kept_same, stopBot_inv, Hc].
    rewrite stopBot_clean by exact Hc. destruct (decide _); [|apply heap_kept_refl].
    eapply heap_kept_trans; [apply heap_kept_set_bots | apply heap_kept_same; reflexivity].
  - destruct (executors st !! e) as [ex|] eqn:He;
      [|unfold run_tick; rewrite He; split;
        [apply heap_kept_refl | apply closures_kept_same; reflexivity]].
    destruct (ex_interval ex) eqn:Harmed;
      [|unfold run_tick; rewrite He, Harmed; split;
        [apply heap_kept_refl | apply closures_kept_same; reflexivity]].
    destruct (heap st !! ex_bot ex) as [bot|] eqn:Hbot;
      [|unfold run_tick; rewrite He, Harmed, Hbot; split;
        [apply heap_kept_refl | apply closures_kept_same; reflexivity]].
    destruct (run_tick_spec e env st ex bot Hc He Harmed Hbot) as (Hrel & Hc1 & ->).
    pose proof (heap_kept_after_tick e env bot ex (tick_body env bot ex st)) as Hheap.
    destruct (tick_body env bot ex st) as [[o ex'] st1].
    destruct Hrel as [(Fm & Fb & Fw & _) (Ee & _ & _ & _ & _ & Eh & _)].
    cbn [left_by fst snd] in *.
    assert (Hlt : (e < length (executors st1))%nat).
    { rewrite Ee. eapply lookup_lt_Some, He. }
    destruct (after_tick_frame e env bot ex (o, ex', st1) (store_clean_valid _ Hc1) Hlt)
      as (_ & _ & _ & _ & _ & A6 & ex'' & X1 & X2 & _ & X4 & X5 & _).
    cbn [left_by fst snd] in *. split.
    + eapply heap_kept_trans; [apply heap_kept_exact, Eh | exact Hheap].
    + intros e' x Hx. destruct (decide (e' = e)) as [-> | Hne].
      * rewrite He in Hx. injection Hx as <-. exists ex''.
        split; [exact X1|]. repeat split; congruence.
      * exists x. rewrite (A6 e' Hne), Ee. repeat split. exact Hx.
  - split; [apply heap_kept_same | apply closures_kept_same]; reflexivity.
  - split; [apply heap_kept_same | apply closures_kept_same]; reflexivity.
Qed.

Lemma step_keeps_captures (st : System) (ev : Event) (e : nat)
    (c : WsState * TradingMode * TradingBot) :
  engine_inv st -> captured_by e st = Some c -> captured_by e (step st ev) = Some c.
Proof.
  intros Hinv. destruct (step_keeps st ev Hinv) as [Hh Hx]. unfold captured_by.
  destruct (executors st !! e) as [ex|] eqn:He; [|discriminate].
  destruct (heap st !! ex_bot ex) as [bot|] eqn:Hb; [|discriminate].
  intros [= <-]. destruct (Hx e ex He) as (ex' & -> & Eb & Ew & Em).
  destruct (Hh _ _ Hb) as (bot' & Hb' & Ec). rewrite Eb, Hb', Ew, Em, Ec. reflexivity.
Qed.

Lemma run_keeps_captures (evs : list Event) (st : System) (e : nat)
    (c : WsState * TradingMode * TradingBot) :
  engine_inv st -> captured_by e st = Some c ->
  engine_inv (run evs st) /\ captured_by e (run evs st) = Some c.
Proof.
  revert st. induction evs as [|ev evs IH]; intros st Hinv Hc; [split; assumption|].
  cbn [run fold_left]. apply IH; [apply step_inv, Hinv | apply step_keeps_captures; assumption].
Qed.

(** X21 ([startStrategyExecutor]): what a closure captured when it was
    created never changes.  Whatever happens afterwards (market messages,
    switches of mode, trades, starts and stops), executor [e] keeps reading
    the web-socket state, the trading mode and the bot object (status,
    configuration and performance) of the moment it was started. *)
Theorem executor_captures_are_frozen (st : System) (e : nat)
    (c : WsState * TradingMode * TradingBot)
    (Hreach : reachable st)
    (Hcaptured : captured_by e st = Some c) :
  forall evs : list Event, captured_by e (run evs st) = Some c.
Proof.
  intros evs. apply run_keeps_captures; [apply reachable_inv, Hreach | exact Hcaptured].
Qed.

Lemma executor_captures_are_frozen_witness :
  exists c,
    captured_by 1 demo_engine = Some c
    /\ fst (fst c) = sample_market
    /\ captured_by 1 (run market_moves demo_engine) = Some c.
Proof.
  destruct (captured_by 1 demo_engine) as [c|] eqn:E; [|vm_compute in E; discriminate E].
  exists c. split; [reflexivity|]. split.
  - vm_compute in E. injection E as <-. reflexivity.
  - apply (executor_captures_are_frozen demo_engine 1 c); [|exact E].
    exists [EvMarket sample_market; EvCreateBot "1" 1000 grid_bot;
            EvStartBot "1" (start_at 2000); EvStartBot "1" (start_at 3000)].
    vm_compute. reflexivity.
Defined.

(** ** Starting and stopping *)

Lemma run_tick_stale (e : nat) (env : TickEnv) (st : System) (ex : Executor) (bot : TradingBot) :
  executors st !! e = Some ex ->
  heap st !! ex_bot ex = Some bot ->
  bot_status bot <> running ->
  run_tick e env st = st.
Proof.
  intros He Hb Hs. unfold run_tick. rewrite He, Hb.
  destruct (negb (ex_interval ex)); [reflexivity|].
  unfold tick_body. cbv zeta.
  rewrite (bool_decide_eq_false_2 _ Hs). cbn [negb]. rewrite orb_true_r.
  unfold set_executor, set_executors. rewrite list_insert_id by exact He.
  destruct st; reflexivity.
Qed.

Lemma view_alter_fresh (g : TradingBot -> TradingBot) (a : nat) (h : list TradingBot)
    (bs : list nat) :
  ~ In a bs -> view (alter g a h) bs = view h bs.
Proof.
  intros Hn. unfold view. apply map_ext_in. intros a' Ha'.
  apply list_lookup_alter_ne. intros <-. contradiction.
Qed.

(** The three ways [startBot] ends for a bot of the store. *)
Lemma startBot_cases (id : string) (env : StartEnv) (st : System) (a : nat) (bot : TradingBot) :
  store_clean st = true ->
  getBotById id st = Some a ->
  heap st !! a = Some bot ->
  (start_abandoned env st = true -> startBot id env st = st)
  /\ (start_abandoned env st = false -> start_allowed env bot st = false ->
      status_of id (startBot id env st) = Some error
      /\ executors (startBot id env st) = executors st)
  /\ (start_abandoned env st = false -> start_allowed env bot st = true ->
      status_of id (startBot id env st) = Some running
      /\ heap (startBot id env st) !! a
         = Some (with_cleanup (Some (length (executors st))) bot)
      /\ exists strategy,
           createStrategy (bot_strategy bot) (cfg_parameters (bot_config bot)) = Some strategy
           /\ executors (startBot id env st)
              = executors st ++ [{| ex_bot := a; ex_strategy := strategy;
                                    ex_ws := webSocket st;
                                    ex_mode := tm_mode (tradingMode st);
                                    ex_positions := [];
                                    ex_lastTradeTime := se_now env;
                                    ex_lastError := 0;
                                    ex_consecutiveErrors := 0;
                                    ex_interval := true |}]).
Proof.
  intros Hc G Hbot.
  pose proof (store_clean_valid st Hc) as Hvalid.
  assert (Hstatus : status_of id st = Some (bot_status bot)).
  { unfold status_of. rewrite G, Hbot. reflexivity. }
  unfold start_abandoned, start_allowed, startBot. rewrite G, Hbot.
  destruct (bool_decide (tm_mode (tradingMode st) = live) && negb (se_confirmed env));
    [split; [reflexivity | split; discriminate]|].
  split; [discriminate|]. cbv zeta.
  destruct (ws_isConnected (webSocket st)); cbn [negb andb].
  2:{ split; [|discriminate]. intros _ _. split; [|rewrite executors_start_failed; reflexivity].
      eapply status_of_start_failed; [| | exact Hvalid | exact Hstatus]; reflexivity. }
  destruct (JS.truthy (ws_price (webSocket st))); cbn [negb andb].
  2:{ split; [|discriminate]. intros _ _.
      destruct (waiting_reports_store 10 0 (handleError MsgFetchingMarketData low st))
        as (Hh & Hb & He & _).
      split; [|rewrite executors_start_failed; exact He].
      eapply status_of_start_failed; [exact Hh | exact Hb | exact Hvalid | exact Hstatus]. }
  destruct (se_riskAllowed env); cbn [negb andb].
  2:{ split; [|discriminate]. intros _ _. split; [|rewrite executors_start_failed; reflexivity].
      eapply status_of_start_failed; [| | exact Hvalid | exact Hstatus]; reflexivity. }
  destruct (createStrategy _ _) as [strategy|].
  2:{ split; [|intros _ H; apply bool_decide_eq_true in H; destruct H; discriminate].
      intros _ _. split; [|rewrite executors_start_failed; reflexivity].
      eapply status_of_start_failed; [| | exact Hvalid | exact Hstatus]; reflexivity. }
  split; [intros _ H; apply bool_decide_eq_false in H; exfalso; apply H; eauto|].
  intros _ _.
  set (st3 := handleError MsgInitStrategy low
                (handleError MsgRiskAssessment low (handleError MsgFetchingMarketData low st))).
  set (f := fun b => with_performance (with_startTime (se_now env) (bot_performance b))
                       (with_status running b)).
  assert (Hv3 : valid st3) by exact Hvalid.
  destruct (set_bots_spec id f st3) as (B1 & B2 & _ & _ & B5 & B6).
  destruct (B6 Hv3) as (Hv4 & Eview & _ & Hfresh).
  unfold startStrategyExecutor. cbn [handleError set_executors set_store executors heap bots].
  assert (Hnotin : ~ In a (bots (set_bots id f st3))).
  { intros Hin. rewrite Forall_forall in Hfresh.
    destruct (Hfresh a (proj2 (list_elem_of_In _ _) Hin)) as [Hge | (b' & Hb' & Hne)].
    - apply lookup_lt_Some in Hbot. change (heap st3) with (heap st) in Hge. lia.
    - change (heap st3) with (heap st) in Hb'. rewrite Hbot in Hb'. injection Hb' as <-.
      destruct (getBotById_Some _ _ _ G) as (_ & b0 & Hb0 & Hid). rewrite Hbot in Hb0.
      injection Hb0 as <-. contradiction. }
  split; [|split].
  - rewrite status_of_view. unfold store_view. cbn [heap bots handleError set_store].
    rewrite view_alter_fresh by exact Hnotin.
    fold (store_view (set_bots id f st3)). rewrite Eview.
    rewrite find_bot_map by reflexivity.
    rewrite status_of_view in Hstatus. change (store_view st3) with (store_view st).
    destruct (find_bot id (store_view st)) as [b0|] eqn:F; [|discriminate Hstatus].
    cbn. unfold on_id. rewrite decide_True by (eapply find_bot_id, F). reflexivity.
  - rewrite list_lookup_alter_eq. rewrite (heap_set_bots id f st3 a bot Hbot).
    cbn. rewrite B1. reflexivity.
  - exists strategy. split; [reflexivity|]. cbn [handleError webSocket tradingMode].
    rewrite B1, B2, B5. reflexivity.
Qed.

(** X22 ([startBot], [startStrategyExecutor]): [startBot] hands the executor
    the bot object it looked up before it set the status, so when a bot
    that is not running is started, the new executor holds an object whose
    status is not running, and every one of its ticks returns at the first
    test: whatever the market does afterwards, the executor of a bot that
    was started once never analyses, buys or sells. *)
Theorem first_start_is_idle (id : string) (env : StartEnv) (st : System) (s : BotStatus)
    (Hreach : reachable st)
    (Hstatus : status_of id st = Some s)
    (Hidle : s <> running)
    (Hstarted : status_of id (startBot id env st) = Some running) :
  length (executors (startBot id env st)) = S (length (executors st))
  /\ forall (evs : list Event) (tick : TickEnv),
       run_tick (length (executors st)) tick (run evs (startBot id env st))
       = run evs (startBot id env st).
Proof.
  pose proof (reachable_inv st Hreach) as Hinv. pose proof Hinv as [Hc _].
  unfold status_of in Hstatus.
  destruct (getBotById id st) as [a|] eqn:G; [|discriminate].
  destruct (heap st !! a) as [bot|] eqn:Hbot; [|discriminate].
  injection Hstatus as Hs.
  destruct (startBot_cases id env st a bot Hc G Hbot) as (C1 & C2 & C3).
  destruct (start_abandoned env st) eqn:Ea.
  { rewrite (C1 eq_refl) in Hstarted. unfold status_of in Hstarted.
    rewrite G, Hbot in Hstarted. cbn in Hstarted. congruence. }
  destruct (start_allowed env bot st) eqn:Eok.
  2:{ destruct (C2 eq_refl eq_refl) as [E _]. congruence. }
  destruct (C3 eq_refl eq_refl) as (_ & Hheap & strategy & _ & Hex).
  split; [rewrite Hex, length_app; cbn; lia|].
  intros evs tick.
  assert (Hcap : captured_by (length (executors st)) (startBot id env st)
                 = Some (webSocket st, tm_mode (tradingMode st), with_cleanup None bot)).
  { unfold captured_by. rewrite Hex, list_lookup_middle by reflexivity.
    cbn [ex_bot ex_ws ex_mode]. rewrite Hheap. reflexivity. }
  assert (Hinv' : engine_inv (startBot id env st)) by exact (step_inv st (EvStartBot id env) Hinv).
  destruct (run_keeps_captures evs _ _ _ Hinv' Hcap) as [_ Hrun].
  unfold captured_by in Hrun.
  destruct (executors (run evs (startBot id env st)) !! length (executors st)) as [ex'|] eqn:He;
    [|discriminate].
  destruct (heap (run evs (startBot id env st)) !! ex_bot ex') as [bot'|] eqn:Hb'; [|discriminate].
  apply (f_equal (fun o => match o with
                           | Some c => bot_status (snd c)
                           | None => stopped
                           end)) in Hrun.
  cbn in Hrun. apply (run_tick_stale _ _ _ ex' bot' He Hb'). congruence.
Qed.

Lemma first_start_is_idle_witness :
  run_tick (length (executors created_engine)) (quiet_tick 70000)
    (run market_moves (startBot "1" (start_at 2000) created_engine))
  = run market_moves (startBot "1" (start_at 2000) created_engine).
Proof.
  apply (first_start_is_idle "1" (start_at 2000) created_engine stopped).
  - exists [EvMarket sample_market; EvCreateBot "1" 1000 grid_bot]. vm_compute. reflexivity.
  - vm_compute. reflexivity.
  - discriminate.
  - vm_compute. reflexivity.
Defined.

(** X23 ([startBot]): for a bot of the store whose parameters have the
    shape its strategy reads, [startBot] ends in one of three ways.  In live
    mode without the user's confirmation nothing changes.  Otherwise, when
    the web socket is connected and has a price and the risk check passes,
    the bot is running and exactly one executor is added, which captured the
    bot object looked up at the start, the current web-socket state and the
    current mode, and holds no position; when the socket is not connected,
    has no price, or the risk check refuses, the bot is marked error and no
    executor is added. *)
Theorem startBot_outcome (id : string) (env : StartEnv) (st : System) (a : nat) (bot : TradingBot)
    (Hclean : store_clean st = true)
    (Hfound : getBotById id st = Some a)
    (Hbot : heap st !! a = Some bot)
    (Hshape : is_Some (createStrategy (bot_strategy bot) (cfg_parameters (bot_config bot)))) :
  let st' := startBot id env st in
  if start_abandoned env st then st' = st
  else if ws_isConnected (webSocket st) && JS.truthy (ws_price (webSocket st))
          && se_riskAllowed env then
    status_of id st' = Some running
    /\ length (executors st') = S (length (executors st))
    /\ captured_by (length (executors st)) st'
       = Some (webSocket st, tm_mode (tradingMode st), with_cleanup None bot)
    /\ positions_of (length (executors st)) st' = []
    /\ timer_armed (length (executors st)) st' = true
  else
    status_of id st' = Some error /\ executors st' = executors st.
Proof.
  cbv zeta. destruct (startBot_cases id env st a bot Hclean Hfound Hbot) as (C1 & C2 & C3).
  destruct (start_abandoned env st); [apply C1; reflexivity|].
  assert (Hallowed : start_allowed env bot st
                     = ws_isConnected (webSocket st) && JS.truthy (ws_price (webSocket st))
                       && se_riskAllowed env).
  { unfold start_allowed. rewrite (bool_decide_eq_true_2 _ Hshape). apply andb_true_r. }
  rewrite <- Hallowed.
  destruct (start_allowed env bot st); [|apply C2; reflexivity].
  destruct (C3 eq_refl eq_refl) as (Hs & Hheap & strategy & _ & Hex).
  split; [exact Hs|]. split; [rewrite Hex, length_app; cbn; lia|].
  unfold captured_by, positions_of, timer_armed.
  rewrite Hex, list_lookup_middle by reflexivity.
  cbn [ex_bot ex_ws ex_mode ex_positions ex_interval]. rewrite Hheap. repeat split.
Qed.

Lemma startBot_outcome_witness :
  status_of "1" (startBot "1" (start_at 2000) created_engine) = Some running
  /\ positions_of 0 (startBot "1" (start_at 2000) created_engine) = [].
Proof.
  assert (Hclean : store_clean created_engine = true) by (vm_compute; reflexivity).
  assert (Hfound : getBotById "1" created_engine = Some 0%nat) by (vm_compute; reflexivity).
  assert (Hbot : heap created_engine !! 0%nat = Some created_grid_bot)
    by (vm_compute; reflexivity).
  assert (Ea : start_abandoned (start_at 2000) created_engine = false)
    by (vm_compute; reflexivity).
  assert (Eo : ws_isConnected (webSocket created_engine)
               && JS.truthy (ws_price (webSocket created_engine))
               && se_riskAllowed (start_at 2000) = true)
    by (vm_compute; reflexivity).
  assert (Hshape : is_Some (createStrategy (bot_strategy created_grid_bot)
                              (cfg_parameters (bot_config created_grid_bot))))
    by (vm_compute; eexists; reflexivity).
  pose proof (startBot_outcome "1" (start_at 2000) created_engine 0 created_grid_bot
                Hclean Hfound Hbot Hshape) as H.
  cbv zeta in H. rewrite Ea, Eo in H.
  destruct H as (H1 & _ & _ & H4 & _).
  split; [exact H1|]. vm_compute. reflexivity.
Defined.

(** X24 ([stopBot]): in every reachable state [stopBot] leaves a bot that is
    not running, and a store without that bot, exactly as they are; after
    it the bot is not running; so stopping twice is the same as stopping
    once. *)
Theorem stopBot_is_idempotent (id : string) (now later : Z) (st : System)
    (Hreach : reachable st) :
  status_of id (stopBot id now st) <> Some running
  /\ (status_of id st <> Some running -> stopBot id now st = st)
  /\ stopBot id later (stopBot id now st) = stopBot id now st.
Proof.
  pose proof (reachable_inv st Hreach) as [Hc _].
  destruct (stopBot_inv id now st Hc) as [Hc' _].
  assert (Hafter : status_of id (stopBot id now st) <> Some running).
  { rewrite stopBot_clean by exact Hc.
    destruct (decide (status_of id st = Some running)) as [Hr | Hn]; [|exact Hn].
    destruct (set_status_spec id stopped st (store_clean_valid _ Hc)) as (_ & _ & E & _).
    rewrite (status_of_same_store id (set_bots id (with_status stopped) st)) by reflexivity.
    rewrite E, Hr. discriminate. }
  split; [exact Hafter|]. split.
  - intros Hn. rewrite stopBot_clean by exact Hc. apply decide_False, Hn.
  - rewrite (stopBot_clean id later) by exact Hc'. apply decide_False, Hafter.
Qed.

Lemma stopBot_is_idempotent_witness :
  stopBot "1" 90000 (stopBot "1" 80000 started_once) = stopBot "1" 80000 started_once.
Proof.
  apply (stopBot_is_idempotent "1" 80000 90000 started_once).
  exists [EvMarket sample_market; EvCreateBot "1" 1000 grid_bot; EvStartBot "1" (start_at 2000)].
  vm_compute. reflexivity.
Defined.

(** ** Invariants of the bot objects and of the open positions *)

Lemma Forall_map_bots (P : TradingBot -> Prop) (id : string) (f : TradingBot -> TradingBot)
    (bs : list nat) (h : list TradingBot) :
  (forall b, P b -> P (f b)) -> Forall P h -> Forall P (fst (map_bots id f h bs)).
Proof.
  intros Hf. revert h. induction bs as [|a bs IH]; intros h Hh; cbn [map_bots]; [exact Hh|].
  destruct (h !! a) as [b|] eqn:E.
  - destruct (decide (bot_id b = id)).
    + assert (Hb : P b) by (rewrite Forall_forall in Hh; eapply Hh, list_elem_of_lookup_2, E).
      specialize (IH (h ++ [f b])).
      destruct (map_bots id f (h ++ [f b]) bs) as [h' r]. cbn [fst] in *.
      apply IH. apply Forall_app. split; [exact Hh|]. constructor; [apply Hf, Hb | constructor].
    + specialize (IH h Hh). destruct (map_bots id f h bs) as [h' r]. exact IH.
  - specialize (IH h Hh). destruct (map_bots id f h bs) as [h' r]. exact IH.
Qed.

Lemma Forall_set_bots (P : TradingBot -> Prop) (id : string) (f : TradingBot -> TradingBot)
    (st : System) :
  (forall b, P b -> P (f b)) -> Forall P (heap st) -> Forall P (heap (set_bots id f st)).
Proof.
  intros Hf Hh. unfold set_bots.
  pose proof (Forall_map_bots P id f (bots st) (heap st) Hf Hh) as H.
  destruct (map_bots id f (heap st) (bots st)) as [h' r]. exact H.
Qed.

Lemma heap_credit_sale (mode : TradingMode) (symbol : string) (price amount : Q) (st : System) :
  heap (credit_sale mode symbol price amount st) = heap st.
Proof. unfold credit_sale. destruct (decide _); reflexivity. Qed.

Lemma map_get_In (k : string) (m : list (string * Position)) (v : Position) :
  map_get k m = Some v -> In (k, v) m.
Proof.
  unfold map_get. destruct (List.find _ m) as [[k' v']|] eqn:E; [|discriminate].
  cbn. intros [= <-]. apply find_some in E. destruct E as [Hin Hk].
  apply bool_decide_eq_true in Hk. cbn in Hk. subst k'. exact Hin.
Qed.

Lemma Forall_map_set (Q : string * Position -> Prop) (k : string) (v : Position)
    (m : list (string * Position)) :
  Q (k, v) -> Forall Q m -> Forall Q (map_set k v m).
Proof.
  intros Hq. induction 1 as [|[k' v'] m Hx Hm IH]; cbn [map_set].
  - constructor; [exact Hq | constructor].
  - destruct (decide (k' = k)); constructor; assumption.
Qed.

Lemma Forall_map_delete (Q : string * Position -> Prop) (k : string)
    (m : list (string * Position)) :
  Forall Q m -> Forall Q (map_delete k m).
Proof.
  unfold map_delete. rewrite !Forall_forall. intros H x Hx.
  apply list_elem_of_filter in Hx. apply H, Hx.
Qed.

Section Preservation.

Variable P : TradingBot -> Prop.
Variable G : WsState -> Position -> Prop.
Hypothesis HP : Preserved P G.

Lemma holds_close_position (bot : TradingBot) (ws : WsState) (now : Z) (symbol : string)
    (price : Q) (position : Position) (acc : Executor * System) :
  P bot -> admissible bot ws price -> G ws position ->
  tick_holds P G ws acc -> tick_holds P G ws (close_position bot now symbol price position acc).
Proof.
  intros Hbot Hadm Hpos (Hh & Hp & Hw). destruct acc as [ex st]. unfold close_position.
  cbn [fst snd] in *. split; [|split; [apply Forall_map_delete, Hp | exact Hw]].
  unfold updateBotPerformance. apply Forall_set_bots.
  - intros b Hb. apply (keeps_sale P G HP bot ws); assumption.
  - rewrite heap_credit_sale. exact Hh.
Qed.

Lemma holds_with_strategy (ws : WsState) (s : Strategy) (ex : Executor) (st : System) :
  tick_holds P G ws (ex, st) -> tick_holds P G ws (with_strategy s ex, st).
Proof. intros H. exact H. Qed.

Lemma holds_with_lastTradeTime (ws : WsState) (t : Z) (ex : Executor) (st : System) :
  tick_holds P G ws (ex, st) -> tick_holds P G ws (with_lastTradeTime t ex, st).
Proof. intros H. exact H. Qed.

Lemma holds_multi_sell (bot : TradingBot) (ws : WsState) (now : Z) (acc : Executor * System)
    (sellRec : Recommendation) :
  P bot -> bot_strategy bot = multi_coin ->
  tick_holds P G ws acc -> tick_holds P G ws (multi_sell bot now acc sellRec).
Proof.
  intros Hbot Hmulti Hacc. unfold multi_sell.
  destruct (map_get _ _) as [position|] eqn:E; [|exact Hacc].
  assert (Hpos : G ws position).
  { destruct Hacc as (_ & Hp & _). rewrite Forall_forall in Hp.
    apply (Hp (rec_symbol sellRec, position)). apply list_elem_of_In, map_get_In, E. }
  pose proof (holds_close_position bot ws now (rec_symbol sellRec) (rec_price sellRec) position
                acc Hbot (or_introl Hmulti) Hpos Hacc) as H.
  destruct (close_position _ _ _ _ _ acc) as [ex st]. exact H.
Qed.

Lemma holds_sells (bot : TradingBot) (ws : WsState) (now : Z) (sells : list Recommendation)
    (acc : Executor * System) :
  P bot -> bot_strategy bot = multi_coin ->
  tick_holds P G ws acc -> tick_holds P G ws (fold_left (multi_sell bot now) sells acc).
Proof.
  intros Hbot Hmulti. revert acc. induction sells as [|r sells IH]; intros acc Hacc; cbn;
    [exact Hacc|].
  apply IH, holds_multi_sell; assumption.
Qed.

Lemma holds_try_buy (bot : TradingBot) (ws : WsState) (now : Z) (symbol : string) (price : Q)
    (activate : bool) (acc : Executor * System) :
  P bot -> admissible bot ws price ->
  tick_holds P G ws acc -> tick_holds P G ws (try_buy bot now symbol price activate acc).
Proof.
  intros Hbot Hadm Hacc. destruct acc as [ex st]. unfold try_buy. cbv zeta.
  destruct (Qle_bool 1 _); [|exact Hacc].
  destruct (decide (ex_mode ex = live)); [|exact Hacc].
  destruct (Qle_bool _ _); [|exact Hacc].
  destruct Hacc as (Hh & Hp & Hw). cbn [fst snd] in *.
  assert (Hheap : Forall P (heap (updateBotPerformance (bot_id bot)
                    (buy_update bot now price
                       (calculateTradeAmount (cfg_maxPositionSize (bot_config bot)) price
                          (sys_getBalance "USDT" st))) now
                    (sys_updateBalance (base_currency symbol)
                       (calculateTradeAmount (cfg_maxPositionSize (bot_config bot)) price
                          (sys_getBalance "USDT" st))
                       (sys_updateBalance "USDT"
                          (- (price * calculateTradeAmount (cfg_maxPositionSize (bot_config bot))
                                        price (sys_getBalance "USDT" st))) st))))).
  { unfold updateBotPerformance. apply Forall_set_bots; [|exact Hh].
    intros b Hb. apply (keeps_purchase P G HP); assumption. }
  assert (Hpos : Forall (fun entry => G ws (snd entry))
                   (map_set symbol
                      {| pos_entryPrice := price;
                         pos_amount := calculateTradeAmount (cfg_maxPositionSize (bot_config bot))
                                         price (sys_getBalance "USDT" st);
                         pos_timestamp := now |} (ex_positions ex))).
  { apply Forall_map_set; [|exact Hp]. cbn [snd]. apply (keeps_opening P G HP bot); assumption. }
  destruct activate; (split; [exact Hheap | split; [exact Hpos | exact Hw]]).
Qed.

Lemma holds_buys (bot : TradingBot) (ws : WsState) (now : Z) (buys : list Recommendation)
    (acc : Executor * System) :
  P bot -> bot_strategy bot = multi_coin ->
  tick_holds P G ws acc -> tick_holds P G ws (multi_buys bot now buys acc).
Proof.
  intros Hbot Hmulti. revert acc. induction buys as [|r buys IH]; intros acc Hacc;
    cbn [multi_buys]; [exact Hacc|].
  destruct (positions_full _); [exact Hacc|].
  apply IH, holds_try_buy; [exact Hbot | left; exact Hmulti | exact Hacc].
Qed.

Lemma holds_handle_signal (bot : TradingBot) (ws : WsState) (now : Z) (currentPrice : Q)
    (signal : option Signal) (acc acc' : Executor * System) :
  P bot -> admissible bot ws currentPrice ->
  handle_signal bot now currentPrice signal acc = Ok acc' ->
  tick_holds P G ws acc -> tick_holds P G ws acc'.
Proof.
  intros Hbot Hadm H Hacc. unfold handle_signal in H.
  destruct signal as [[[|]|]|]; try (injection H as <-; exact Hacc);
    destruct (60000 <? _)%Z; try (injection H as <-; exact Hacc);
    destruct (map_size _ =? 0)%Z; try (injection H as <-; exact Hacc).
  - injection H as <-. apply holds_try_buy; assumption.
  - destruct (map_get _ _) as [position|] eqn:E; [|discriminate H]. injection H as <-.
    apply holds_close_position; try assumption.
    destruct Hacc as (_ & Hp & _). rewrite Forall_forall in Hp.
    apply (Hp (cfg_symbol (bot_config bot), position)). apply list_elem_of_In, map_get_In, E.
Qed.

Lemma holds_check_stops (bot : TradingBot) (ws : WsState) (now : Z) (currentPrice : Q)
    (acc : Executor * System) :
  P bot -> admissible bot ws currentPrice ->
  tick_holds P G ws acc -> tick_holds P G ws (left_by (check_stops bot now currentPrice acc)).
Proof.
  intros Hbot Hadm Hacc. unfold check_stops, left_by. destruct acc as [ex st]. cbn [fst snd].
  destruct (map_size _ =? 0)%Z; [exact Hacc|].
  destruct (map_get _ _) as [position|] eqn:E; [|exact Hacc].
  destruct (must_close _ _ _); [|exact Hacc].
  assert (Hpos : G ws position).
  { destruct Hacc as (_ & Hp & _). rewrite Forall_forall in Hp. cbn [fst] in Hp.
    apply (Hp (cfg_symbol (bot_config bot), position)). apply list_elem_of_In, map_get_In, E. }
  pose proof (holds_close_position bot ws now (cfg_symbol (bot_config bot)) currentPrice
                position (ex, st) Hbot Hadm Hpos Hacc) as H.
  destruct (close_position _ _ _ _ _ _) as [ex2 st2]. exact H.
Qed.

Lemma holds_single_branch (env : TickEnv) (bot : TradingBot) (ex : Executor) (st : System) :
  P bot ->
  tick_holds P G (ex_ws ex) (ex, st) ->
  tick_holds P G (ex_ws ex) (left_by (single_branch env bot ex st)).
Proof.
  intros Hbot Hacc. unfold single_branch.
  destruct (truthy_price _) as [currentPrice|] eqn:Ep; [|exact Hacc].
  assert (Hadm : admissible bot (ex_ws ex) currentPrice) by (right; exact Ep).
  cbv zeta. destruct (analyze _ _ _) as [r strategy'].
  destruct r as [signal | x]; [|exact Hacc].
  destruct (handle_signal _ _ _ _ _) as [acc | x] eqn:E; [|exact Hacc].
  apply holds_check_stops; try assumption.
  eapply holds_handle_signal; [exact Hbot | exact Hadm | exact E | exact Hacc].
Qed.

Lemma holds_tick_body (env : TickEnv) (bot : TradingBot) (ex : Executor) (st : System) :
  P bot ->
  tick_holds P G (ex_ws ex) (ex, st) ->
  tick_holds P G (ex_ws ex) (left_by (tick_body env bot ex st)).
Proof.
  intros Hbot Hacc. unfold tick_body. cbv zeta.
  destruct (negb _ || negb _); [exact Hacc|].
  destruct (analyze _ _ _) as [r strategy'].
  destruct r as [[[a | buys sells]|] | x]; try exact Hacc.
  - apply (holds_single_branch env bot (with_strategy strategy' ex) st Hbot Hacc).
  - destruct (decide (bot_strategy bot = multi_coin)) as [Hmulti|].
    + pose proof (holds_buys bot (ex_ws ex) (te_now env) buys _ Hbot Hmulti
                    (holds_sells bot (ex_ws ex) (te_now env) sells
                       (with_strategy strategy' ex, st) Hbot Hmulti Hacc)) as H.
      destruct (multi_buys _ _ _ _) as [ex2 st2]. exact H.
    + apply (holds_single_branch env bot (with_strategy strategy' ex) st Hbot Hacc).
Qed.

Lemma holds_after_tick (e : nat) (env : TickEnv) (bot : TradingBot) (ex : Executor)
    (r : TickOutcome * Executor * System) :
  Forall P (heap (snd (left_by r))) -> Forall P (heap (after_tick e env bot ex r)).
Proof.
  destruct r as [[o ex'] st1]. unfold after_tick. cbn [left_by outcome_of fst snd].
  intros Hh. destruct o as [| | x]; try exact Hh.
  cbv zeta. destruct (5 <=? _)%nat; [|exact Hh].
  destruct (decide _); [|exact Hh].
  cbn [handleError heap]. apply Forall_set_bots; [|exact Hh].
  intros b. apply (keeps_status P G HP).
Qed.

Lemma holds_run_tick (e : nat) (env : TickEnv) (st : System) :
  engine_inv st -> engine_holds P G st -> engine_holds P G (run_tick e env st).
Proof.
  intros [Hc _] [Hh Hp].
  destruct (executors st !! e) as [ex|] eqn:He;
    [|unfold run_tick; rewrite He; split; assumption].
  destruct (ex_interval ex) eqn:Harmed;
    [|unfold run_tick; rewrite He, Harmed; split; assumption].
  destruct (heap st !! ex_bot ex) as [bot|] eqn:Hbot;
    [|unfold run_tick; rewrite He, Harmed, Hbot; split; assumption].
  assert (HPbot : P bot) by (rewrite Forall_forall in Hh; eapply Hh, list_elem_of_lookup_2, Hbot).
  destruct (run_tick_spec e env st ex bot Hc He Harmed Hbot) as (Hrel & Hc1 & ->).
  pose proof (holds_tick_body env bot ex st HPbot (conj Hh (conj (Hp e ex He) eq_refl)))
    as (Hh1 & Hp1 & Hw1).
  pose proof (holds_after_tick e env bot ex (tick_body env bot ex st) Hh1) as Hh2.
  destruct (tick_body env bot ex st) as [[o ex'] st1].
  destruct Hrel as [_ (Ee & _)]. cbn [left_by fst snd] in *.
  assert (Hlt : (e < length (executors st1))%nat).
  { rewrite Ee. eapply lookup_lt_Some, He. }
  destruct (after_tick_frame e env bot ex (o, ex', st1) (store_clean_valid _ Hc1) Hlt)
    as (_ & _ & _ & _ & _ & A6 & ex'' & X1 & _ & X3 & _ & X5 & _).
  cbn [left_by fst snd] in *. split; [exact Hh2|].
  intros e' x Hx. destruct (decide (e' = e)) as [-> | Hne].
  - rewrite X1 in Hx. injection Hx as <-. rewrite X3, X5, Hw1. exact Hp1.
  - rewrite (A6 e' Hne), Ee in Hx. exact (Hp e' x Hx).
Qed.

Lemma holds_start_failed (id : string) (st : System) :
  Forall P (heap st) -> Forall P (heap (start_failed id st)).
Proof.
  intros Hh. unfold start_failed. apply Forall_set_bots; [|exact Hh].
  intros b. apply (keeps_status P G HP).
Qed.

Lemma holds_startBot (id : string) (env : StartEnv) (st : System) :
  engine_inv st -> engine_holds P G st -> engine_holds P G (startBot id env st).
Proof.
  intros [Hc _] [Hh Hp]. split.
  - unfold startBot.
    destruct (getBotById id st) as [a|]; [|exact Hh].
    destruct (heap st !! a) as [bot|]; [|exact Hh].
    destruct (_ && _); [exact Hh|]. cbv zeta.
    destruct (negb (ws_isConnected _)); [apply holds_start_failed; exact Hh|].
    destruct (negb (JS.truthy _)).
    { apply holds_start_failed.
      destruct (waiting_reports_store 10 0 (handleError MsgFetchingMarketData low st)) as [-> _].
      exact Hh. }
    destruct (negb (se_riskAllowed env)); [apply holds_start_failed; exact Hh|].
    destruct (createStrategy _ _) as [strategy|]; [|apply holds_start_failed; exact Hh].
    unfold startStrategyExecutor. cbn [handleError set_executors set_store executors heap bots].
    apply Forall_alter.
    + apply Forall_set_bots; [|exact Hh]. intros b Hb.
      apply (keeps_start P G HP (se_now env) (with_status running b)).
      apply (keeps_status P G HP), Hb.
    + intros b _ Hb. apply (keeps_cleanup P G HP), Hb.
  - destruct (startBot_inv id env st Hc) as [_ [E | (x & E & Hx)]]; rewrite E; [exact Hp|].
    intros e ex He. apply lookup_app_Some in He. destruct He as [He | [_ He]]; [exact (Hp e ex He)|].
    apply list_lookup_singleton_Some in He. destruct He as [_ <-]. rewrite Hx. constructor.
Qed.

Lemma holds_step (C : BotData -> Prop) (st : System) (ev : Event) :
  (forall id now botData, C botData ->
     P {| bot_id := id; bot_name := data_name botData; bot_strategy := data_strategy botData;
          bot_status := stopped; bot_config := data_config botData;
          bot_performance := {| perf_startTime := None; perf_totalTrades := 0;
                                perf_winRate := 0; perf_profitLoss := 0;
                                perf_lastUpdate := now; perf_trades := [] |};
          bot_cleanup := None |}) ->
  creates C ev ->
  engine_inv st -> engine_holds P G st -> engine_holds P G (step st ev).
Proof.
  intros Hnew Hev Hinv Hholds. pose proof Hinv as [Hc _]. pose proof Hholds as [Hh Hp].
  destruct ev as [id now botData | id env | id now | e env | c | w]; cbn [step].
  - split; [|exact Hp]. cbn [createBot heap]. apply Forall_app. split; [exact Hh|].
    constructor; [apply Hnew, Hev | constructor].
  - apply holds_startBot; assumption.
  - split.
    + rewrite stopBot_clean by exact Hc. destruct (decide _); [|exact Hh].
      cbn [handleError heap]. apply Forall_set_bots; [|exact Hh].
      intros b. apply (keeps_status P G HP).
    + destruct (stopBot_inv id now st Hc) as [_ ->]. exact Hp.
  - apply holds_run_tick; assumption.
  - exact Hholds.
  - exact Hholds.
Qed.

Lemma holds_run (C : BotData -> Prop) (evs : list Event) :
  (forall id now botData, C botData ->
     P {| bot_id := id; bot_name := data_name botData; bot_strategy := data_strategy botData;
          bot_status := stopped; bot_config := data_config botData;
          bot_performance := {| perf_startTime := None; perf_totalTrades := 0;
                                perf_winRate := 0; perf_profitLoss := 0;
                                perf_lastUpdate := now; perf_trades := [] |};
          bot_cleanup := None |}) ->
  Forall (creates C) evs ->
  engine_holds P G (run evs initialSystem).
Proof.
  intros Hnew. unfold run. induction evs as [|ev evs IH] using rev_ind; intros Hevs.
  - split; [constructor|]. intros e ex H. discriminate H.
  - apply Forall_app in Hevs. destruct Hevs as [Hevs Hev].
    apply Forall_cons in Hev. destruct Hev as [Hev _].
    rewrite fold_left_app. cbn [fold_left].
    apply (holds_step C); [exact Hnew | exact Hev | | apply IH, Hevs].
    apply reachable_inv. exists evs. reflexivity.
Qed.

End Preservation.

Lemma length_take_le {A : Type} (n : nat) (l : list A) : (length (take n l) <= n)%nat.
Proof. rewrite length_take. lia. Qed.

Lemma performance_in_range_preserved : Preserved performance_in_range (fun _ _ => True).
Proof.
  split; try (intros; exact I); try (intros ? b H; exact H).
  - intros bot ws price position now b (_ & Hlo & Hhi) _ _ _.
    unfold performance_in_range. cbn -[firstn]. split; [apply length_take_le|].
    destruct (newRate_range _ (perf_totalTrades (bot_performance bot))
                (JS.Qltb 0 ((price - pos_entryPrice position) * pos_amount position)) Hlo Hhi)
      as [A B].
    apply (round2_range _ A B).
  - intros bot price amount now b _ (_ & Hlo & Hhi).
    unfold performance_in_range. cbn -[firstn]. split; [apply length_take_le|]. split; assumption.
Qed.

(** X25 ([updateBotPerformance] and the trade records of the executor): in
    every reachable state, every bot object (those of the store and those
    an executor captured) records at most 100 trades and has a win rate
    between 0 and 100. *)
Theorem performance_stays_in_range (st : System) (Hreach : reachable st) :
  Forall performance_in_range (heap st).
Proof.
  destruct Hreach as [evs <-].
  apply (holds_run _ _ performance_in_range_preserved (fun _ => True) evs).
  - intros id now botData _. unfold performance_in_range. cbn. repeat split; try lia; discriminate.
  - rewrite Forall_forall. intros ev _. destruct ev; exact I.
Qed.

Lemma performance_stays_in_range_witness : Forall performance_in_range (heap live_engine).
Proof.
  apply performance_stays_in_range. exists live_trace. vm_compute. reflexivity.
Defined.

Lemma calculateWinRate_no_win (currentWinRate : Q) (totalTrades : nat) :
  currentWinRate == 0 -> calculateWinRate currentWinRate totalTrades false == 0.
Proof.
  intros Hw. unfold calculateWinRate. cbv zeta.
  assert (E : (currentWinRate * inject_Z (Z.of_nat totalTrades) + 0)
              / (inject_Z (Z.of_nat totalTrades) + 1) * 100 == 0).
  { rewrite Hw. unfold Qdiv. ring. }
  unfold JS.round. rewrite (Qfloor_comp _ (0 + (1 # 2))) by (rewrite E; reflexivity).
  reflexivity.
Qed.

Lemma flat_books_preserved : Preserved flat_books at_captured_price.
Proof.
  split.
  - intros s b H. exact H.
  - intros c b H. exact H.
  - intros t b H. exact H.
  - intros bot ws price position now b (Hs & Hpl & Hw & Ht) Hadm Hpos (Hbs & _).
    destruct Hadm as [Hm | Hp]; [contradiction|].
    assert (Hpnl : (price - pos_entryPrice position) * pos_amount position == 0).
    { rewrite (Hpos price Hp). ring. }
    unfold flat_books. cbn -[firstn]. split; [exact Hbs|].
    split; [rewrite Hpl, Hpnl; reflexivity|]. split.
    + rewrite (proj2 (Qltb_false_iff 0 _)) by (rewrite Hpnl; apply Qle_refl).
      apply calculateWinRate_no_win, Hw.
    + apply Forall_take. constructor; [exact Hpnl | exact Ht].
  - intros bot price amount now b (_ & _ & _ & Ht) (Hbs & Hpl & Hw & _).
    unfold flat_books. cbn -[firstn]. split; [exact Hbs|]. split; [exact Hpl|]. split; [exact Hw|].
    apply Forall_take. constructor; [reflexivity | exact Ht].
  - intros bot ws price amount now (Hs & _) Hadm p Hp.
    destruct Hadm as [Hm | Hq]; [contradiction|]. cbn. congruence.
Qed.

(** X26 (the single-symbol branch of the executor): an executor buys and
    sells at the price of the web-socket state it captured when it was
    started, so every sale closes a position at its entry price.  As long
    as no multi-coin bot is created, in every reachable state every bot
    object shows a profit and loss of 0, a win rate of 0, and only trades
    with a profit and loss of 0; and every open position was entered at the
    captured price. *)
Theorem single_symbol_books_stay_flat (evs : list Event)
    (Hsingle : Forall (creates single_symbol) evs) :
  Forall flat_books (heap (run evs initialSystem))
  /\ forall e ex, executors (run evs initialSystem) !! e = Some ex ->
       Forall (fun entry => at_captured_price (ex_ws ex) (snd entry)) (ex_positions ex).
Proof.
  apply (holds_run _ _ flat_books_preserved single_symbol evs); [|exact Hsingle].
  intros id now botData Hs. unfold flat_books. cbn. repeat split; try reflexivity.
  - exact Hs.
  - constructor.
Qed.

Lemma single_symbol_books_stay_flat_witness : Forall flat_books (heap (run live_trace initialSystem)).
Proof.
  apply (single_symbol_books_stay_flat live_trace).
  repeat constructor; discriminate.
Defined.

(** ** The position limit *)

Lemma analyze_keeps_maxPositions (env : AnalyzeEnv) (strategy : Strategy)
    (marketData : option MarketData) :
  strategy_maxPositions (snd (analyze env strategy marketData)) = strategy_maxPositions strategy.
Proof.
  destruct strategy; cbn [analyze];
    try (destruct (validateData marketData); [|reflexivity]).
  - destruct (_ <? _)%Z; [reflexivity|]. cbv zeta.
    destruct (JS.gt _ _); [reflexivity|]. destruct (JS.lt _ _); reflexivity.
  - destruct (_ <? _)%Z; [reflexivity|]. cbv zeta.
    destruct (Qle_bool _ _); [reflexivity|]. destruct (Qle_bool _ _); reflexivity.
  - cbv zeta. destruct (JS.mod2_is_zero _); reflexivity.
  - cbv zeta. destruct (JS.Qltb _ _); reflexivity.
  - reflexivity.
  - destruct (_ <? _)%Z; [reflexivity|]. destruct (ae_analysis env); reflexivity.
Qed.

Lemma analyze_multi_has_maxPositions (env : AnalyzeEnv) (strategy : Strategy)
    (marketData : option MarketData) (buys sells : list Recommendation) :
  fst (analyze env strategy marketData) = Ok (Some (SigMulti buys sells)) ->
  exists m, strategy_maxPositions strategy = Some m.
Proof.
  destruct strategy; cbn [analyze];
    try (destruct (validateData marketData); [|discriminate]).
  - destruct (_ <? _)%Z; [discriminate|]. cbv zeta.
    destruct (JS.gt _ _); [discriminate|]. destruct (JS.lt _ _); discriminate.
  - destruct (_ <? _)%Z; [discriminate|]. cbv zeta.
    destruct (Qle_bool _ _); [discriminate|]. destruct (Qle_bool _ _); discriminate.
  - cbv zeta. destruct (JS.mod2_is_zero _); discriminate.
  - cbv zeta. destruct (JS.Qltb _ _); discriminate.
  - discriminate.
  - intros _. eexists. reflexivity.
Qed.

Lemma updateActiveSymbols_keeps_maxPositions (symbol : string) (isActive : bool)
    (strategy : Strategy) :
  strategy_maxPositions (updateActiveSymbols symbol isActive strategy)
  = strategy_maxPositions strategy.
Proof. destruct strategy; reflexivity. Qed.

Lemma map_delete_capped (k : string) (m : list (string * Position)) :
  NoDup (map_keys m) ->
  NoDup (map_keys (map_delete k m)) /\ (map_size (map_delete k m) <= map_size m)%Z.
Proof.
  intros Hnd. unfold map_keys, map_delete, map_size, js_length. split.
  - apply (sublist_NoDup _ (fst <$> m)); [exact Hnd|].
    apply fmap_sublist, sublist_filter.
  - pose proof (length_filter (fun p : string * Position => p.1 ≠ k) m). lia.
Qed.

Lemma map_set_keys (k : string) (v : Position) (m : list (string * Position)) :
  (In k (map_keys m) /\ map_keys (map_set k v m) = map_keys m)
  \/ (~ In k (map_keys m) /\ map_keys (map_set k v m) = map_keys m ++ [k]).
Proof.
  induction m as [|[k' v'] m IH]; cbn [map_set map_keys map].
  - right. split; [intros []|reflexivity].
  - destruct (decide (k' = k)) as [-> | Hne].
    + left. split; [left; reflexivity | reflexivity].
    + destruct IH as [[Hin E] | [Hnin E]].
      * left. split; [right; exact Hin|]. cbn [map fst]. f_equal. exact E.
      * right. split; [intros [H | H]; [cbn in H; congruence | contradiction]|].
        cbn [map fst app]. f_equal. exact E.
Qed.

Lemma map_set_capped (k : string) (v : Position) (m : list (string * Position)) :
  NoDup (map_keys m) ->
  NoDup (map_keys (map_set k v m)) /\ (map_size (map_set k v m) <= map_size m + 1)%Z.
Proof.
  intros Hnd.
  assert (Hlen : forall m' : list (string * Position), map_size m' = Z.of_nat (length (map_keys m'))).
  { intros m'. unfold map_size, js_length, map_keys. rewrite length_map. reflexivity. }
  rewrite !Hlen. destruct (map_set_keys k v m) as [[Hin ->] | [Hnin ->]].
  - split; [exact Hnd | lia].
  - split; [|rewrite length_app; cbn; lia].
    apply NoDup_app. split; [exact Hnd|]. split; [|apply NoDup_singleton].
    intros x Hx Hk. apply list_elem_of_singleton in Hk. subst x.
    apply Hnin, list_elem_of_In, Hx.
Qed.

Lemma capped_close_position (bot : TradingBot) (now : Z) (symbol : string) (price : Q)
    (position : Position) (acc : Executor * System) :
  positions_capped (fst acc) ->
  positions_capped (fst (close_position bot now symbol price position acc))
  /\ ex_strategy (fst (close_position bot now symbol price position acc)) = ex_strategy (fst acc).
Proof.
  destruct acc as [ex st]. unfold close_position, positions_capped. cbn [fst with_positions
    ex_positions ex_strategy].
  intros [Hnd Hsz]. destruct (map_delete_capped symbol _ Hnd) as [H1 H2].
  split; [split; [exact H1 | lia] | reflexivity].
Qed.

Lemma capped_multi_sell (bot : TradingBot) (now : Z) (acc : Executor * System)
    (sellRec : Recommendation) :
  positions_capped (fst acc) ->
  positions_capped (fst (multi_sell bot now acc sellRec))
  /\ strategy_maxPositions (ex_strategy (fst (multi_sell bot now acc sellRec)))
     = strategy_maxPositions (ex_strategy (fst acc)).
Proof.
  intros Hacc. unfold multi_sell. destruct (map_get _ _) as [position|]; [|split; [exact Hacc | reflexivity]].
  destruct (capped_close_position bot now (rec_symbol sellRec) (rec_price sellRec) position acc Hacc)
    as [[H1 H2] H3].
  destruct (close_position _ _ _ _ _ acc) as [ex st]. cbn [fst] in *.
  unfold positions_capped, position_cap in *. cbn [with_strategy ex_positions ex_strategy].
  rewrite updateActiveSymbols_keeps_maxPositions. split; [split; assumption | congruence].
Qed.

Lemma capped_sells (bot : TradingBot) (now : Z) (sells : list Recommendation)
    (acc : Executor * System) :
  positions_capped (fst acc) ->
  positions_capped (fst (fold_left (multi_sell bot now) sells acc))
  /\ strategy_maxPositions (ex_strategy (fst (fold_left (multi_sell bot now) sells acc)))
     = strategy_maxPositions (ex_strategy (fst acc)).
Proof.
  revert acc. induction sells as [|r sells IH]; intros acc Hacc; cbn [fold_left];
    [split; [exact Hacc | reflexivity]|].
  destruct (capped_multi_sell bot now acc r Hacc) as [H1 H2].
  destruct (IH _ H1) as [H3 H4]. split; [exact H3 | congruence].
Qed.

(** A purchase adds at most one position and keeps the symbols distinct and
    the limit of the strategy. *)
Lemma capped_try_buy (bot : TradingBot) (now : Z) (symbol : string) (price : Q) (activate : bool)
    (acc : Executor * System) :
  NoDup (map_keys (ex_positions (fst acc))) ->
  NoDup (map_keys (ex_positions (fst (try_buy bot now symbol price activate acc))))
  /\ (map_size (ex_positions (fst (try_buy bot now symbol price activate acc)))
      <= map_size (ex_positions (fst acc)) + 1)%Z
  /\ strategy_maxPositions (ex_strategy (fst (try_buy bot now symbol price activate acc)))
     = strategy_maxPositions (ex_strategy (fst acc)).
Proof.
  destruct acc as [ex st]. cbn [fst]. intros Hnd. unfold try_buy. cbv zeta.
  destruct (Qle_bool 1 _); [|cbn [fst]; repeat split; [exact Hnd | lia]].
  destruct (decide (ex_mode ex = live)); [|cbn [fst]; repeat split; [exact Hnd | lia]].
  destruct (Qle_bool _ _); [|cbn [fst]; repeat split; [exact Hnd | lia]].
  match goal with
  | |- context [map_set symbol ?p (ex_positions ex)] =>
      destruct (map_set_capped symbol p (ex_positions ex) Hnd) as [H1 H2]
  end.
  destruct activate; cbn [fst with_strategy with_positions ex_positions ex_strategy];
    rewrite ?updateActiveSymbols_keeps_maxPositions; repeat split; assumption.
Qed.

Lemma capped_buys (bot : TradingBot) (now : Z) (buys : list Recommendation) (m : Z)
    (acc : Executor * System) :
  strategy_maxPositions (ex_strategy (fst acc)) = Some m ->
  positions_capped (fst acc) ->
  positions_capped (fst (multi_buys bot now buys acc))
  /\ strategy_maxPositions (ex_strategy (fst (multi_buys bot now buys acc))) = Some m.
Proof.
  revert acc. induction buys as [|r buys IH]; intros acc Hm Hacc; cbn [multi_buys];
    [split; assumption|].
  destruct (positions_full (fst acc)) eqn:Hfull; [split; assumption|].
  unfold positions_full in Hfull. rewrite Hm in Hfull. apply Z.leb_gt in Hfull.
  destruct Hacc as [Hnd Hsz].
  destruct (capped_try_buy bot now (rec_symbol r) (rec_price r) true acc Hnd) as (H1 & H2 & H3).
  apply IH; [congruence|]. split; [exact H1|].
  unfold position_cap. rewrite H3, Hm. lia.
Qed.

Lemma capped_handle_signal (bot : TradingBot) (now : Z) (currentPrice : Q)
    (signal : option Signal) (acc acc' : Executor * System) :
  handle_signal bot now currentPrice signal acc = Ok acc' ->
  positions_capped (fst acc) ->
  positions_capped (fst acc')
  /\ strategy_maxPositions (ex_strategy (fst acc')) = strategy_maxPositions (ex_strategy (fst acc)).
Proof.
  intros H Hacc. unfold handle_signal in H.
  destruct signal as [[[|]|]|]; try (injection H as <-; split; [exact Hacc | reflexivity]);
    destruct (60000 <? _)%Z; try (injection H as <-; split; [exact Hacc | reflexivity]);
    destruct (map_size _ =? 0)%Z eqn:Hz; try (injection H as <-; split; [exact Hacc | reflexivity]).
  - injection H as <-. apply Z.eqb_eq in Hz. destruct Hacc as [Hnd _].
    destruct (capped_try_buy bot now (cfg_symbol (bot_config bot)) currentPrice false acc Hnd)
      as (H1 & H2 & H3).
    split; [|exact H3]. split; [exact H1|].
    unfold position_cap. rewrite H3.
    destruct (strategy_maxPositions (ex_strategy (fst acc))); lia.
  - destruct (map_get _ _) as [position|]; [|discriminate H]. injection H as <-.
    destruct (capped_close_position bot now (cfg_symbol (bot_config bot)) currentPrice position
                acc Hacc) as [H1 H2].
    split; [exact H1 | congruence].
Qed.

Lemma capped_check_stops (bot : TradingBot) (now : Z) (currentPrice : Q)
    (acc : Executor * System) :
  positions_capped (fst acc) ->
  positions_capped (fst (left_by (check_stops bot now currentPrice acc))).
Proof.
  intros Hacc. unfold check_stops, left_by. destruct acc as [ex st]. cbn [fst snd] in *.
  destruct (map_size _ =? 0)%Z; [exact Hacc|].
  destruct (map_get _ _) as [position|]; [|exact Hacc].
  destruct (must_close _ _ _); [|exact Hacc].
  destruct (capped_close_position bot now (cfg_symbol (bot_config bot)) currentPrice position
              (ex, st) Hacc) as [H1 H2].
  destruct (close_position _ _ _ _ _ _) as [ex2 st2]. exact H1.
Qed.

Lemma capped_with_strategy (s : Strategy) (ex : Executor) :
  strategy_maxPositions s = strategy_maxPositions (ex_strategy ex) ->
  positions_capped ex -> positions_capped (with_strategy s ex).
Proof.
  intros E H. unfold positions_capped, position_cap in *.
  cbn [with_strategy ex_positions ex_strategy]. rewrite E. exact H.
Qed.

Lemma capped_single_branch (env : TickEnv) (bot : TradingBot) (ex : Executor) (st : System) :
  positions_capped ex -> positions_capped (fst (left_by (single_branch env bot ex st))).
Proof.
  intros Hex. unfold single_branch.
  destruct (truthy_price _) as [currentPrice|]; [|exact Hex].
  cbv zeta.
  pose proof (analyze_keeps_maxPositions (second_call env) (ex_strategy ex)
                (Some (snapshot_of (ex_ws ex) (te_now env)))) as Hm.
  destruct (analyze _ _ _) as [r strategy']. cbn [snd] in Hm.
  pose proof (capped_with_strategy strategy' ex Hm Hex) as Hex0.
  destruct r as [signal | x]; [|exact Hex0].
  destruct (handle_signal _ _ _ _ _) as [acc | x] eqn:E; [|exact Hex0].
  apply capped_check_stops.
  apply (capped_handle_signal _ _ _ _ _ _ E Hex0).
Qed.

Lemma capped_tick_body (env : TickEnv) (bot : TradingBot) (ex : Executor) (st : System) :
  positions_capped ex -> positions_capped (fst (left_by (tick_body env bot ex st))).
Proof.
  intros Hex. unfold tick_body. cbv zeta.
  destruct (negb _ || negb _); [exact Hex|].
  pose proof (analyze_keeps_maxPositions (first_call env) (ex_strategy ex)
                (Some (snapshot_of (ex_ws ex) (te_now env)))) as Hm.
  pose proof (analyze_multi_has_maxPositions (first_call env) (ex_strategy ex)
                (Some (snapshot_of (ex_ws ex) (te_now env)))) as Hmulti.
  destruct (analyze _ _ _) as [r strategy']. cbn [fst snd] in Hm, Hmulti.
  pose proof (capped_with_strategy strategy' ex Hm Hex) as Hex0.
  destruct r as [[[a | buys sells]|] | x]; try exact Hex0.
  - apply capped_single_branch, Hex0.
  - destruct (decide (bot_strategy bot = multi_coin)); [|apply capped_single_branch, Hex0].
    destruct (Hmulti buys sells eq_refl) as [m Hsome].
    destruct (capped_sells bot (te_now env) sells (with_strategy strategy' ex, st) Hex0)
      as [H1 H2].
    cbn [fst with_strategy ex_strategy] in H2.
    destruct (capped_buys bot (te_now env) buys m _ (eq_trans H2 (eq_trans Hm Hsome)) H1)
      as [H3 _].
    destruct (multi_buys _ _ _ _) as [ex2 st2]. exact H3.
Qed.

Lemma capped_run_tick (e : nat) (env : TickEnv) (st : System) :
  engine_inv st ->
  (forall e' ex, executors st !! e' = Some ex -> positions_capped ex) ->
  forall e' ex, executors (run_tick e env st) !! e' = Some ex -> positions_capped ex.
Proof.
  intros [Hc _] Hp.
  destruct (executors st !! e) as [ex|] eqn:He;
    [|unfold run_tick; rewrite He; exact Hp].
  destruct (ex_interval ex) eqn:Harmed;
    [|unfold run_tick; rewrite He, Harmed; exact Hp].
  destruct (heap st !! ex_bot ex) as [bot|] eqn:Hbot;
    [|unfold run_tick; rewrite He, Harmed, Hbot; exact Hp].
  destruct (run_tick_spec e env st ex bot Hc He Harmed Hbot) as (Hrel & Hc1 & ->).
  pose proof (capped_tick_body env bot ex st (Hp e ex He)) as Hcap.
  destruct (tick_body env bot ex st) as [[o ex'] st1].
  destruct Hrel as [_ (Ee & _)]. cbn [left_by fst snd] in *.
  assert (Hlt : (e < length (executors st1))%nat).
  { rewrite Ee. eapply lookup_lt_Some, He. }
  destruct (after_tick_frame e env bot ex (o, ex', st1) (store_clean_valid _ Hc1) Hlt)
    as (_ & _ & _ & _ & _ & A6 & ex'' & X1 & _ & X3 & _ & _ & X6).
  cbn [left_by fst snd] in *.
  intros e' x Hx. destruct (decide (e' = e)) as [-> | Hne].
  - rewrite X1 in Hx. injection Hx as <-. unfold positions_capped in *. rewrite X3, X6. exact Hcap.
  - rewrite (A6 e' Hne), Ee in Hx. exact (Hp e' x Hx).
Qed.

(** X27 (the two buying sites of the executor, [positions]): in every
    reachable state the positions of an executor have distinct symbols, and
    there are at most [maxPositions] of them for a multi-coin strategy
    (with [maxPositions >= 1]) and at most one for every other strategy. *)
Theorem positions_stay_capped (st : System) (e : nat) (ex : Executor)
    (Hreach : reachable st)
    (He : executors st !! e = Some ex) :
  NoDup (map_keys (ex_positions ex))
  /\ (map_size (ex_positions ex) <= position_cap (ex_strategy ex))%Z.
Proof.
  revert e ex He. destruct Hreach as [evs <-]. unfold run.
  induction evs as [|ev evs IH] using rev_ind; [intros e ex H; discriminate H|].
  rewrite fold_left_app. cbn [fold_left].
  assert (Hinv : engine_inv (fold_left step evs initialSystem)).
  { apply reachable_inv. exists evs. reflexivity. }
  pose proof Hinv as [Hc _].
  destruct ev as [id now botData | id env | id now | e0 env | c | w]; cbn [step].
  - exact IH.
  - destruct (startBot_inv id env _ Hc) as [_ [E | (x & E & Hx)]]; rewrite E; [exact IH|].
    intros e ex He. apply lookup_app_Some in He. destruct He as [He | [_ He]]; [exact (IH e ex He)|].
    apply list_lookup_singleton_Some in He. destruct He as [_ <-].
    unfold map_keys, map_size, js_length, position_cap. rewrite Hx. cbn.
    split; [constructor|]. destruct (strategy_maxPositions _); lia.
  - destruct (stopBot_inv id now _ Hc) as [_ ->]. exact IH.
  - apply capped_run_tick; assumption.
  - exact IH.
  - exact IH.
Qed.

Lemma positions_stay_capped_witness :
  exists ex,
    executors live_engine !! 1%nat = Some ex
    /\ (map_size (ex_positions ex) <= position_cap (ex_strategy ex))%Z.
Proof.
  destruct (executors live_engine !! 1%nat) as [ex|] eqn:He; [|vm_compute in He; discriminate He].
  exists ex. split; [reflexivity|].
  apply (positions_stay_capped live_engine 1 ex); [|exact He].
  exists live_trace. vm_compute. reflexivity.
Defined.

(** ** The daily trade analysis *)

Lemma insert_by_pnl_perm (t : Trade) (l : list Trade) : insert_by_pnl t l ≡ₚ t :: l.
Proof.
  induction l as [|x l IH]; cbn [insert_by_pnl]; [reflexivity|].
  destruct (Qle_bool _ _); [reflexivity|]. rewrite IH. apply Permutation_swap.
Qed.

Lemma sort_by_pnl_perm (l : list Trade) : sort_by_pnl l ≡ₚ l.
Proof.
  induction l as [|x l IH]; cbn; [reflexivity|].
  rewrite insert_by_pnl_perm. fold (sort_by_pnl l). rewrite IH. reflexivity.
Qed.

Lemma insert_by_pnl_sorted (t : Trade) (l : list Trade) :
  by_decreasing_pnl l -> by_decreasing_pnl (insert_by_pnl t l).
Proof.
  induction l as [|x l IH]; cbn [insert_by_pnl by_decreasing_pnl].
  - intros _. split; [constructor | exact I].
  - intros [Hx Hl]. destruct (Qle_bool (trade_pnl x) (trade_pnl t)) eqn:E.
    + apply Qle_bool_iff in E. cbn [by_decreasing_pnl]. split; [|split; assumption].
      constructor; [exact E|]. eapply Forall_impl; [exact Hx|]. cbn. intros y Hy. lra.
    + cbn [by_decreasing_pnl]. split; [|apply IH, Hl].
      rewrite insert_by_pnl_perm. constructor; [|exact Hx].
      destruct (Qlt_le_dec (trade_pnl t) (trade_pnl x)) as [Hlt|Hle]; [lra|].
      apply Qle_bool_iff in Hle. congruence.
Qed.

Lemma sort_by_pnl_sorted (l : list Trade) : by_decreasing_pnl (sort_by_pnl l).
Proof.
  induction l as [|x l IH]; cbn; [exact I|]. apply insert_by_pnl_sorted, IH.
Qed.

Lemma sorted_head_is_best (l : list Trade) (t : Trade) :
  by_decreasing_pnl l -> head l = Some t -> Forall (fun x => trade_pnl x <= trade_pnl t) l.
Proof.
  destruct l as [|x l]; [discriminate|]. cbn. intros [Hx _] [= ->].
  constructor; [apply Qle_refl | exact Hx].
Qed.

Lemma sorted_last_is_worst (l : list Trade) (t : Trade) :
  by_decreasing_pnl l -> last l = Some t -> Forall (fun x => trade_pnl t <= trade_pnl x) l.
Proof.
  induction l as [|x l IH]; [discriminate|].
  cbn [by_decreasing_pnl]. intros [Hx Hl] Hlast.
  destruct l as [|y l].
  - cbn in Hlast. injection Hlast as ->. constructor; [apply Qle_refl | constructor].
  - rewrite last_cons_cons in Hlast. constructor; [|apply IH; assumption].
    rewrite Forall_forall in Hx. apply Hx.
    apply last_Some_elem_of. exact Hlast.
Qed.

(** X29 ([analyzeDailyTrades]): the reported number of trades is the number
    of today's trades; the win rate lies between 0 and 1; on a day with
    trades no trade of the day made more than the best trade or less than
    the worst trade; on a day without trades the win rate and the average
    holding time are 0 and the best and worst trade carry no profit at
    all. *)
Theorem daily_analysis_bounds (today now : Z) (bot : TradingBot) :
  let analysis := analyzeDailyTrades today now bot in
  daily_totalTrades analysis = length (todayTrades today bot)
  /\ 0 <= daily_winRate analysis
  /\ daily_winRate analysis <= 1
  /\ match todayTrades today bot with
     | [] =>
         daily_winRate analysis = 0
         /\ daily_averageHoldingTime analysis = 0
         /\ summary_profit (daily_bestTrade analysis) = None
         /\ summary_profit (daily_worstTrade analysis) = None
     | _ :: _ =>
         exists best worst,
           summary_profit (daily_bestTrade analysis) = Some best
           /\ summary_profit (daily_worstTrade analysis) = Some worst
           /\ Forall (fun t => worst <= trade_pnl t /\ trade_pnl t <= best)
                     (todayTrades today bot)
     end.
Proof.
  cbv zeta. unfold analyzeDailyTrades. cbv zeta.
  set (trades := todayTrades today bot).
  destruct (holding_loop trades 0 0) as [totalHoldingTime pairedTrades] eqn:Eh.
  cbn [daily_totalTrades daily_winRate daily_averageHoldingTime daily_bestTrade daily_worstTrade].
  split; [reflexivity|].
  pose proof (length_filter (fun t => JS.Qltb 0 (trade_pnl t) = true) trades) as Hwin.
  assert (Hrate : 0 <= (if (0 <? length trades)%nat
                        then inject_Z (Z.of_nat (length
                               (filter (fun t => JS.Qltb 0 (trade_pnl t) = true) trades)))
                             / inject_Z (Z.of_nat (length trades))
                        else 0)
                  /\ (if (0 <? length trades)%nat
                      then inject_Z (Z.of_nat (length
                             (filter (fun t => JS.Qltb 0 (trade_pnl t) = true) trades)))
                           / inject_Z (Z.of_nat (length trades))
                      else 0) <= 1).
  { destruct (Nat.ltb_spec 0 (length trades)) as [Hpos|_]; [|split; discriminate].
    assert (Hn : 0 < inject_Z (Z.of_nat (length trades))).
    { change 0 with (inject_Z 0). rewrite <- Zlt_Qlt. lia. }
    split.
    - apply Qle_shift_div_l; [exact Hn|]. rewrite Qmult_0_l.
      change 0 with (inject_Z 0). rewrite <- Zle_Qle. lia.
    - apply Qle_shift_div_r; [exact Hn|]. rewrite Qmult_1_l. rewrite <- Zle_Qle. lia. }
  split; [apply Hrate|]. split; [apply Hrate|].
  destruct trades as [|t0 rest] eqn:Et.
  - cbn in Eh. injection Eh as <- <-. repeat split.
  - pose proof (sort_by_pnl_sorted (t0 :: rest)) as Hsorted.
    pose proof (sort_by_pnl_perm (t0 :: rest)) as Hperm.
    destruct (head (sort_by_pnl (t0 :: rest))) as [b|] eqn:Ehead.
    2:{ apply head_None in Ehead. rewrite Ehead in Hperm.
        apply Permutation_nil_l in Hperm. discriminate Hperm. }
    destruct (last (sort_by_pnl (t0 :: rest))) as [w|] eqn:Elast.
    2:{ apply last_None in Elast. rewrite Elast in Hperm.
        apply Permutation_nil_l in Hperm. discriminate Hperm. }
    exists (trade_pnl b), (trade_pnl w). split; [reflexivity|]. split; [reflexivity|].
    pose proof (sorted_head_is_best _ _ Hsorted Ehead) as Hb.
    pose proof (sorted_last_is_worst _ _ Hsorted Elast) as Hw.
    rewrite Hperm in Hb, Hw. rewrite Forall_forall in Hb, Hw. rewrite Forall_forall.
    intros t Ht. split; [apply Hw, Ht | apply Hb, Ht].
Qed.

Lemma newest_first_filter (Q : Trade -> Prop) `{!forall x, Decision (Q x)} (l : list Trade) :
  newest_first l -> newest_first (filter Q l).
Proof.
  induction l as [|x l IH]; [intros _; exact I|].
  intros [Hx Hl]. rewrite filter_cons. destruct (decide (Q x)).
  - split; [|apply IH, Hl]. rewrite Forall_forall in Hx. rewrite Forall_forall.
    intros y Hy. apply list_elem_of_filter in Hy. apply Hx, Hy.
  - apply IH, Hl.
Qed.

Lemma holding_loop_newest_first (trades : list Trade) (total : Z) (pairs : nat) :
  newest_first trades -> (total <= 0)%Z ->
  (fst (holding_loop trades total pairs) <= 0)%Z.
Proof.
  revert total pairs. induction trades as [|a [|b rest] IH]; intros total pairs Hn Ht;
    try exact Ht.
  change (holding_loop (a :: b :: rest) total pairs)
    with (if is_buy a && is_sell b
          then holding_loop (b :: rest) (total + (trade_time b - trade_time a)) (S pairs)
          else holding_loop (b :: rest) total pairs).
  destruct Hn as [Ha Hrest]. apply Forall_cons in Ha. destruct Ha as [Hab _].
  destruct (is_buy a && is_sell b); apply IH; try assumption. lia.
Qed.

(** X30 ([analyzeDailyTrades], [generateTradingSuggestions]): the holding
    time is measured from a buy to the trade after it in the list, but the
    executor records the latest trade first, so on a history in that order
    every measured holding time is zero or negative: the average holding
    time is never positive, and on a day with trades the suggestions always
    say that positions are held too briefly and never that they are held
    too long. *)
Theorem holding_time_never_positive (today now : Z) (bot : TradingBot)
    (Horder : newest_first (perf_trades (bot_performance bot))) :
  let analysis := analyzeDailyTrades today now bot in
  daily_averageHoldingTime analysis <= 0
  /\ (todayTrades today bot <> [] ->
      In AdviceShortHolding (generateTradingSuggestions analysis)
      /\ ~ In AdviceLongHolding (generateTradingSuggestions analysis)).
Proof.
  cbv zeta.
  assert (Havg : daily_averageHoldingTime (analyzeDailyTrades today now bot) <= 0).
  { unfold analyzeDailyTrades. cbv zeta.
    pose proof (holding_loop_newest_first (todayTrades today bot) 0 0
                  (newest_first_filter _ _ Horder) (Z.le_refl 0)) as Hloop.
    destruct (holding_loop (todayTrades today bot) 0 0) as [total pairs].
    cbn [fst] in Hloop. cbn [daily_averageHoldingTime].
    destruct (Nat.ltb_spec 0 pairs) as [Hpos|_]; [|apply Qle_refl].
    assert (Hn : 0 < inject_Z (Z.of_nat pairs)).
    { change 0 with (inject_Z 0). rewrite <- Zlt_Qlt. lia. }
    apply Qle_shift_div_r; [exact Hn|]. rewrite Qmult_0_l.
    change 0 with (inject_Z 0). rewrite <- Zle_Qle. exact Hloop. }
  split; [exact Havg|]. intros Hsome.
  unfold generateTradingSuggestions. cbv zeta.
  assert (Hshort : JS.Qltb (daily_averageHoldingTime (analyzeDailyTrades today now bot))
                     (5 * 60 * 1000) = true).
  { apply Qltb_iff. eapply Qle_lt_trans; [exact Havg | reflexivity]. }
  rewrite Hshort.
  assert (Hcount : (daily_totalTrades (analyzeDailyTrades today now bot) =? 0)%nat = false).
  { apply Nat.eqb_neq. unfold analyzeDailyTrades. cbv zeta.
    destruct (holding_loop _ 0 0). cbn [daily_totalTrades].
    destruct (todayTrades today bot); [contradiction | discriminate]. }
  rewrite Hcount. split.
  - apply in_or_app. right. left. reflexivity.
  - intros Hin. apply in_app_or in Hin. destruct Hin as [Hin | Hin].
    + destruct (JS.Qltb _ (4 # 10)); [destruct Hin as [H | []]; discriminate H|].
      destruct (JS.Qltb (6 # 10) _); [destruct Hin as [H | []]; discriminate H | destruct Hin].
    + destruct Hin as [H | Hin]; [discriminate H|]. cbn [app] in Hin.
      apply in_app_or in Hin. destruct Hin as [Hin | Hin].
      * destruct (JS.lt _ _); [destruct Hin as [H | []]; discriminate H|].
        destruct (JS.gt _ _); [destruct Hin as [H | []]; discriminate H | destruct Hin].
      * destruct (JS.Qltb _ 0); [destruct Hin as [H | []]; discriminate H | destruct Hin].
Qed.

Lemma holding_time_never_positive_witness :
  daily_averageHoldingTime (analyzeDailyTrades 0 40000000 day_trader) <= 0
  /\ In AdviceShortHolding (generateTradingSuggestions (analyzeDailyTrades 0 40000000 day_trader)).
Proof.
  destruct (holding_time_never_positive 0 40000000 day_trader) as [H1 H2].
  - cbn. repeat split; repeat constructor; discriminate.
  - split; [exact H1|]. apply H2. vm_compute. discriminate.
Defined.

(** ** Double-precision numbers *)

Lemma SFcompare_antisym (x y : spec_float) (c : comparison) :
  SFcompare x y = Some c -> SFcompare y x = Some (CompOpp c).
Proof.
  destruct x as [sx|sx| |sx mx ex], y as [sy|sy| |sy my ey]; cbn;
    try discriminate; try (intros [= <-]; reflexivity);
    try (destruct sx; intros [= <-]; reflexivity);
    try (destruct sy; intros [= <-]; reflexivity);
    try (destruct sx, sy; intros [= <-]; reflexivity).
  intros [= <-]. f_equal.
  change (Pos.compare_cont Eq my mx) with (Pos.compare my mx).
  change (Pos.compare_cont Eq mx my) with (Pos.compare mx my).
  rewrite (Z.compare_antisym ex ey), (Pos.compare_antisym mx my).
  destruct sx, sy; try reflexivity;
    destruct (ex ?= ey)%Z; try reflexivity; destruct (mx ?= my)%positive; reflexivity.
Qed.

(** Two finite doubles that compare equal are the same double. *)
Lemma SFcompare_finite_eq (s : bool) (m : positive) (e : Z) (y : spec_float) :
  SFcompare (S754_finite s m e) y = Some Eq -> y = S754_finite s m e.
Proof.
  destruct y as [sy|sy| |sy my ey]; cbn; try discriminate.
  - destruct s; discriminate.
  - destruct sy; discriminate.
  - change (Pos.compare_cont Eq m my) with (Pos.compare m my).
    destruct s, sy; try discriminate;
      destruct (Z.compare_spec e ey) as [-> | |]; try discriminate;
      destruct (Pos.compare_spec m my) as [-> | |]; try discriminate; reflexivity.
Qed.

Lemma ltb_irrefl (x : spec_float) : F64.ltb x x = false.
Proof.
  unfold F64.ltb, SFltb. destruct (SFcompare x x) as [[| |]|] eqn:E; try reflexivity.
  pose proof (SFcompare_antisym _ _ _ E) as E'. rewrite E in E'. discriminate E'.
Qed.

(** [Math.min(x, y)] is not above [y]. *)
Lemma min_le_r (x y : spec_float) : F64.ltb y (F64.min x y) = false.
Proof.
  unfold F64.min. destruct (SFcompare x y) as [[| |]|] eqn:E.
  - destruct x as [[|]| | |]; try apply ltb_irrefl.
    destruct y as [[|]|[|]| |[|] ? ?]; try discriminate; reflexivity.
  - apply SFcompare_antisym in E. unfold F64.ltb, SFltb. rewrite E. reflexivity.
  - apply ltb_irrefl.
  - destruct y; reflexivity.
Qed.

(** A minimum with a finite double that is at most the other argument is
    that double. *)
Lemma min_finite_l (s : bool) (m : positive) (e : Z) (y : spec_float) :
  F64.leb (S754_finite s m e) y = true -> F64.min (S754_finite s m e) y = S754_finite s m e.
Proof.
  unfold F64.leb, SFleb, F64.min.
  destruct (SFcompare (S754_finite s m e) y) as [[| |]|] eqn:E; try discriminate; intros _.
  - apply (SFcompare_finite_eq _ _ _ _ E).
  - reflexivity.
Qed.


(** Rounding a non-negative integer mantissa gives a zero, a finite double
    or an infinity, never NaN. *)
Lemma shr_1_nonneg (mrs : shr_record) : (0 <= shr_m mrs)%Z -> (0 <= shr_m (shr_1 mrs))%Z.
Proof.
  destruct mrs as [m r s]. cbn. destruct m as [|[p|p|]|[p|p|]]; cbn; lia.
Qed.

Lemma iter_shr_1_nonneg (p : positive) (mrs : shr_record) :
  (0 <= shr_m mrs)%Z -> (0 <= shr_m (SpecFloat.iter_pos shr_1 p mrs))%Z.
Proof.
  revert mrs. induction p as [p IH|p IH|]; intros mrs H; cbn.
  - apply IH, IH, shr_1_nonneg, H.
  - apply IH, IH, H.
  - apply shr_1_nonneg, H.
Qed.

Lemma shr_fexp_nonneg (m e : Z) (l : location) :
  (0 <= m)%Z -> (0 <= shr_m (fst (shr_fexp F64.prec F64.emax m e l)))%Z.
Proof.
  intros H. unfold shr_fexp, shr.
  assert (H0 : (0 <= shr_m (shr_record_of_loc m l))%Z) by (destruct l as [|[| |]]; exact H).
  destruct (_ - e)%Z; cbn [fst]; try exact H0. apply iter_shr_1_nonneg, H0.
Qed.

Lemma round_nearest_even_nonneg (m : Z) (l : location) :
  (0 <= m)%Z -> (0 <= round_nearest_even m l)%Z.
Proof.
  intros H. destruct l as [|[| |]]; cbn; try lia. destruct (Z.even m); lia.
Qed.

Lemma binary_round_aux_not_nan (s : bool) (m e : Z) (l : location) :
  (0 <= m)%Z -> binary_round_aux F64.prec F64.emax s m e l <> S754_nan.
Proof.
  intros H. unfold binary_round_aux.
  pose proof (shr_fexp_nonneg m e l H) as H1.
  destruct (shr_fexp F64.prec F64.emax m e l) as [mrs1 e1]. cbn [fst] in H1.
  pose proof (shr_fexp_nonneg _ e1 loc_Exact
                (round_nearest_even_nonneg _ (loc_of_shr_record mrs1) H1)) as H2.
  destruct (shr_fexp F64.prec F64.emax _ e1 loc_Exact) as [mrs2 e2]. cbn [fst] in H2.
  destruct (shr_m mrs2) as [|p|p]; [discriminate| |lia].
  destruct (e2 <=? _)%Z; discriminate.
Qed.

Lemma binary_normalize_not_nan (m e : Z) (s : bool) :
  binary_normalize F64.prec F64.emax m e s <> S754_nan.
Proof.
  unfold binary_normalize, binary_round. destruct m as [|p|p]; [discriminate| |];
    destruct (shl_align _ _ _) as [mz ez]; apply binary_round_aux_not_nan; lia.
Qed.

(** A sum is NaN only when a term is NaN or the terms are the two
    infinities. *)
Lemma add_nonneg_not_nan (x y : spec_float) :
  F64.leb F64.zero x = true -> y <> S754_nan -> y <> S754_infinity true ->
  F64.add x y <> S754_nan.
Proof.
  intros Hx Hy1 Hy2.
  destruct x as [sx|[|]| |[|] mx ex]; try discriminate Hx;
    destruct y as [sy|[|]| |sy my ey]; try congruence; try discriminate.
  - destruct sx, sy; discriminate.
  - cbn. apply binary_normalize_not_nan.
Qed.

Lemma max_zero_nonneg (x : spec_float) :
  x <> S754_nan -> F64.leb F64.zero (F64.max F64.zero x) = true.
Proof.
  intros H. destruct x as [[|]|[|]| |[|] m e]; try reflexivity. congruence.
Qed.

Lemma or_zero_nonneg (v : spec_float) :
  F64.leb F64.zero v = true -> F64.leb F64.zero (Rounded.or_zero v) = true.
Proof.
  intros H. unfold Rounded.or_zero. destruct (F64.truthy v); [exact H | reflexivity].
Qed.

(** The exact value: [Math.floor] and [Math.round] take the integer part
    of the exact value of their argument. *)
Lemma floor_Z_spec (x : spec_float) : F64.floor_Z x = Qfloor (F64.value x).
Proof.
  destruct x as [s|s| |s m e]; try reflexivity. cbn [F64.floor_Z F64.value].
  destruct (Z.leb_spec 0 e) as [He|He].
  - symmetry. apply Qfloor_Z.
  - cbn [Qfloor]. rewrite Z2Pos.id by (apply Z.pow_pos_nonneg; lia). reflexivity.
Qed.

Lemma round_Z_spec (x : spec_float) : F64.round_Z x = Qfloor (F64.value x + (1 # 2)).
Proof.
  destruct x as [s|s| |s m e]; try reflexivity. cbn [F64.round_Z F64.value].
  destruct (Z.leb_spec 0 e) as [He|He].
  - set (n := (cond_Zopp s (Z.pos m) * 2 ^ e)%Z). unfold Qplus, inject_Z. cbn [Qnum Qden Qfloor].
    change (Z.pos (1 * 2)) with 2%Z. Z.div_mod_to_equations. lia.
  - assert (Hp : (0 < 2 ^ (- e))%Z) by (apply Z.pow_pos_nonneg; lia).
    unfold Qplus. cbn [Qnum Qden Qfloor].
    rewrite Pos2Z.inj_mul, Z2Pos.id by exact Hp. f_equal; lia.
Qed.

(** An integer below [2^53] in absolute value is a double: [of_Z] is exact
    on it. *)
Lemma digits2_pos_iter (m k : positive) :
  digits2_pos (Pos.iter xO m k) = (digits2_pos m + k)%positive.
Proof.
  induction k as [|k IH] using Pos.peano_ind.
  - cbn. lia.
  - rewrite Pos.iter_succ. cbn [digits2_pos]. rewrite IH. lia.
Qed.

Lemma Zpos_iter_xO (m k : positive) : Zpos (Pos.iter xO m k) = (Zpos m * 2 ^ Zpos k)%Z.
Proof.
  induction k as [|k IH] using Pos.peano_ind.
  - cbn. lia.
  - rewrite Pos.iter_succ, Pos2Z.inj_succ, Z.pow_succ_r by lia.
    rewrite Pos2Z.inj_xO, IH. lia.
Qed.

Lemma digits2_pos_bound (m : positive) (d : Z) :
  (Zpos m < 2 ^ d)%Z -> (0 <= d)%Z -> (Zpos (digits2_pos m) <= d)%Z.
Proof.
  revert d. induction m as [m IH|m IH|]; intros d H Hd; cbn [digits2_pos];
    rewrite ?Pos2Z.inj_succ.
  - assert (Hd1 : (1 <= d)%Z).
    { destruct (Z.eq_dec d 0%Z) as [-> |]; [cbn in H; lia | lia]. }
    replace d with (Z.succ (d - 1)) in H by lia. rewrite Z.pow_succ_r in H by lia.
    specialize (IH (d - 1)%Z). lia.
  - assert (Hd1 : (1 <= d)%Z).
    { destruct (Z.eq_dec d 0%Z) as [-> |]; [cbn in H; lia | lia]. }
    replace d with (Z.succ (d - 1)) in H by lia. rewrite Z.pow_succ_r in H by lia.
    specialize (IH (d - 1)%Z). lia.
  - destruct (Z.eq_dec d 0%Z) as [-> |]; [cbn in H; lia | cbn; lia].
Qed.

Lemma binary_round_aux_canonical (s : bool) (mz : positive) (ez : Z) :
  Zpos (digits2_pos mz) = 53%Z -> (-1074 <= ez <= 971)%Z ->
  binary_round_aux F64.prec F64.emax s (Zpos mz) ez loc_Exact = S754_finite s mz ez.
Proof.
  intros Hd He.
  assert (Hf : fexp F64.prec F64.emax (Zpos (digits2_pos mz) + ez) = ez).
  { rewrite Hd. unfold fexp, emin, F64.prec, F64.emax. lia. }
  unfold binary_round_aux, shr_fexp. cbn [Zdigits2 shr_record_of_loc].
  rewrite Hf, Z.sub_diag.
  cbn [shr shr_m loc_of_shr_record round_nearest_even Zdigits2 shr_record_of_loc].
  rewrite Hf, Z.sub_diag. cbn [shr shr_m].
  destruct (Z.leb_spec ez (F64.emax - F64.prec)) as [_|H]; [reflexivity|].
  unfold F64.prec, F64.emax in H. lia.
Qed.

Lemma binary_round_small (s : bool) (m : positive) :
  (Zpos m < 2 ^ 53)%Z ->
  exists (mz : positive) (ez : Z),
    binary_round F64.prec F64.emax s m 0 = S754_finite s mz ez
    /\ (-52 <= ez <= 0)%Z /\ Zpos mz = (Zpos m * 2 ^ (- ez))%Z.
Proof.
  intros H. pose proof (digits2_pos_bound m 53%Z H ltac:(lia)) as Hd.
  assert (Hf : fexp F64.prec F64.emax (Zpos (digits2_pos m) + 0) = (Zpos (digits2_pos m) - 53)%Z).
  { unfold fexp, emin, F64.prec, F64.emax. lia. }
  unfold binary_round, shl_align. rewrite Hf.
  destruct (Zpos (digits2_pos m) - 53 - 0)%Z as [|k|k] eqn:E; [|lia|].
  - exists m, 0%Z. split; [apply binary_round_aux_canonical; lia|]. split; [lia|]. cbn. lia.
  - exists (Pos.iter xO m k), (Zpos (digits2_pos m) - 53)%Z. split.
    + apply binary_round_aux_canonical; [|lia]. rewrite digits2_pos_iter. lia.
    + split; [lia|]. rewrite Zpos_iter_xO. f_equal. f_equal. lia.
Qed.

Lemma value_of_Z (n : Z) : (Z.abs n < 2 ^ 53)%Z -> F64.value (F64.of_Z n) == inject_Z n.
Proof.
  intros H. unfold F64.of_Z, binary_normalize.
  assert (Hgen : forall (s : bool) (m : positive), (Zpos m < 2 ^ 53)%Z ->
            F64.value (binary_round F64.prec F64.emax s m 0) == inject_Z (cond_Zopp s (Zpos m))).
  { intros s m Hm. destruct (binary_round_small s m Hm) as (mz & ez & -> & He & Hz).
    cbn [F64.value]. destruct (Z.leb_spec 0 ez) as [H0|H0].
    - assert (ez = 0%Z) as -> by lia. change (- 0)%Z with 0%Z in Hz.
      rewrite !Z.pow_0_r, !Z.mul_1_r in *.
      destruct s; cbn [cond_Zopp]; rewrite Hz; reflexivity.
    - assert (Hp : (0 < 2 ^ (- ez))%Z) by (apply Z.pow_pos_nonneg; lia).
      unfold Qeq, inject_Z. cbn [Qnum Qden]. rewrite Z2Pos.id by exact Hp.
      destruct s; cbn [cond_Zopp]; rewrite Hz; ring. }
  destruct n as [|p|p]; [reflexivity| |].
  - apply (Hgen false p). lia.
  - apply (Hgen true p). lia.
Qed.

(** The floor of a double with a mantissa below [2^53] is the double whose
    value is the integer part of its exact value. *)
Lemma value_floor (x : spec_float) :
  match x with S754_finite _ m _ => (Zpos m < 2 ^ 53)%Z | _ => True end ->
  F64.value (F64.floor x) == inject_Z (Qfloor (F64.value x)).
Proof.
  destruct x as [s|s| |s m e]; try reflexivity. intros Hm.
  rewrite <- floor_Z_spec. unfold F64.floor.
  destruct (Z.leb_spec 0 e) as [He|He].
  - cbn [F64.value F64.floor_Z]. destruct (Z.leb_spec 0 e); [reflexivity | lia].
  - destruct (Z.eqb_spec (F64.floor_Z (S754_finite s m e)) 0) as [-> | Hn]; [reflexivity|].
    apply value_of_Z. cbn [F64.floor_Z]. destruct (Z.leb_spec 0 e); [lia|].
    assert (Hp : (1 <= 2 ^ (- e))%Z) by (apply Z.lt_pred_le, Z.pow_pos_nonneg; lia).
    destruct s; cbn [cond_Zopp].
    + assert ((- Zpos m <= - Zpos m / 2 ^ (- e))%Z /\ (- Zpos m / 2 ^ (- e) <= 0)%Z).
      { split.
        - apply Z.div_le_lower_bound; [lia|]. nia.
        - apply Z.div_le_upper_bound; [lia|]. lia. }
      lia.
    + assert ((0 <= Zpos m / 2 ^ (- e))%Z /\ (Zpos m / 2 ^ (- e) <= Zpos m)%Z).
      { split.
        - apply Z.div_pos; lia.
        - apply Z.div_le_upper_bound; [lia|]. nia. }
      lia.
Qed.

(** [x % 2 === 0] holds of the doubles whose exact value is an even
    integer. *)
Lemma mod2_is_zero_spec (x : spec_float) :
  F64.is_finite x = true ->
  (F64.mod2_is_zero x = true <-> exists k : Z, F64.value x == inject_Z (2 * k)).
Proof.
  destruct x as [s|s| |s m e]; try discriminate; intros _.
  - split; [intros _; exists 0%Z; reflexivity | reflexivity].
  - cbn [F64.mod2_is_zero F64.value]. set (a := cond_Zopp s (Zpos m)).
    destruct (Z.leb_spec 1 e) as [He|He].
    + split; [intros _|reflexivity]. destruct (Z.leb_spec 0 e); [|lia].
      exists (a * 2 ^ (e - 1))%Z. apply inject_Z_injective.
      replace e with (Z.succ (e - 1)) at 1 by lia. rewrite Z.pow_succ_r by lia. ring.
    + assert (Hp : (0 < 2 ^ (- e))%Z) by (apply Z.pow_pos_nonneg; lia).
      assert (HN : (2 ^ (1 - e) = 2 * 2 ^ (- e))%Z).
      { replace (1 - e)%Z with (Z.succ (- e)) by lia. apply Z.pow_succ_r. lia. }
      assert (Hdiv : (Zpos m mod 2 ^ (1 - e) =? 0)%Z = true <-> exists k, a = (2 * k * 2 ^ (- e))%Z).
      { rewrite Z.eqb_eq, Z.mod_divide by lia. rewrite HN. unfold a. split.
        - intros [j Hj]. destruct s; cbn [cond_Zopp].
          + exists (- j)%Z. lia.
          + exists j. lia.
        - intros [k Hk]. destruct s; cbn [cond_Zopp] in Hk.
          + exists (- k)%Z. lia.
          + exists k. lia. }
      rewrite Hdiv. clear Hdiv.
      destruct (Z.leb_spec 0 e) as [H0|H0].
      * assert (e = 0%Z) as -> by lia. cbn [Z.opp]. rewrite Z.pow_0_r.
        split; intros [k Hk]; exists k.
        -- apply inject_Z_injective. lia.
        -- apply (proj1 (inject_Z_injective _ _)) in Hk. lia.
      * split; intros [k Hk]; exists k.
        -- unfold Qeq, inject_Z. cbn [Qnum Qden]. rewrite Z2Pos.id by exact Hp. lia.
        -- unfold Qeq, inject_Z in Hk. cbn [Qnum Qden] in Hk.
           rewrite Z2Pos.id in Hk by exact Hp. lia.
Qed.

Lemma digits2_pos_lt (m : positive) : (Zpos m < 2 ^ Zpos (digits2_pos m))%Z.
Proof.
  induction m as [m IH|m IH|]; cbn [digits2_pos]; rewrite ?Pos2Z.inj_succ, ?Z.pow_succ_r by lia;
    [lia | lia | reflexivity].
Qed.

Lemma double_mantissa (x : spec_float) :
  F64.is_double x = true ->
  match x with S754_finite _ m _ => (Zpos m < 2 ^ 53)%Z | _ => True end.
Proof.
  destruct x as [s|s| |s m e]; try exact (fun _ => I).
  unfold F64.is_double, valid_binary, bounded, canonical_mantissa, fexp, emin, F64.prec, F64.emax.
  intros H. apply andb_true_iff in H as [H _]. apply Z.eqb_eq in H.
  pose proof (digits2_pos_lt m) as Hlt.
  assert (Hd : (Zpos (digits2_pos m) <= 53)%Z) by lia.
  eapply Z.lt_le_trans; [exact Hlt|]. apply Z.pow_le_mono_r; lia.
Qed.

Lemma value_round (x : spec_float) :
  match x with S754_finite _ m _ => (Zpos m < 2 ^ 53)%Z | _ => True end ->
  F64.value (F64.round x) == inject_Z (Qfloor (F64.value x + (1 # 2))).
Proof.
  destruct x as [s|s| |s m e]; try reflexivity. intros Hm.
  rewrite <- round_Z_spec. unfold F64.round.
  destruct (Z.leb_spec 0 e) as [He|He].
  - cbn [F64.value F64.round_Z]. destruct (Z.leb_spec 0 e); [reflexivity | lia].
  - destruct (Z.eqb_spec (F64.round_Z (S754_finite s m e)) 0) as [-> | Hn]; [reflexivity|].
    apply value_of_Z. cbn [F64.round_Z]. destruct (Z.leb_spec 0 e); [lia|].
    assert (Hp : (2 <= 2 ^ (- e))%Z).
    { replace (- e)%Z with (Z.succ (- e - 1)) by lia. rewrite Z.pow_succ_r by lia.
      assert (0 < 2 ^ (- e - 1))%Z by (apply Z.pow_pos_nonneg; lia). lia. }
    set (d := (2 ^ (- e))%Z) in *.
    destruct s; cbn [cond_Zopp].
    + assert ((- Zpos m <= (2 * - Zpos m + d) / (2 * d))%Z /\ ((2 * - Zpos m + d) / (2 * d) < 1)%Z).
      { split.
        - apply Z.div_le_lower_bound; [lia|]. nia.
        - apply Z.div_lt_upper_bound; lia. }
      lia.
    + assert ((0 <= (2 * Zpos m + d) / (2 * d))%Z /\ ((2 * Zpos m + d) / (2 * d) <= Zpos m)%Z).
      { split.
        - apply Z.div_pos; lia.
        - apply Z.div_le_upper_bound; [lia|]. nia. }
      lia.
Qed.

(** ** The sizing and win-rate helpers in double precision *)

(** C5 as stated fails.  Read on the decimal numbers 0.3 and 0.1, the rule
    gives floor(0.3/0.1) = 3 units, and the helper returns 2 (the quotient of
    the two doubles rounds to 2.9999999999999996).  Read on the exact values
    of the arguments, the rule gives floor(100 / 0.1000000000000000055...) =
    999 units for the double nearest to 0.1, and the helper returns 1000 (the
    quotient rounds to 1000). *)
Lemma C5_counterexample :
  (Rounded.calculateTradeAmount (F64.decimal 3 1) (F64.decimal 1 1) (F64.of_Z 100) = F64.of_Z 2
   /\ HelperSpec.tradeSize (3 # 10) (1 # 10) 100 == 3)
  /\ (Rounded.calculateTradeAmount (F64.of_Z 100) (F64.decimal 1 1) (F64.of_Z 1000)
      = F64.of_Z 1000
      /\ 0 < F64.value (F64.decimal 1 1)
      /\ HelperSpec.tradeSize 100 (F64.value (F64.decimal 1 1)) 1000 == 999).
Proof.
  repeat apply conj; vm_compute; reflexivity.
Qed.

(** C5 (amended): with [q = maxPositionSize / price] and
    [a = availableBalance / price] the two quotients rounded to the nearest
    double, the helper returns [min(1, a)] when [maxPositionSize < price] and
    [min(floor(q), a)] otherwise, where [floor(q)] is the integer part of the
    exact value of the rounded quotient [q]; the result is never above [a];
    with a cap of 1000 at price 50 and [a >= 20] it returns 20. *)
Theorem C5_trade_sizing_double (maxPositionSize price availableBalance : spec_float) :
  let q := F64.div maxPositionSize price in
  let a := F64.div availableBalance price in
  let size := Rounded.calculateTradeAmount maxPositionSize price availableBalance in
  (F64.ltb maxPositionSize price = true -> size = F64.min (F64.of_Z 1) a)
  /\ (F64.ltb maxPositionSize price = false ->
      size = F64.min (F64.floor q) a
      /\ (F64.is_double q = true -> F64.value (F64.floor q) == inject_Z (Qfloor (F64.value q))))
  /\ F64.ltb a size = false
  /\ (forall balance : spec_float,
        F64.leb (F64.of_Z 20) (F64.div balance (F64.of_Z 50)) = true ->
        Rounded.calculateTradeAmount (F64.of_Z 1000) (F64.of_Z 50) balance = F64.of_Z 20).
Proof.
  cbv zeta. unfold Rounded.calculateTradeAmount. split; [|split; [|split]].
  - intros ->. reflexivity.
  - intros ->. split; [reflexivity|]. intros Hq. apply value_floor, double_mantissa, Hq.
  - destruct (F64.ltb maxPositionSize price); apply min_le_r.
  - intros balance Hb.
    change (F64.ltb (F64.of_Z 1000) (F64.of_Z 50)) with false. cbv iota.
    change (F64.floor (F64.div (F64.of_Z 1000) (F64.of_Z 50)))
      with (S754_finite false 5629499534213120 (-48)).
    change (F64.of_Z 20) with (S754_finite false 5629499534213120 (-48)) in *.
    apply min_finite_l, Hb.
Qed.

Lemma C5_trade_sizing_double_witness :
  F64.leb (F64.of_Z 20) (F64.div (F64.of_Z 2000) (F64.of_Z 50)) = true
  /\ Rounded.calculateTradeAmount (F64.of_Z 1000) (F64.of_Z 50) (F64.of_Z 2000) = F64.of_Z 20.
Proof.
  split; [vm_compute; reflexivity|].
  apply (C5_trade_sizing_double (F64.of_Z 1000) (F64.of_Z 50) (F64.of_Z 2000)).
  vm_compute. reflexivity.
Defined.

(** C9 as stated fails: from a rate of 33 over 39 trades a win gives the
    average 34.675, whose rounding to two decimals is 34.68 (halves upwards,
    and to the even hundredth as well); the helper returns the double nearest
    to 34.67, because [34.675 * 100] is 3467.4999999999995 in doubles. *)
Lemma C9_counterexample :
  Rounded.calculateWinRate (F64.of_Z 33) (F64.of_Z 39) true = F64.decimal 3467 2
  /\ F64.decimal 3467 2 <> F64.decimal 3468 2
  /\ HelperSpec.newRate 33 39 true == 34675 # 1000
  /\ HelperSpec.is_round2 (HelperSpec.newRate 33 39 true) (3468 # 100)
  /\ F64.value (F64.decimal 3467 2) < (3468 # 100) - (1 # 200).
Proof.
  split; [vm_compute; reflexivity|].
  split; [vm_compute; discriminate|].
  split; [vm_compute; reflexivity|].
  split; [|vm_compute; reflexivity].
  exists 3468%Z. repeat split; vm_compute; try reflexivity. discriminate.
Qed.

(** C9 (amended): the helper returns [Math.round(a * 100) / 100], where
    [a = (oldRate * oldTotalTrades + (isWin ? 100 : 0)) / (oldTotalTrades + 1)]
    and every product, sum and quotient is rounded to the nearest double;
    [Math.round] takes the integer nearest to the exact value of the rounded
    product [a * 100], halves upwards; from a rate of 50 over one trade a win
    gives 75. *)
Theorem C9_win_rate_double (oldRate oldTotalTrades : spec_float) (isWin : bool) :
  let a := F64.div (F64.add (F64.mul oldRate oldTotalTrades)
                            (F64.of_Z (if isWin then 100 else 0)))
                   (F64.add oldTotalTrades (F64.of_Z 1)) in
  let y := F64.mul a (F64.of_Z 100) in
  Rounded.calculateWinRate oldRate oldTotalTrades isWin = F64.div (F64.round y) (F64.of_Z 100)
  /\ (F64.is_double y = true ->
      F64.value (F64.round y) == inject_Z (Qfloor (F64.value y + (1 # 2))))
  /\ (F64.is_finite y = false -> F64.round y = y)
  /\ Rounded.calculateWinRate (F64.of_Z 50) (F64.of_Z 1) true = F64.of_Z 75.
Proof.
  cbv zeta. split; [reflexivity|]. split; [|split].
  - intros Hy. apply value_round, double_mantissa, Hy.
  - destruct (F64.mul _ _); try discriminate; reflexivity.
  - vm_compute. reflexivity.
Qed.

Lemma C9_win_rate_double_witness :
  F64.value (F64.round (F64.mul (F64.decimal 34675 3) (F64.of_Z 100))) == 3467.
Proof.
  destruct (C9_win_rate_double (F64.of_Z 33) (F64.of_Z 39) true) as (_ & H & _).
  cbv zeta in H.
  change (F64.div (F64.add (F64.mul (F64.of_Z 33) (F64.of_Z 39)) (F64.of_Z 100))
                  (F64.add (F64.of_Z 39) (F64.of_Z 1)))
    with (F64.decimal 34675 3) in H.
  rewrite H; [vm_compute; reflexivity | vm_compute; reflexivity].
Defined.

(** ** MA-Cross and Grid in double precision *)

Lemma slice_from_last_closes (p : Z) (l : list spec_float) :
  (0 < p)%Z -> slice_from (- p) l = Rounded.last_closes (Z.to_nat p) l.
Proof.
  intros Hp. unfold slice_from, Rounded.last_closes, js_length.
  destruct (Z.ltb_spec (- p) 0) as [_|H]; [|lia].
  f_equal. lia.
Qed.

(** For a positive period the moving average of the source is the simple
    moving average of the last [period] closes, in double arithmetic. *)
Lemma calculateMA_sma_double (prices : list spec_float) (period : Z) :
  (0 < period)%Z -> Rounded.calculateMA prices period = Rounded.sma (Z.to_nat period) prices.
Proof.
  intros Hp. unfold Rounded.calculateMA, Rounded.sma.
  rewrite slice_from_last_closes by exact Hp. rewrite Z2Nat.id by lia. reflexivity.
Qed.

Lemma ltb_gtb_false (x y : spec_float) : F64.ltb x y = true -> F64.gtb x y = false.
Proof.
  unfold F64.ltb, F64.gtb, SFltb.
  destruct (SFcompare x y) as [[| |]|] eqn:E; try discriminate. intros _.
  apply SFcompare_antisym in E. rewrite E. reflexivity.
Qed.

(** C6 as stated fails: on three closes that are all the double nearest to
    0.1, with periods 2 and 3, the two simple moving averages are equal (on
    the exact values of the closes and on the decimal 0.1 alike), so the rule
    answers nothing; the strategy answers sell, because the sum of three
    closes is 0.30000000000000004 in doubles and the slow average
    0.10000000000000002. *)
Lemma C6_counterexample :
  let c := F64.decimal 1 1 in
  Rounded.analyze (Rounded.MACrossStrategy 2 3 9) (Rounded.snapshot_with c [c; c; c])
  = Ok (Some sell)
  /\ Rounded.validateData (Rounded.snapshot_with c [c; c; c]) = Ok tt
  /\ StrategySpec.sma 2 (map F64.value [c; c; c]) == StrategySpec.sma 3 (map F64.value [c; c; c])
  /\ StrategySpec.sma 2 [1 # 10; 1 # 10; 1 # 10] == StrategySpec.sma 3 [1 # 10; 1 # 10; 1 # 10]
  /\ Rounded.calculateMA [c; c; c] 2 = c
  /\ F64.ltb c (Rounded.calculateMA [c; c; c] 3) = true.
Proof.
  cbv zeta. repeat apply conj; vm_compute; reflexivity.
Qed.

(** C6 (amended): on a valid snapshot MA-Cross answers nothing when there
    are fewer klines than [slowPeriod]; otherwise it compares the two moving
    averages as doubles: buy when the fast one is greater, sell when it is
    smaller, nothing otherwise.  The average over a positive period is the
    sum of the last [period] closes, added oldest first from 0 with every sum
    rounded, divided by [period] and rounded: equal closes can therefore
    have unequal averages.  Closes 1..5 with periods 2 and 4 give the
    averages 4.5 and 3.5 and the answer buy. *)
Theorem C6_ma_cross_double (fastPeriod slowPeriod signalPeriod : Z)
    (marketData : option Rounded.MarketData)
    (Hvalid : Rounded.validateData marketData = Ok tt) :
  let closes := map Rounded.k_close (Rounded.klines_of marketData) in
  let fastMA := Rounded.calculateMA closes fastPeriod in
  let slowMA := Rounded.calculateMA closes slowPeriod in
  let answer := Rounded.analyze (Rounded.MACrossStrategy fastPeriod slowPeriod signalPeriod)
                                marketData in
  ((js_length (Rounded.klines_of marketData) < slowPeriod)%Z -> answer = Ok None)
  /\ ((slowPeriod <= js_length (Rounded.klines_of marketData))%Z ->
      (F64.gtb fastMA slowMA = true -> answer = Ok (Some buy))
      /\ (F64.ltb fastMA slowMA = true -> answer = Ok (Some sell))
      /\ (F64.gtb fastMA slowMA = false -> F64.ltb fastMA slowMA = false -> answer = Ok None))
  /\ (forall period : Z, (0 < period)%Z ->
        Rounded.calculateMA closes period = Rounded.sma (Z.to_nat period) closes)
  /\ (Rounded.analyze (Rounded.MACrossStrategy 2 4 signalPeriod)
        (Rounded.snapshot_with (F64.of_Z 5) (map F64.of_Z [1; 2; 3; 4; 5]%Z))
      = Ok (Some buy)
      /\ Rounded.sma 2 (map F64.of_Z [1; 2; 3; 4; 5]%Z) = F64.decimal 45 1
      /\ Rounded.sma 4 (map F64.of_Z [1; 2; 3; 4; 5]%Z) = F64.decimal 35 1).
Proof.
  intros closes fastMA slowMA answer.
  assert (Hans : answer =
    if (js_length (Rounded.klines_of marketData) <? slowPeriod)%Z then Ok None
    else if F64.gtb fastMA slowMA then Ok (Some buy)
         else if F64.ltb fastMA slowMA then Ok (Some sell) else Ok None).
  { unfold answer, Rounded.analyze. rewrite Hvalid. reflexivity. }
  split; [|split; [|split]].
  - intros Hlen. rewrite Hans.
    destruct (Z.ltb_spec (js_length (Rounded.klines_of marketData)) slowPeriod);
      [reflexivity | lia].
  - intros Hlen. rewrite Hans.
    destruct (Z.ltb_spec (js_length (Rounded.klines_of marketData)) slowPeriod); [lia|].
    split; [|split].
    + intros ->. reflexivity.
    + intros Hlt. rewrite (ltb_gtb_false _ _ Hlt), Hlt. reflexivity.
    + intros -> ->. reflexivity.
  - intros period Hp. apply calculateMA_sma_double, Hp.
  - repeat apply conj; vm_compute; reflexivity.
Qed.

Lemma C6_ma_cross_double_witness :
  Rounded.analyze (Rounded.MACrossStrategy 2 4 9)
    (Rounded.snapshot_with (F64.of_Z 5) (map F64.of_Z [1; 2; 3; 4; 5]%Z))
  = Ok (Some buy).
Proof.
  refine (proj1 (proj1 (proj2 (C6_ma_cross_double 2 4 9
            (Rounded.snapshot_with (F64.of_Z 5) (map F64.of_Z [1; 2; 3; 4; 5]%Z)) _)) _) _).
  - reflexivity.
  - vm_compute. discriminate.
  - vm_compute. reflexivity.
Defined.

(** C8 as stated fails: on the grid from 100 to 200 with 11 lines, at price
    200, the index floor((200-100) / (100/11)) is 11, which is odd, hence
    sell; the strategy answers buy, because 100/11 is 9.090909090909092 in
    doubles, the quotient 10.999999999999998 and its floor 10. *)
Lemma C8_counterexample :
  Rounded.analyze (Rounded.newGridStrategy (F64.of_Z 200) (F64.of_Z 100) (F64.of_Z 11))
                  (Rounded.snapshot_with (F64.of_Z 200) [])
  = Ok (Some buy)
  /\ Rounded.validateData (Rounded.snapshot_with (F64.of_Z 200) []) = Ok tt
  /\ Qfloor ((200 - 100) / ((200 - 100) / 11)) = 11%Z
  /\ Z.even 11 = false
  /\ F64.floor (F64.div (F64.sub (F64.of_Z 200) (F64.of_Z 100))
                        (F64.div (F64.sub (F64.of_Z 200) (F64.of_Z 100)) (F64.of_Z 11)))
     = F64.of_Z 10.
Proof.
  repeat apply conj; vm_compute; reflexivity.
Qed.

(** C8 (amended): on a valid snapshot the Grid strategy computes
    [gridSize = (upperPrice - lowerPrice) / gridLines] and
    [gridPosition = floor((price - lowerPrice) / gridSize)] in double
    arithmetic, every difference and quotient rounded to the nearest double,
    with no clamping; it answers buy exactly when [gridPosition] is a finite
    double whose value is an even integer, and sell otherwise (also when
    [gridPosition] is NaN or an infinity); it never answers nothing. *)
Theorem C8_grid_double (upperPrice lowerPrice gridLines : spec_float)
    (marketData : option Rounded.MarketData)
    (Hvalid : Rounded.validateData marketData = Ok tt) :
  let gridSize := F64.div (F64.sub upperPrice lowerPrice) gridLines in
  let quotient := F64.div (F64.sub (Rounded.price_of marketData) lowerPrice) gridSize in
  let gridPosition := F64.floor quotient in
  let answer := Rounded.analyze (Rounded.newGridStrategy upperPrice lowerPrice gridLines)
                                marketData in
  (answer = Ok (Some buy) \/ answer = Ok (Some sell))
  /\ (answer = Ok (Some buy)
      <-> F64.is_finite gridPosition = true
          /\ exists k : Z, F64.value gridPosition == inject_Z (2 * k))
  /\ (F64.is_double quotient = true ->
      F64.value gridPosition == inject_Z (Qfloor (F64.value quotient))).
Proof.
  intros gridSize quotient gridPosition answer.
  assert (Hans : answer = if F64.mod2_is_zero gridPosition then Ok (Some buy) else Ok (Some sell)).
  { unfold answer, Rounded.analyze, Rounded.newGridStrategy. rewrite Hvalid. reflexivity. }
  split; [|split].
  - rewrite Hans. destruct (F64.mod2_is_zero gridPosition); [left | right]; reflexivity.
  - rewrite Hans. destruct (F64.is_finite gridPosition) eqn:Hfin.
    + pose proof (mod2_is_zero_spec gridPosition Hfin) as Hspec.
      destruct (F64.mod2_is_zero gridPosition).
      * split; [intros _; split; [reflexivity | apply Hspec; reflexivity] | reflexivity].
      * split; [discriminate|]. intros [_ Hk]. apply Hspec in Hk. discriminate Hk.
    + assert (Hno : F64.mod2_is_zero gridPosition = false)
        by (destruct gridPosition; try discriminate Hfin; reflexivity).
      rewrite Hno. split; [discriminate|]. intros [H _]. discriminate H.
  - intros Hq. apply value_floor, double_mantissa, Hq.
Qed.

Lemma C8_grid_double_witness :
  Rounded.analyze (Rounded.newGridStrategy (F64.of_Z 200) (F64.of_Z 100) (F64.of_Z 10))
                  (Rounded.snapshot_with (F64.of_Z 85) [])
  = Ok (Some buy).
Proof.
  apply (C8_grid_double (F64.of_Z 200) (F64.of_Z 100) (F64.of_Z 10)
           (Rounded.snapshot_with (F64.of_Z 85) []) eq_refl).
  split; [vm_compute; reflexivity|]. exists (-1)%Z. vm_compute. reflexivity.
Defined.

(** ** The balance ledger in double precision *)

Lemma new_balance_plain (object : gmap string spec_float) (currency : string)
    (amount : spec_float) :
  Rounded.inherits currency = false ->
  Rounded.new_balance object currency amount
  = F64.max F64.zero (F64.add (Rounded.or_zero (default F64.zero (object !! currency))) amount).
Proof.
  intros H. unfold Rounded.new_balance, Rounded.get_property.
  destruct (object !! currency); [reflexivity|]. rewrite H. reflexivity.
Qed.

Lemma getBalance_plain (currency : string) (st : Rounded.TradingModeStore) :
  Rounded.inherits currency = false ->
  Rounded.getBalance currency st
  = Rounded.Number
      (Rounded.or_zero
         (default F64.zero (Rounded.balance_of (Rounded.tm_mode st) st !! currency))).
Proof.
  intros H. unfold Rounded.getBalance, Rounded.get_property.
  destruct (_ !! currency); [reflexivity|]. rewrite H. reflexivity.
Qed.

Lemma rounded_balance_set_same (mode : TradingMode) (b : gmap string spec_float)
    (st : Rounded.TradingModeStore) :
  Rounded.balance_of mode (Rounded.set_balance_of mode b st) = b.
Proof. destruct mode; reflexivity. Qed.

Lemma rounded_balance_set_other (mode other : TradingMode) (b : gmap string spec_float)
    (st : Rounded.TradingModeStore) :
  other <> mode ->
  Rounded.balance_of other (Rounded.set_balance_of mode b st) = Rounded.balance_of other st.
Proof. destruct mode, other; try reflexivity; intros H; contradiction H; reflexivity. Qed.

Lemma rounded_mode_set (mode : TradingMode) (b : gmap string spec_float)
    (st : Rounded.TradingModeStore) :
  Rounded.tm_mode (Rounded.set_balance_of mode b st) = Rounded.tm_mode st.
Proof. destruct mode; reflexivity. Qed.

Lemma new_balance_nonneg (object : gmap string spec_float) (currency : string)
    (amount : spec_float) :
  (forall v, object !! currency = Some v -> F64.leb F64.zero v = true) ->
  Rounded.inherits currency = false -> amount <> S754_nan -> amount <> S754_infinity true ->
  F64.leb F64.zero (Rounded.new_balance object currency amount) = true.
Proof.
  intros Hold Hc Hnan Hinf. rewrite new_balance_plain by exact Hc.
  apply max_zero_nonneg, add_nonneg_not_nan; try assumption.
  apply or_zero_nonneg. destruct (object !! currency) as [v|]; [apply Hold; reflexivity|].
  reflexivity.
Qed.

Lemma rounded_call_nonneg (st : Rounded.TradingModeStore) (c : Rounded.LedgerCall) :
  Rounded.plain_call c -> Rounded.balances_nonneg st ->
  Rounded.balances_nonneg (Rounded.ledger_call st c).
Proof.
  intros Hc Hst. destruct c as [currency amount | mode allowed]; cbn [Rounded.ledger_call].
  - destruct Hc as (Hkey & Hnan & Hinf). intros mode c v. unfold Rounded.updateBalance.
    destruct (decide (mode = Rounded.tm_mode st)) as [-> | Hne].
    + rewrite rounded_balance_set_same.
      destruct (decide (c = currency)) as [-> | Hc].
      * rewrite lookup_insert_eq. intros [= <-].
        apply new_balance_nonneg; try assumption. intros v0 Hv0. exact (Hst _ _ _ Hv0).
      * rewrite lookup_insert_ne by congruence. apply Hst.
    + rewrite rounded_balance_set_other by exact Hne. apply Hst.
  - intros m c v. destruct mode; [|destruct allowed]; cbn; try apply Hst;
      destruct m; apply Hst.
Qed.

Lemma rounded_run_nonneg (calls : list Rounded.LedgerCall) (st : Rounded.TradingModeStore) :
  Forall Rounded.plain_call calls -> Rounded.balances_nonneg st ->
  Rounded.balances_nonneg (Rounded.ledger_run calls st).
Proof.
  intros Hcalls. revert st. induction Hcalls as [|c calls Hc _ IH]; intros st Hst; [exact Hst|].
  cbn [Rounded.ledger_run fold_left]. apply IH, rounded_call_nonneg; assumption.
Qed.

Lemma rounded_initial_nonneg : Rounded.balances_nonneg Rounded.initialTradingMode.
Proof.
  intros mode c v. destruct mode; cbn [Rounded.balance_of Rounded.initialTradingMode
    Rounded.tm_balance_demo Rounded.tm_balance_live].
  - intros H. apply lookup_singleton_Some in H as [_ <-]. reflexivity.
  - intros H. apply lookup_insert_Some in H as [[_ <-] | [_ H]]; [reflexivity|].
    apply lookup_insert_Some in H as [[_ <-] | [_ H]]; [reflexivity|].
    apply lookup_singleton_Some in H as [_ <-]. reflexivity.
Qed.

(** C3 as stated fails.  The currency [constructor] has no entry in the
    initial demo balances, so a deposit of 5 should store max(0, 0 + 5) = 5;
    the read finds the function every object inherits under that name, and
    NaN is stored, which is not at least 0.  A delta that is NaN, and a delta
    of -Infinity on a balance of Infinity, store NaN as well.  And the sum is
    a rounded one: 0.2 added to a balance of 0.1 stores a double that is not
    the sum of the two. *)
Lemma C3_counterexample :
  let st := Rounded.updateBalance "constructor" (F64.of_Z 5) Rounded.initialTradingMode in
  Rounded.balance_of demo Rounded.initialTradingMode !! "constructor"%string = None
  /\ Rounded.balance_of demo st !! "constructor"%string = Some S754_nan
  /\ F64.max F64.zero (F64.add F64.zero (F64.of_Z 5)) = F64.of_Z 5
  /\ F64.leb F64.zero S754_nan = false
  /\ ~ Rounded.balances_nonneg st
  /\ Rounded.balance_of demo
       (Rounded.updateBalance "USDT" S754_nan Rounded.initialTradingMode) !! "USDT"%string
     = Some S754_nan
  /\ Rounded.balance_of demo
       (Rounded.ledger_run [Rounded.CallUpdateBalance "USDT" (S754_infinity false);
                            Rounded.CallUpdateBalance "USDT" (S754_infinity true)]
                           Rounded.initialTradingMode) !! "USDT"%string
     = Some S754_nan
  /\ (exists stored : spec_float,
        Rounded.balance_of demo
          (Rounded.ledger_run [Rounded.CallUpdateBalance "ETH" (F64.decimal 1 1);
                               Rounded.CallUpdateBalance "ETH" (F64.decimal 2 1)]
                              Rounded.initialTradingMode) !! "ETH"%string
        = Some stored
        /\ F64.value (F64.decimal 1 1) + F64.value (F64.decimal 2 1) < F64.value stored).
Proof.
  cbv zeta.
  assert (H : Rounded.balance_of demo
                (Rounded.updateBalance "constructor" (F64.of_Z 5) Rounded.initialTradingMode)
              !! "constructor"%string = Some S754_nan) by (vm_compute; reflexivity).
  split; [vm_compute; reflexivity|]. split; [exact H|].
  split; [vm_compute; reflexivity|]. split; [reflexivity|].
  split; [intros Hn; apply Hn in H; discriminate H|].
  split; [vm_compute; reflexivity|]. split; [vm_compute; reflexivity|].
  eexists. split; vm_compute; reflexivity.
Qed.

(** C3 (amended): for a currency that is not the name of an inherited
    property, [updateBalance(currency, delta)] stores
    [Math.max(0, old + delta)] in double arithmetic under that currency of
    the current mode, where [old] is what [getBalance] reads (a missing entry
    counts as 0) and the sum is rounded to the nearest double, and changes
    no other entry, nor the other mode, nor the mode.  Consequently, after
    every sequence of [updateBalance] calls (and switches of mode) from the
    initial state, with such currencies and with deltas other than NaN and
    -Infinity, every stored balance is at least 0. *)
Theorem C3_balance_floor_double (calls : list Rounded.LedgerCall)
    (Hplain : Forall Rounded.plain_call calls) :
  (forall (currency : string) (amount : spec_float) (st : Rounded.TradingModeStore),
     Rounded.inherits currency = false ->
     let st' := Rounded.updateBalance currency amount st in
     (exists old : spec_float,
        Rounded.getBalance currency st = Rounded.Number old
        /\ Rounded.balance_of (Rounded.tm_mode st) st' !! currency
           = Some (F64.max F64.zero (F64.add old amount)))
     /\ (forall other : string, other <> currency ->
           Rounded.balance_of (Rounded.tm_mode st) st' !! other
           = Rounded.balance_of (Rounded.tm_mode st) st !! other)
     /\ (forall mode : TradingMode, mode <> Rounded.tm_mode st ->
           Rounded.balance_of mode st' = Rounded.balance_of mode st)
     /\ Rounded.tm_mode st' = Rounded.tm_mode st)
  /\ Rounded.balances_nonneg (Rounded.ledger_run calls Rounded.initialTradingMode).
Proof.
  split.
  - intros currency amount st Hkey. cbv zeta. rewrite (getBalance_plain _ _ Hkey).
    unfold Rounded.updateBalance.
    rewrite rounded_balance_set_same, rounded_mode_set, lookup_insert_eq.
    rewrite new_balance_plain by exact Hkey.
    split; [eexists; split; reflexivity|]. split; [|split].
    + intros other Hne. apply lookup_insert_ne. congruence.
    + intros mode Hne. apply rounded_balance_set_other, Hne.
    + reflexivity.
  - apply rounded_run_nonneg; [exact Hplain | apply rounded_initial_nonneg].
Qed.

Lemma C3_balance_floor_double_witness :
  Rounded.balances_nonneg
    (Rounded.ledger_run [Rounded.CallUpdateBalance "USDT" (F64.of_Z (-500));
                         Rounded.CallUpdateBalance "BTC" (F64.decimal 15 1);
                         Rounded.CallSetMode live true;
                         Rounded.CallUpdateBalance "USDT" (F64.of_Z (-7))]
                        Rounded.initialTradingMode).
Proof.
  apply (C3_balance_floor_double
           [Rounded.CallUpdateBalance "USDT" (F64.of_Z (-500));
            Rounded.CallUpdateBalance "BTC" (F64.decimal 15 1);
            Rounded.CallSetMode live true;
            Rounded.CallUpdateBalance "USDT" (F64.of_Z (-7))]).
  repeat constructor; try (vm_compute; reflexivity); vm_compute; discriminate.
Defined.

(** ** The risk check in double precision *)

Lemma gtb_nan_r (x : spec_float) : F64.gtb x S754_nan = false.
Proof. destruct x; reflexivity. Qed.

Lemma gtb_nan_l (x : spec_float) : F64.gtb S754_nan x = false.
Proof. destruct x; reflexivity. Qed.

(** X14 ([checkOrderRisk], [updateLimits]): an order is allowed exactly when
    none of the four tests fires: its value, the price times the amount
    rounded to a double, is not above [maxOrderValue]; the daily result is
    not below [-maxDailyLoss]; its leverage is not above [maxLeverage]; and
    its stop-loss is truthy.  A comparison with NaN is false: once
    [updateLimits] has stored NaN as [maxOrderValue], which the settings page
    sends for an emptied field, no order is refused for its value, whatever
    it is. *)
Theorem risk_check_in_doubles (rs : Rounded.RiskStore) (order : Rounded.Order) :
  let limits := Rounded.risk_limits rs in
  let orderValue := F64.mul (Rounded.order_price order) (Rounded.order_amount order) in
  (Rounded.checkOrderRisk rs order = Rounded.RiskAllowed
   <-> F64.gtb orderValue (Rounded.lim_maxOrderValue limits) = false
       /\ F64.ltb (Rounded.risk_dailyPnL rs) (F64.opp (Rounded.lim_maxDailyLoss limits)) = false
       /\ (forall leverage : spec_float, Rounded.order_leverage order = Some leverage ->
             F64.gtb leverage (Rounded.lim_maxLeverage limits) = false)
       /\ (exists stopLoss : spec_float,
             Rounded.order_stopLoss order = Some stopLoss /\ F64.truthy stopLoss = true))
  /\ (forall value limit : spec_float,
        Rounded.checkOrderRisk (Rounded.updateLimits Rounded.emptied_maxOrderValue rs) order
        <> Rounded.RiskOrderValue value limit).
Proof.
  cbv zeta. split.
  - unfold Rounded.checkOrderRisk. cbv zeta.
    destruct (F64.gtb _ (Rounded.lim_maxOrderValue _)) eqn:E1.
    { split; [discriminate | intros (H & _); discriminate H]. }
    destruct (F64.ltb _ _) eqn:E2.
    { split; [discriminate | intros (_ & H & _); discriminate H]. }
    destruct (F64.gtb (default F64.nan (Rounded.order_leverage order)) _) eqn:E3.
    { split; [discriminate|]. intros (_ & _ & H & _).
      destruct (Rounded.order_leverage order) as [leverage|]; cbn [from_option id] in E3.
      - rewrite (H leverage eq_refl) in E3. discriminate E3.
      - unfold F64.nan in E3. rewrite gtb_nan_l in E3. discriminate E3. }
    destruct (Rounded.order_stopLoss order) as [stopLoss|]; cbn [from_option negb].
    + destruct (F64.truthy stopLoss) eqn:E4; cbn [negb].
      * split; [|reflexivity]. intros _. repeat split.
        -- intros leverage Hl. destruct (Rounded.order_leverage order); [|discriminate Hl].
           injection Hl as <-. exact E3.
        -- exists stopLoss. split; [reflexivity | exact E4].
      * split; [discriminate|]. intros (_ & _ & _ & s & Hs & Ht). injection Hs as <-.
        rewrite E4 in Ht. discriminate Ht.
    + split; [discriminate|]. intros (_ & _ & _ & s & Hs & _). discriminate Hs.
  - intros value limit. unfold Rounded.checkOrderRisk. cbv zeta.
    cbn [Rounded.updateLimits Rounded.risk_limits Rounded.lim_maxOrderValue
         Rounded.emptied_maxOrderValue Rounded.new_maxOrderValue from_option id].
    rewrite gtb_nan_r.
    destruct (F64.ltb _ _); [discriminate|]. destruct (F64.gtb _ _); [discriminate|].
    destruct (negb _); discriminate.
Qed.

(** C4 (failing input): the trading mode is demo when the tick runs, and the
    executor, which was started in live mode, still buys: the demo ledger is
    debited by 105 USDT and credited with 1 BTC, a position is inserted and a
    buy trade is recorded.  The guard reads the mode of the state object
    captured at the start, the balance functions read the current mode. *)
Theorem C4_stale_mode_guard :
  let st' := run_tick 1 (quiet_tick 70000) switched_engine in
  reachable switched_engine
  /\ se_riskAllowed (checked_start 3000 true initialRiskStore created_small_bot 105) = true
  /\ tm_mode (tradingMode switched_engine) = demo
  /\ (ex_mode <$> executors switched_engine !! 1%nat) = Some live
  /\ positions_of 1 switched_engine = []
  /\ getBalance "USDT" (tradingMode switched_engine) == 100000
  /\ getBalance "BTC" (tradingMode switched_engine) == 0
  /\ tm_mode (tradingMode st') = demo
  /\ getBalance "USDT" (tradingMode st') == 99895
  /\ getBalance "BTC" (tradingMode st') == 1
  /\ map_keys (positions_of 1 st') = ["BTC/USDT"%string]
  /\ (map (fun p => (perf_totalTrades p, map trade_type (perf_trades p)))
          <$> mapM id (store_performances st'))
     = Some [(1%nat, [buy])].
Proof.
  cbv zeta. apply conj; [exists switched_trace; vm_compute; reflexivity|].
  repeat apply conj; vm_compute; reflexivity.
Qed.
